(** * A-SWARM: fast-path transport, pheromone quorum, micro-act catalog,
      sentinel scoring

    A shallow embedding of the detection-and-response pipeline of the
    A-SWARM prototype:

    - [Py]         the Python values the components exchange (JSON documents,
                   parameter maps) and the exceptions the code can raise;
    - [Wire]       [struct.pack] / [struct.unpack] for the big-endian header
                   formats of the fast path;
    - [Sender]     [prototype/sentinel/fast_path_v4.py];
    - [Listener]   [prototype/pheromone/udp_listener_v4.py];
    - [Gossip]     [prototype/pheromone/gossip_v2.py] and [signal_types.py];
    - [MicroAct]   [prototype/actuators/microact_catalog_v2.py];
    - [Telemetry]  [prototype/sentinel/telemetry_v2.py];
    - [Dispatch]   the burst of copies of the sender ([_send_with_dupes]);
    - [Keys]       how sender and listener load their HMAC keys;
    - [Health]     the statistics, their lock and the back-pressure monitor
                   of the listener;
    - [Lease]      the lease write of the sentinel ([update_lease]);
    - [Selector]   the label selectors of the catalog ([_parse_selector]).

    The modules named [...Facts], [...Runs], [...Props] and [...Gates]
    hold the theorems, the later ones about whole runs of a component.

    Python [int] is [Z]; Python [float] is modelled by the rationals [Q]
    (comparisons of finite floats are exact, arithmetic is idealised; the
    sampling test of the listener's workers, whose outcome is decided by
    the rounding of a product of the order of [10^18], rounds as the
    hardware does, with [round_double]); [bytes] is [list byte]; a [str]
    is the [string] of the bytes of its UTF-8 encoding, so [s.encode()] is
    [list_byte_of_string s] and a character outside ASCII takes two to
    four places; [dict] and [set] objects used as tables are stdpp [gmap]
    / [gset]; JSON objects, whose key order is observable, are association
    lists.  The clock, the random source, HMAC-SHA-256, SHA-256 and the
    JSON codec are library code and enter as section variables. *)

From Stdlib Require Import ZArith QArith Qround Qabs Lia Lqa List String Ascii Bool.
From Stdlib Require Import Strings.Byte DecimalString Sorting.Sorted.
From stdpp Require Import gmap strings list fin_maps.

Import ListNotations.
Local Open Scope Z_scope.
Set Warnings "-register-all".

(* ===================================================================== *)
(** * Python values and exceptions                                         *)
(* ===================================================================== *)

Module Py.

(** The values [json.loads] produces and [json.dumps] accepts.  Objects keep
    their insertion order, as Python dicts do. *)
Inductive json : Type :=
| JNull
| JBool (b : bool)
| JInt (n : Z)
| JFloat (q : Q)
| JStr (s : string)
| JList (l : list json)
| JDict (l : list (string * json)).

(** The exception classes that occur in the modelled code. *)
Inductive exn : Type :=
| TypeError
| ValueError
| AttributeError
| KeyError
| OverflowError
| RecursionError
| StructError.

(** The result of a call that may raise. *)
Inductive result (A : Type) : Type :=
| Ret (a : A)
| Raise (e : exn).
Arguments Ret {A} a.
Arguments Raise {A} e.

Definition bind {A B} (r : result A) (k : A -> result B) : result B :=
  match r with
  | Ret a => k a
  | Raise e => Raise e
  end.

(** [d.get(k)] / [k in d] / [d[k] = v] / [d.pop(k, None)] on an
    insertion-ordered dict with string keys. *)
Fixpoint dict_get {A} (k : string) (d : list (string * A)) : option A :=
  match d with
  | [] => None
  | (k', v) :: d' => if String.eqb k k' then Some v else dict_get k d'
  end.

Definition dict_mem {A} (k : string) (d : list (string * A)) : bool :=
  match dict_get k d with Some _ => true | None => false end.

Fixpoint dict_set {A} (k : string) (v : A) (d : list (string * A))
  : list (string * A) :=
  match d with
  | [] => [(k, v)]
  | (k', v') :: d' =>
      if String.eqb k k' then (k, v) :: d' else (k', v') :: dict_set k v d'
  end.

Fixpoint dict_pop {A} (k : string) (d : list (string * A))
  : list (string * A) :=
  match d with
  | [] => []
  | (k', v') :: d' =>
      if String.eqb k k' then d' else (k', v') :: dict_pop k d'
  end.

Definition dict_keys {A} (d : list (string * A)) : list string := map fst d.

(** [d.get(k, default)]. *)
Definition dict_get_default {A} (k : string) (dflt : A)
  (d : list (string * A)) : A :=
  match dict_get k d with Some v => v | None => dflt end.

(** Python truthiness, as used by [if x:]. *)
Definition truthy (v : json) : bool :=
  match v with
  | JNull => false
  | JBool b => b
  | JInt n => negb (n =? 0)
  | JFloat q => negb (Qeq_bool q 0)
  | JStr s => negb (String.eqb s EmptyString)
  | JList l => match l with [] => false | _ => true end
  | JDict l => match l with [] => false | _ => true end
  end.

(** [int(x)] on a float: truncation towards zero. *)
Definition int_of_Q (q : Q) : Z := Z.quot (Qnum q) (Zpos (Qden q)).

Definition Qlt_bool (a b : Q) : bool := negb (Qle_bool b a).

(** [float(n)] for an [int] raises [OverflowError] when [n] rounds to an
    infinity, that is from [2^1024 - 2^970] on. *)
Definition float_overflows (n : Z) : bool := 2 ^ 1024 - 2 ^ 970 <=? Z.abs n.

(** ** Rounding *)

(** The integer nearest to [q], a tie going to the even one. *)
Definition round_half_even (q : Q) : Z :=
  let f := Qfloor q in
  let r := (q - inject_Z f)%Q in
  if Qlt_bool r (1 # 2) then f
  else if Qlt_bool (1 # 2) r then f + 1
  else if Z.even f then f else f + 1.

(** [floor(log2 q)] for [0 < q]. *)
Definition Qlog2 (q : Q) : Z :=
  let e := Z.log2 (Qnum q) - Z.log2 (Zpos (Qden q)) in
  if Qle_bool (Qpower 2 e) q then e else e - 1.

(** The double nearest to [q], a tie going to the even mantissa: what a
    float operation with the exact result [q] returns, for results in the
    normal range ([2^-1022 <= |q| < 2^1024 - 2^970]). *)
Definition round_double (q : Q) : Q :=
  if Qeq_bool q 0 then 0
  else
    let ulp := Qpower 2 (Qlog2 (Qabs q) - 52) in
    (inject_Z (round_half_even (q / ulp)) * ulp)%Q.

End Py.

Export Py.

(* ===================================================================== *)
(** * [struct] : big-endian packing of unsigned integers                   *)
(* ===================================================================== *)

Module Wire.

Definition byte_val (b : byte) : Z := Z.of_N (Byte.to_N b).

Definition byte_of_Z (z : Z) : byte :=
  match Byte.of_N (Z.to_N (z mod 256)) with
  | Some b => b
  | None => x00
  end.

(** The [n] low-order bytes of [v], most significant first. *)
Fixpoint be_bytes (n : nat) (v : Z) : list byte :=
  match n with
  | O => []
  | S n' => be_bytes n' (v / 256) ++ [byte_of_Z v]
  end.

Definition be_value (bs : list byte) : Z :=
  fold_left (fun acc b => acc * 256 + byte_val b) bs 0.

(** [struct.pack] of one unsigned field of [n] bytes ([B], [H], [L], [Q]):
    a value outside [0, 256^n) raises [struct.error]. *)
Definition pack_uint (n : nat) (v : Z) : option (list byte) :=
  if (0 <=? v) && (v <? 256 ^ Z.of_nat n) then Some (be_bytes n v) else None.

(** Python slices [data[:n]], [data[a:b]] and [data[a:]] for
    non-negative bounds. *)
Definition slice_to (n : nat) (data : list byte) : list byte := take n data.
Definition slice (a b : nat) (data : list byte) : list byte :=
  take (b - a) (drop a data).
Definition slice_from (a : nat) (data : list byte) : list byte := drop a data.

End Wire.

(* ===================================================================== *)
(** * Library code the components call                                     *)
(* ===================================================================== *)

(** HMAC-SHA-256, SHA-256, the JSON codec, the ISO-8601 codec of
    [datetime] and [ipaddress] are not code of this repository.
    [json_loads] stands for [json.loads(payload.decode('utf-8'))] and
    answers [None] where that raises; [json_too_deep] tells the one
    exception from the other: [true] where the document is nested deeper
    than the interpreter's stack allows and the call raises
    [RecursionError], [false] where it raises [JSONDecodeError] or
    [UnicodeDecodeError]; [fromisoformat_timestamp s] stands for
    [datetime.fromisoformat(s.replace('Z', '+00:00')).timestamp()] and
    answers [None] where that raises [ValueError];
    [ip_in_network ip cidr] is [ip_address(ip) in ip_network(cidr)];
    [format_3f] and [py_format] are the conversions of f-strings;
    [int_of_str] answers [None] where [int(s)] raises [ValueError]. *)
Inductive dumps_style : Type :=
| Compact       (* separators=(',', ':') *)
| Indent2       (* indent=2 *)
| SortKeys      (* sort_keys=True *)
| Plain.        (* no option *)

Record Lib : Type := {
  hmac_sha256 : list byte -> list byte -> list byte;
  sha256 : list byte -> list byte;
  json_dumps : dumps_style -> json -> list byte;
  json_loads : list byte -> option json;
  json_too_deep : list byte -> bool;
  isoformat : Q -> string;
  fromisoformat_timestamp : string -> option Q;
  ip_in_network : string -> string -> bool;
  format_3f : Q -> string;          (* f"{x:.3f}" *)
  py_format : json -> string;       (* f"{x}" *)
  int_of_str : string -> option Z   (* int(s) *)
}.

(* ===================================================================== *)
(** * The fast-path sender ([fast_path_v4.py])                             *)
(* ===================================================================== *)

Module Sender.
Import Wire.

Definition MAGIC : list byte := [x41; x53; x57; x4d].  (* b'ASWM' *)
Definition V2 : Z := 2.
Definition V3 : Z := 3.
Definition TYPE_ELEVATION : Z := 1.
Definition HMAC_SIZE : Z := 32.
Definition MAX_PACKET_SIZE : Z := 1200.

(** Field widths of ['!4sBBQHHB'] and ['!4sBBQLHLHB'] after the magic. *)
Definition V2_HEADER_FMT : list nat := [1; 1; 8; 2; 2; 1]%nat.
Definition V3_HEADER_FMT : list nat := [1; 1; 8; 4; 2; 4; 2; 1]%nat.

(** [struct.calcsize]: four bytes of magic and the integer fields. *)
Definition calcsize (fmt : list nat) : Z := 4 + Z.of_nat (list_sum fmt).

(** [struct.pack(fmt, MAGIC, v1, ..., vn)]: [None] stands for
    [struct.error] (a value out of the range of its field, or the wrong
    number of values). *)
Fixpoint pack_uints (fmt : list nat) (vs : list Z) : option (list byte) :=
  match fmt, vs with
  | [], [] => Some []
  | n :: fmt', v :: vs' =>
      match pack_uint n v, pack_uints fmt' vs' with
      | Some b, Some r => Some (b ++ r)
      | _, _ => None
      end
  | _, _ => None
  end.

Definition struct_pack (fmt : list nat) (magic : list byte) (vs : list Z)
  : option (list byte) :=
  match pack_uints fmt vs with
  | Some r => Some (take 4 (magic ++ replicate 4 x00) ++ r)
  | None => None
  end.

Record FastPathSender : Type := {
  key_id : Z;
  dupes : Z;
  gap_ms : Z;
  protocol_version : Z;
  sequence : Z;
  src_id : Z;
  hmac_key : list byte
}.

Definition header_fmt (s : FastPathSender) : list nat :=
  if protocol_version s =? V3 then V3_HEADER_FMT else V2_HEADER_FMT.

Definition header_size (s : FastPathSender) : Z := calcsize (header_fmt s).

Definition payload_budget (s : FastPathSender) : Z :=
  MAX_PACKET_SIZE - header_size s - HMAC_SIZE.

Definition set_sequence (s : FastPathSender) (n : Z) : FastPathSender :=
  {| key_id := key_id s; dupes := dupes s; gap_ms := gap_ms s;
     protocol_version := protocol_version s; sequence := n;
     src_id := src_id s; hmac_key := hmac_key s |}.

(** The nonce of a version-3 header:
    [secrets.randbits(32) ^ (seq16 | (seq32 << 16))]. *)
Definition nonce32 (rand seq16 seq32 : Z) : Z :=
  Z.lxor rand (Z.lor seq16 (Z.shiftl seq32 16)).

Section WithLib.
Context (L : Lib).

(** [_build_packet(self, seq16, payload)]; [now] is the reading of
    [time.time()] and [rand] the value of [secrets.randbits(32)]. *)
Definition _build_packet (s : FastPathSender) (now : Q) (rand : Z)
  (seq16 : Z) (payload : list byte) : result (list byte) :=
  let header :=
    if protocol_version s =? V3 then
      let ts_unix_ms := int_of_Q (now * 1000) in
      let seq32 := sequence s - 1 in
      struct_pack (header_fmt s) MAGIC
        [V3; TYPE_ELEVATION; ts_unix_ms; src_id s; seq16;
         nonce32 rand seq16 seq32; Z.of_nat (length payload); key_id s]
    else
      let ts_ns := int_of_Q (now * 1000000000) in
      struct_pack (header_fmt s) MAGIC
        [V2; TYPE_ELEVATION; ts_ns; seq16; Z.of_nat (length payload);
         key_id s] in
  match header with
  | None => Raise StructError
  | Some header =>
      let packet_data := header ++ payload in
      Ret (packet_data ++ hmac_sha256 L (hmac_key s) packet_data)
  end.

(** The readings [send_elevation] takes from its environment. *)
Record SendEnv : Type := {
  hostname : string;
  wall_now : Q;       (* datetime.now(timezone.utc) *)
  build_now : Q;      (* time.time() in _build_packet *)
  randbits32 : Z      (* secrets.randbits(32) *)
}.

(** One round of the two optional-field loops.  [test_dict] is a shallow
    copy of [payload_dict], so writing [test_dict['anomaly'][f]] also
    writes the sender's own [anomaly] dict; a top-level write does not. *)
Fixpoint add_optional_anomaly (budget : Z) (anomaly_data : list (string * json))
  (fields : list string) (top anomaly : list (string * json))
  (payload : list byte) : list (string * json) * list byte :=
  match fields with
  | [] => (anomaly, payload)
  | f :: rest =>
      match dict_get f anomaly_data with
      | None | Some JNull =>
          add_optional_anomaly budget anomaly_data rest top anomaly payload
      | Some v =>
          let anomaly' := dict_set f v anomaly in
          let test_payload :=
            json_dumps L Compact (JDict (dict_set "anomaly" (JDict anomaly') top)) in
          if Z.of_nat (length test_payload) <=? budget
          then add_optional_anomaly budget anomaly_data rest top anomaly'
                 test_payload
          else (anomaly', payload)
      end
  end.

Fixpoint add_optional_meta (budget : Z) (anomaly_data : list (string * json))
  (fields : list string) (payload_dict : list (string * json))
  (payload : list byte) : list byte :=
  match fields with
  | [] => payload
  | f :: rest =>
      match dict_get f anomaly_data with
      | None | Some JNull =>
          add_optional_meta budget anomaly_data rest payload_dict payload
      | Some v =>
          let test_dict := dict_set f v payload_dict in
          let test_payload := json_dumps L Compact (JDict test_dict) in
          if Z.of_nat (length test_payload) <=? budget
          then add_optional_meta budget anomaly_data rest test_dict test_payload
          else payload
      end
  end.

(** The payload dict before the optional fields are tried. *)
Definition base_anomaly (anomaly_data : list (string * json))
  : list (string * json) :=
  [("score", dict_get_default "score" (JInt 0) anomaly_data);
   ("witness_count", dict_get_default "witness_count" (JInt 0) anomaly_data);
   ("selector", dict_get_default "selector" (JStr EmptyString) anomaly_data)].

Definition base_payload_dict (s : FastPathSender) (env : SendEnv)
  (anomaly_data : list (string * json)) (run_id : option string)
  : list (string * json) :=
  let payload_dict :=
    [("node_id", JStr (hostname env));
     ("wall_ts", JStr (isoformat L (wall_now env)));
     ("sequence32", JInt (sequence s));
     ("anomaly", JDict (base_anomaly anomaly_data))] in
  match run_id with
  | Some r => if String.eqb r EmptyString then payload_dict
              else dict_set "run_id" (JStr r) payload_dict
  | None => payload_dict
  end.

Definition base_payload (s : FastPathSender) (env : SendEnv)
  (anomaly_data : list (string * json)) (run_id : option string) : list byte :=
  json_dumps L Compact (JDict (base_payload_dict s env anomaly_data run_id)).

(** [send_elevation(self, anomaly_data, run_id)] up to the hand-over of the
    packet to [_send_with_dupes]: the packet (or the exception) and the
    sender afterwards.  The sequence counter is advanced first, whatever
    follows. *)
Definition send_elevation (s : FastPathSender) (env : SendEnv)
  (anomaly_data : list (string * json)) (run_id : option string)
  : result (list byte) * FastPathSender :=
  let seq16 := Z.land (sequence s) 65535 in
  let s' := set_sequence s (sequence s + 1) in
  let payload_dict := base_payload_dict s env anomaly_data run_id in
  let payload := base_payload s env anomaly_data run_id in
  if payload_budget s' <? Z.of_nat (length payload) then (Raise ValueError, s')
  else
    let '(anomaly', payload) :=
      add_optional_anomaly (payload_budget s') anomaly_data
        ["detection_window_ms"; "event_type"] payload_dict
        (base_anomaly anomaly_data) payload in
    let payload_dict := dict_set "anomaly" (JDict anomaly') payload_dict in
    let payload :=
      add_optional_meta (payload_budget s') anomaly_data
        ["pod_ips"; "extra_meta"] payload_dict payload in
    (_build_packet s' (build_now env) (randbits32 env) seq16 payload, s').

(** A run of sends, one environment and one request per send. *)
Fixpoint send_all (s : FastPathSender)
  (reqs : list (SendEnv * list (string * json) * option string))
  : list (result (list byte)) * FastPathSender :=
  match reqs with
  | [] => ([], s)
  | (env, ad, rid) :: rest =>
      let '(r, s') := send_elevation s env ad rid in
      let '(rs, s'') := send_all s' rest in
      (r :: rs, s'')
  end.

End WithLib.

End Sender.

(* ===================================================================== *)
(** * The fast-path listener ([udp_listener_v4.py])                        *)
(* ===================================================================== *)

#[global] Instance byte_eq_dec : EqDecision byte := Byte.byte_eq_dec.
#[global] Instance byte_countable : Countable byte :=
  inj_countable Byte.to_N Byte.of_N Byte.of_to_N.

Module Listener.
Import Wire.

Definition MAGIC : list byte := [x41; x53; x57; x4d].  (* b'ASWM' *)
Definition VERSION : Z := 3.
Definition TYPE_ELEVATION : Z := 1.
Definition HEADER_FMT : list nat := [1; 1; 8; 4; 2; 4; 2; 1]%nat.
Definition HEADER_SIZE : Z := 4 + Z.of_nat (list_sum HEADER_FMT).
Definition HMAC_SIZE : Z := 32.
Definition MAX_PAYLOAD : Z := 1200 - HEADER_SIZE - HMAC_SIZE.
Definition MAX_PACKET_SIZE : Z := 1200.
Definition REPLAY_CACHE_SIZE : Z := 10000.

Inductive SystemMode : Type := NORMAL | DEGRADED | OVERLOAD.

(** ** Ring buffer *)

Record RingBufferEntry : Type := {
  data : list byte;
  addr : string * Z;
  recv_time : Q
}.

Record RingBuffer : Type := {
  capacity : Z;
  buffer : list RingBufferEntry;
  dropped_count : Z
}.

(** [deque(maxlen=capacity).append]: a full deque discards from the left. *)
Definition deque_append (maxlen : Z) (b : list RingBufferEntry)
  (e : RingBufferEntry) : list RingBufferEntry :=
  let b' := b ++ [e] in
  drop (Z.to_nat (Z.of_nat (length b') - Z.max 0 maxlen)) b'.

Definition push (rb : RingBuffer) (e : RingBufferEntry) : RingBuffer * bool :=
  let was_full := capacity rb <=? Z.of_nat (length (buffer rb)) in
  ({| capacity := capacity rb;
      buffer := deque_append (capacity rb) (buffer rb) e;
      dropped_count := if was_full then dropped_count rb + 1
                       else dropped_count rb |},
   negb was_full).

(** [pop] once an entry is available or the timeout has passed. *)
Definition pop (rb : RingBuffer) : RingBuffer * option RingBufferEntry :=
  match buffer rb with
  | [] => (rb, None)
  | e :: b => ({| capacity := capacity rb; buffer := b;
                  dropped_count := dropped_count rb |}, Some e)
  end.

Definition get_dropped_count (rb : RingBuffer) : RingBuffer * Z :=
  ({| capacity := capacity rb; buffer := buffer rb; dropped_count := 0 |},
   dropped_count rb).

(** ** Statistics *)

Record Stats : Type := {
  counters : gmap string Z;
  window_received : Z;
  window_dropped : Z
}.

Definition counter_names : list string :=
  ["received"; "valid"; "invalid_magic"; "invalid_version"; "invalid_type";
   "invalid_key"; "invalid_hmac"; "invalid_json"; "replays"; "stale";
   "dropped_queue_full"; "dropped_oldest"; "rate_limited"]%string.

Definition Stats_init : Stats :=
  {| counters := list_to_map (map (fun c => (c, 0)) counter_names);
     window_received := 0;
     window_dropped := 0 |}.

(** [Stats.increment(counter, count)].  Every call site names a key of the
    initial table, so the [KeyError] of a missing key does not arise. *)
Definition increment (st : Stats) (counter : string) (count : Z) : Stats :=
  {| counters := <[counter := (counters st !!! counter) + count]> (counters st);
     window_received :=
       if String.eqb counter "received" then window_received st + count
       else window_received st;
     window_dropped :=
       if String.eqb counter "received" then window_dropped st
       else if existsb (String.eqb counter)
                 ["dropped_queue_full"; "dropped_oldest"; "rate_limited"]%string
       then window_dropped st + count
       else window_dropped st |}.

(** ** Listener state *)

Record FastPathListener : Type := {
  stale_window_sec : Z;
  stats : Stats;
  system_mode : SystemMode;
  sample_divisor : Z;
  rate_capacity : Q;
  rate_fill_per_sec : Q;
  _buckets : gmap string (Q * Q);
  hmac_keys : gmap Z (list byte);
  allowed_networks : list string;
  replay_cache : gset (list byte);
  replay_expire : list (list byte * Q);
  src_sequences : gmap Z (Z * gset Z);
  ring_buffer : RingBuffer
}.

Definition with_stats (l : FastPathListener) (s : Stats) : FastPathListener :=
  {| stale_window_sec := stale_window_sec l; stats := s;
     system_mode := system_mode l; sample_divisor := sample_divisor l;
     rate_capacity := rate_capacity l; rate_fill_per_sec := rate_fill_per_sec l;
     _buckets := _buckets l; hmac_keys := hmac_keys l;
     allowed_networks := allowed_networks l; replay_cache := replay_cache l;
     replay_expire := replay_expire l; src_sequences := src_sequences l;
     ring_buffer := ring_buffer l |}.

Definition with_buckets (l : FastPathListener) (b : gmap string (Q * Q))
  : FastPathListener :=
  {| stale_window_sec := stale_window_sec l; stats := stats l;
     system_mode := system_mode l; sample_divisor := sample_divisor l;
     rate_capacity := rate_capacity l; rate_fill_per_sec := rate_fill_per_sec l;
     _buckets := b; hmac_keys := hmac_keys l;
     allowed_networks := allowed_networks l; replay_cache := replay_cache l;
     replay_expire := replay_expire l; src_sequences := src_sequences l;
     ring_buffer := ring_buffer l |}.

Definition with_replay (l : FastPathListener) (c : gset (list byte))
  (e : list (list byte * Q)) : FastPathListener :=
  {| stale_window_sec := stale_window_sec l; stats := stats l;
     system_mode := system_mode l; sample_divisor := sample_divisor l;
     rate_capacity := rate_capacity l; rate_fill_per_sec := rate_fill_per_sec l;
     _buckets := _buckets l; hmac_keys := hmac_keys l;
     allowed_networks := allowed_networks l; replay_cache := c;
     replay_expire := e; src_sequences := src_sequences l;
     ring_buffer := ring_buffer l |}.

Definition with_src_sequences (l : FastPathListener)
  (m : gmap Z (Z * gset Z)) : FastPathListener :=
  {| stale_window_sec := stale_window_sec l; stats := stats l;
     system_mode := system_mode l; sample_divisor := sample_divisor l;
     rate_capacity := rate_capacity l; rate_fill_per_sec := rate_fill_per_sec l;
     _buckets := _buckets l; hmac_keys := hmac_keys l;
     allowed_networks := allowed_networks l; replay_cache := replay_cache l;
     replay_expire := replay_expire l; src_sequences := m;
     ring_buffer := ring_buffer l |}.

Definition with_ring_buffer (l : FastPathListener) (rb : RingBuffer)
  : FastPathListener :=
  {| stale_window_sec := stale_window_sec l; stats := stats l;
     system_mode := system_mode l; sample_divisor := sample_divisor l;
     rate_capacity := rate_capacity l; rate_fill_per_sec := rate_fill_per_sec l;
     _buckets := _buckets l; hmac_keys := hmac_keys l;
     allowed_networks := allowed_networks l; replay_cache := replay_cache l;
     replay_expire := replay_expire l; src_sequences := src_sequences l;
     ring_buffer := rb |}.

Definition count (l : FastPathListener) (counter : string) : FastPathListener :=
  with_stats l (increment (stats l) counter 1).

(** The listener [__init__] leaves behind, for a key table and the
    constructor's defaults otherwise. *)
Definition init (keys : gmap Z (list byte)) (ring_buffer_size : Z)
  (stale_window : Z) (allow_cidrs : list string) : FastPathListener :=
  {| stale_window_sec := stale_window; stats := Stats_init;
     system_mode := NORMAL; sample_divisor := 8;
     rate_capacity := 100; rate_fill_per_sec := 50;
     _buckets := ∅; hmac_keys := keys;
     allowed_networks := allow_cidrs; replay_cache := ∅;
     replay_expire := []; src_sequences := ∅;
     ring_buffer := {| capacity := ring_buffer_size; buffer := [];
                       dropped_count := 0 |} |}.

(** ** Header *)

Record Header : Type := {
  magic : list byte;
  version : Z;
  pkt_type : Z;
  ts_unix_ms : Z;
  src_id : Z;
  seq16 : Z;
  nonce32 : Z;
  payload_len : Z;
  key_id : Z
}.

Fixpoint unpack_uints (fmt : list nat) (bs : list byte) : list Z :=
  match fmt with
  | [] => []
  | n :: fmt' => be_value (take n bs) :: unpack_uints fmt' (drop n bs)
  end.

(** [struct.unpack(HEADER_FMT, header)]; [None] is [struct.error], raised
    when the buffer does not have the size of the format. *)
Definition struct_unpack (header : list byte) : option Header :=
  if Z.of_nat (length header) =? HEADER_SIZE then
    match unpack_uints HEADER_FMT (drop 4 header) with
    | [v; t; ts; src; sq; nonce; plen; kid] =>
        Some {| magic := take 4 header; version := v; pkt_type := t;
                ts_unix_ms := ts; src_id := src; seq16 := sq;
                nonce32 := nonce; payload_len := plen; key_id := kid |}
    | _ => None
    end
  else None.

(** [f"{x:08x}"] for [0 <= x < 2^32], the range of an unpacked [L] field. *)
Definition hex_digit (n : Z) : ascii :=
  nth (Z.to_nat n)
    ["0"; "1"; "2"; "3"; "4"; "5"; "6"; "7"; "8"; "9";
     "a"; "b"; "c"; "d"; "e"; "f"]%char "0"%char.

Definition hex08 (x : Z) : string :=
  string_of_list_ascii
    (map (fun i => hex_digit ((x / 16 ^ i) mod 16)) [7; 6; 5; 4; 3; 2; 1; 0]).

(** ** Per-source replay window (the block under [seq_lock]) *)

Definition seq_check (seqs : gmap Z (Z * gset Z)) (src seq : Z)
  : option (gmap Z (Z * gset Z)) :=
  let '(highest_seq, seen_seqs) := default (0, ∅) (seqs !! src) in
  if seq <=? highest_seq - 256 then None
  else if bool_decide (seq ∈ seen_seqs) then None
  else
    let highest_seq := if highest_seq <? seq then seq else highest_seq in
    let seen_seqs := {[seq]} ∪ seen_seqs in
    let seen_seqs :=
      if (256 <? size seen_seqs)%nat
      then filter (fun s => highest_seq - 255 <= s) seen_seqs
      else seen_seqs in
    Some (<[src := (highest_seq, seen_seqs)]> seqs).

(** ** Token bucket ([_allow_ip]) *)

Definition Qmax (a b : Q) : Q := if Qle_bool a b then b else a.
Definition Qmin (a b : Q) : Q := if Qle_bool a b then a else b.

Definition _allow_ip (l : FastPathListener) (now : Q) (ip : string)
  : FastPathListener * bool :=
  let '(tokens, last) := default (rate_capacity l, now) (_buckets l !! ip) in
  let delta := Qmax 0 (now - last) in
  let tokens := Qmin (rate_capacity l) (tokens + delta * rate_fill_per_sec l) in
  if Qlt_bool tokens 1 then
    (with_buckets (count l "rate_limited") (<[ip := (tokens, now)]> (_buckets l)),
     false)
  else
    (with_buckets l (<[ip := ((tokens - 1)%Q, now)]> (_buckets l)), true).

(** ** [_process_packet] *)

(** How the processing of one datagram ends. *)
Inductive outcome : Type :=
| Dropped                                  (* [return] with no counter *)
| Counted (counter : string)               (* a rejection counter, then [return] *)
| Delivered (payload_data : json) (source : string * Z)
                                           (* [valid], then the callback *)
| Failed (e : exn).                        (* an exception leaves the method *)

(** The three readings of [time.time()] inside [_process_packet]. *)
Record ProcEnv : Type := {
  t_age : Q;      (* for [now_ms] *)
  t_cache : Q;    (* for the expiry of the packet hash *)
  t_wall : Q      (* for the [wall_ts] check *)
}.

Inductive wall_verdict : Type :=
| WallFresh
| WallStale
| WallRaise (e : exn).

Section WithLib.
Context (L : Lib).

(** The secondary staleness check on the payload's [wall_ts]. *)
Definition wall_age_verdict (stale_window : Z) (now wall_epoch : Q)
  : wall_verdict :=
  let approx_age_ms := Qmax 0 ((now - wall_epoch) * 1000) in
  if Qlt_bool (inject_Z (stale_window * 1000)) approx_age_ms
  then WallStale else WallFresh.

Definition wall_ts_check (stale_window : Z) (now : Q)
  (payload_data : list (string * json)) : wall_verdict :=
  match dict_get "wall_ts" payload_data with
  | None => WallFresh
  | Some wall_ts =>
      if truthy wall_ts then
        match wall_ts with
        | JStr s =>
            match fromisoformat_timestamp L s with
            | Some wall_epoch => wall_age_verdict stale_window now wall_epoch
            | None => WallFresh                       (* ValueError: pass *)
            end
        | JInt n =>
            if float_overflows n then WallRaise OverflowError
            else wall_age_verdict stale_window now (inject_Z n)
        | JFloat q => wall_age_verdict stale_window now q
        | JBool b =>
            wall_age_verdict stale_window now (if b then 1 else 0)%Q
        | JNull | JList _ | JDict _ => WallFresh      (* TypeError: pass *)
        end
      else WallFresh
  end.

Definition fastpath_meta (h : Header) (source : string * Z) (age_ms : Z)
  : json :=
  JDict [("source_ip", JStr (fst source));
         ("source_port", JInt (snd source));
         ("src_id", JStr (hex08 (src_id h)));
         ("seq16", JInt (seq16 h));
         ("nonce32", JStr (hex08 (nonce32 h)));
         ("key_id", JInt (key_id h));
         ("ts_unix_ms", JInt (ts_unix_ms h));
         ("age_ms", JInt age_ms)].

Definition _process_packet (l : FastPathListener) (env : ProcEnv)
  (data : list byte) (source : string * Z) : FastPathListener * outcome :=
  if Z.of_nat (length data) <? HEADER_SIZE + HMAC_SIZE then (l, Dropped) else
  match struct_unpack (slice_to (Z.to_nat HEADER_SIZE) data) with
  | None => (l, Dropped)
  | Some h =>
  if negb (bool_decide (magic h = MAGIC)) then
    (count l "invalid_magic", Counted "invalid_magic") else
  if negb (version h =? VERSION) then
    (count l "invalid_version", Counted "invalid_version") else
  if negb (pkt_type h =? TYPE_ELEVATION) then
    (count l "invalid_type", Counted "invalid_type") else
  if MAX_PAYLOAD <? payload_len h then (l, Dropped) else
  let expected_size := HEADER_SIZE + payload_len h + HMAC_SIZE in
  if negb (Z.of_nat (length data) =? expected_size) then (l, Dropped) else
  let body_end := Z.to_nat (HEADER_SIZE + payload_len h) in
  let payload := slice (Z.to_nat HEADER_SIZE) body_end data in
  let received_hmac := slice_from body_end data in
  match hmac_keys l !! key_id h with
  | None => (count l "invalid_key", Counted "invalid_key")
  | Some key =>
  let now_ms := int_of_Q (t_age env * 1000) in
  let age_ms := Z.abs (now_ms - ts_unix_ms h) in
  if 5000 <? age_ms then (count l "stale", Counted "stale") else
  let expected_hmac := hmac_sha256 L key (slice_to body_end data) in
  if negb (bool_decide (received_hmac = expected_hmac)) then
    (count l "invalid_hmac", Counted "invalid_hmac") else
  match seq_check (src_sequences l) (src_id h) (seq16 h) with
  | None => (count l "replays", Counted "replays")
  | Some seqs =>
  let l := with_src_sequences l seqs in
  let packet_hash := take 16 (sha256 L data) in
  if bool_decide (packet_hash ∈ replay_cache l) then
    (count l "replays", Counted "replays") else
  let l := with_replay l ({[packet_hash]} ∪ replay_cache l)
             (replay_expire l ++
                [(packet_hash,
                  (t_cache env + inject_Z (stale_window_sec l))%Q)]) in
  match json_loads L payload with
  | None =>
      if json_too_deep L payload
      then (l, Failed RecursionError)   (* not among the caught ones *)
      else (count l "invalid_json", Counted "invalid_json")
  | Some (JDict payload_data) =>
      match wall_ts_check (stale_window_sec l) (t_wall env) payload_data with
      | WallRaise e => (l, Failed e)
      | WallStale => (count l "stale", Counted "stale")
      | WallFresh =>
          let l := count l "valid" in
          let payload_data :=
            dict_set "_fastpath" (fastpath_meta h source age_ms) payload_data in
          (l, Delivered (JDict payload_data) source)
      end
  | Some _ => (l, Failed AttributeError)   (* no [.get] on a non-dict *)
  end end end end.

(** ** One datagram through [_receive_loop] *)

Inductive received : Type :=
| Filtered          (* source outside the allow-list: [continue] *)
| RateLimited       (* [_allow_ip] refused: [continue] *)
| Queued (without_drop : bool).

Definition _receive_loop_step (l : FastPathListener) (now_bucket now_entry : Q)
  (datagram : list byte) (source : string * Z) : FastPathListener * received :=
  let l := count l "received" in
  let src_ip := fst source in
  let pass_filter :=
    match allowed_networks l with
    | [] => true
    | nets => existsb (ip_in_network L src_ip) nets
    end in
  if negb pass_filter then (l, Filtered) else
  let '(l, ok) := _allow_ip l now_bucket src_ip in
  if negb ok then (l, RateLimited) else
  let entry := {| data := datagram; addr := source; recv_time := now_entry |} in
  let '(rb, clean) := push (ring_buffer l) entry in
  (with_ring_buffer l rb, Queued clean).

(** ** One iteration of a worker ([_process_loop]) *)

Inductive worked : Type :=
| Idle                        (* [pop] timed out *)
| Sampled                     (* skipped by OVERLOAD sampling *)
| Processed (o : outcome)
| WorkerError.                (* caught and logged by the worker *)

(** [int(entry.recv_time * 1e9 + entry.addr[1])], in floats: the product
    and the sum are each rounded to a double.  From [2^53] on the doubles
    are whole numbers further and further apart, so that for a clock
    reading of today the value is a multiple of 256. *)
Definition sample_hash (entry : RingBufferEntry) : Z :=
  int_of_Q
    (round_double
       (round_double (recv_time entry * 1000000000)
        + inject_Z (snd (addr entry)))).

Definition _process_loop_step (l : FastPathListener) (env : ProcEnv)
  : FastPathListener * worked :=
  let '(rb, entry) := pop (ring_buffer l) in
  match entry with
  | None => (l, Idle)
  | Some entry =>
      let l := with_ring_buffer l rb in
      match system_mode l with
      | DEGRADED =>
          if capacity rb =? 0 then (l, WorkerError)   (* ZeroDivisionError *)
          else
            let overload :=
              Qlt_bool (round_double (98 # 100))
                (round_double
                   (inject_Z (Z.of_nat (length (buffer rb)))
                    / inject_Z (capacity rb))) in
            if overload && negb (sample_hash entry mod sample_divisor l =? 0)
            then (l, Sampled)
            else
              let '(l, o) := _process_packet l env (data entry) (addr entry) in
              (l, match o with Failed _ => WorkerError | _ => Processed o end)
      | _ =>
          let '(l, o) := _process_packet l env (data entry) (addr entry) in
          (l, match o with Failed _ => WorkerError | _ => Processed o end)
      end
  end.

(** ** One round of [_maintenance_loop] *)

Fixpoint expire_replay (now : Q) (exp : list (list byte * Q))
  (cache : gset (list byte)) : list (list byte * Q) * gset (list byte) :=
  match exp with
  | (h, t) :: exp' =>
      if Qlt_bool t now then expire_replay now exp' (cache ∖ {[h]})
      else (exp, cache)
  | [] => ([], cache)
  end.

Fixpoint evict_replay (n : nat) (exp : list (list byte * Q))
  (cache : gset (list byte)) : list (list byte * Q) * gset (list byte) :=
  match n, exp with
  | S n', (h, _) :: exp' => evict_replay n' exp' (cache ∖ {[h]})
  | _, _ => (exp, cache)
  end.

Definition _maintenance_step (l : FastPathListener) (now : Q)
  : FastPathListener :=
  let '(exp, cache) := expire_replay now (replay_expire l) (replay_cache l) in
  let overflow := Z.of_nat (size cache) - REPLAY_CACHE_SIZE in
  let '(exp, cache) := evict_replay (Z.to_nat overflow) exp cache in
  let l := with_replay l cache exp in
  let '(rb, dropped) := get_dropped_count (ring_buffer l) in
  let l := with_ring_buffer l rb in
  if 0 <? dropped
  then with_stats l (increment (stats l) "dropped_oldest" dropped)
  else l.

End WithLib.

(** The counters that end the life of a datagram: every counter except
    [received]. *)
Definition terminal_counters : list string :=
  ["valid"; "invalid_magic"; "invalid_version"; "invalid_type";
   "invalid_key"; "invalid_hmac"; "invalid_json"; "replays"; "stale";
   "dropped_queue_full"; "dropped_oldest"; "rate_limited"]%string.

Definition sum_counters (m : gmap string Z) (names : list string) : Z :=
  foldr (fun c acc => (m !!! c) + acc) 0 names.

Definition terminal_total (s : Stats) : Z :=
  sum_counters (counters s) terminal_counters.

End Listener.

(* ===================================================================== *)
(** * The pheromone aggregator ([gossip_v2.py], [signal_types.py])         *)
(* ===================================================================== *)

Module Gossip.

(** ** Signal types *)

Record LeaseSignal : Type := {
  node : string;
  seq : Z;
  score : Q;
  elevate : bool;
  client_ts : option Q;
  server_ts : option Q;      (* [lease.spec.renew_time], as a timestamp *)
  elevate_ts : option Q;
  run_id : option string
}.

(** [LeaseSignal.__post_init__]: the checks a signal passes on creation. *)
Definition LeaseSignal_valid (s : LeaseSignal) : bool :=
  negb (Qlt_bool (score s) 0 || Qlt_bool 1 (score s)) && negb (seq s <? 0).

Record QuorumMetrics : Type := {
  witness_count : Z;
  total_samples : Z;
  mean_score : Q;
  p95_score : Q;
  window_start_ts : Q;
  window_end_ts : Q;
  confidence : Q
}.

Definition Qmin (a b : Q) : Q := if Qle_bool a b then a else b.

(** The constructor with [QuorumMetrics.__post_init__]. *)
Definition QuorumMetrics_new (witnesses samples : Z) (mean p95 w0 w1 : Q)
  : QuorumMetrics :=
  {| witness_count := witnesses; total_samples := samples;
     mean_score := mean; p95_score := p95;
     window_start_ts := w0; window_end_ts := w1;
     confidence :=
       if (0 <? witnesses) && Qlt_bool 0 mean then
         (Qmin 1 (inject_Z witnesses / 3) * Qmin 1 (mean / (8 # 10)))%Q
       else 0%Q |}.

(** ** Watcher state *)

Record DualPathWatcher : Type := {
  namespace : string;
  window_s : Q;
  quorum_threshold : Z;
  node_score_threshold : Q;
  fast_path_score : Q;
  signals : list LeaseSignal;
  last_elevation : Q;
  elevation_backoff : Q;
  consecutive_elevations : Z;
  elevated : bool
}.

(** [DualPathWatcher.__init__] as far as the decision state goes. *)
Definition init (ns : string) (window_ms quorum : Z) (node_thr fast_thr : Q)
  : DualPathWatcher :=
  {| namespace := ns; window_s := (inject_Z window_ms / 1000)%Q;
     quorum_threshold := quorum; node_score_threshold := node_thr;
     fast_path_score := fast_thr; signals := [];
     last_elevation := 0; elevation_backoff := 2;
     consecutive_elevations := 0; elevated := false |}.

Definition default_watcher : DualPathWatcher :=
  init "aswarm" 80 3 (7 # 10) (90 # 100).

Definition with_decision (w : DualPathWatcher) (last : Q) (consec : Z)
  (elev : bool) : DualPathWatcher :=
  {| namespace := namespace w; window_s := window_s w;
     quorum_threshold := quorum_threshold w;
     node_score_threshold := node_score_threshold w;
     fast_path_score := fast_path_score w; signals := signals w;
     last_elevation := last; elevation_backoff := elevation_backoff w;
     consecutive_elevations := consec; elevated := elev |}.

Definition with_signals (w : DualPathWatcher) (sigs : list LeaseSignal)
  : DualPathWatcher :=
  {| namespace := namespace w; window_s := window_s w;
     quorum_threshold := quorum_threshold w;
     node_score_threshold := node_score_threshold w;
     fast_path_score := fast_path_score w; signals := sigs;
     last_elevation := last_elevation w;
     elevation_backoff := elevation_backoff w;
     consecutive_elevations := consecutive_elevations w;
     elevated := elevated w |}.

(** ** [compute_sliding_window_quorum] *)

(** [sorted] on floats. *)
Fixpoint insert_sorted (x : Q) (l : list Q) : list Q :=
  match l with
  | [] => [x]
  | y :: l' => if Qle_bool x y then x :: l else y :: insert_sorted x l'
  end.

Definition sorted (l : list Q) : list Q := foldr insert_sorted [] l.

(** [sum] on floats. *)
Definition Qsum (l : list Q) : Q := fold_left Qplus l 0%Q.

Definition in_window (cutoff : Q) (run : option string) (s : LeaseSignal)
  : bool :=
  match server_ts s with
  | None => false
  | Some signal_ts =>
      Qle_bool cutoff signal_ts &&
      match run with
      | None => true
      | Some r => bool_decide (run_id s = Some r)
      end
  end.

Definition window_signals (w : DualPathWatcher) (now : Q)
  (run : option string) : list LeaseSignal :=
  List.filter (in_window (now - window_s w)%Q run) (signals w).

(** [int(0.95 * len(scores))].  The product is taken in the rationals; on
    floats the result is the same for every length a window can have. *)
Definition p95_index (n : nat) : nat :=
  Z.to_nat (int_of_Q ((95 # 100) * inject_Z (Z.of_nat n))).

Definition compute_sliding_window_quorum (w : DualPathWatcher) (now : Q)
  (run : option string) : option QuorumMetrics :=
  let cutoff := (now - window_s w)%Q in
  match window_signals w now run with
  | [] => None
  | ws =>
      let scores := map score ws in
      let witnesses := size (list_to_set (map node ws) : gset string) in
      Some (QuorumMetrics_new
              (Z.of_nat witnesses)
              (Z.of_nat (length ws))
              (Qsum scores / inject_Z (Z.of_nat (length scores)))
              (nth (p95_index (length scores)) (sorted scores) 0%Q)
              cutoff now)
  end.

(** ** [should_elevate] *)

(** The reason strings, before formatting. *)
Inductive reason : Type :=
| no_metrics
| backoff
| already_elevated
| quorum (witnesses threshold : Z)               (* "quorum(w<t)" *)
| fast_path (witnesses : Z) (p95 : Q)            (* "fast_path(w=..,p95=..)" *)
| hysteresis (witnesses : Z) (mean : Q) (consec : Z)
| building (consec : Z)                          (* "building(c/2)" *)
| reset_hysteresis.

Definition should_elevate (w : DualPathWatcher) (perf_counter : Q)
  (metrics : option QuorumMetrics) : bool * reason * DualPathWatcher :=
  match metrics with
  | None => (false, no_metrics, w)
  | Some m =>
      if Qlt_bool (perf_counter - last_elevation w) (elevation_backoff w)
      then (false, backoff, w)
      else if elevated w then (false, already_elevated, w)
      else if witness_count m <? quorum_threshold w
      then (false, quorum (witness_count m) (quorum_threshold w), w)
      else
        let fast := (quorum_threshold w <=? witness_count m) &&
                    Qle_bool (fast_path_score w) (p95_score m) in
        if fast then
          (true, fast_path (witness_count m) (p95_score m),
           with_decision w (last_elevation w) (consecutive_elevations w) true)
        else
          let high_signal := (quorum_threshold w <=? witness_count m) &&
                             Qle_bool (node_score_threshold w) (mean_score m) in
          if high_signal then
            let c := consecutive_elevations w + 1 in
            if 2 <=? c then
              (true, hysteresis (witness_count m) (mean_score m) c,
               with_decision w (last_elevation w) c true)
            else
              (false, building c,
               with_decision w (last_elevation w) c (elevated w))
          else
            (false, reset_hysteresis,
             with_decision w (last_elevation w) 0 (elevated w))
  end.

(** ** The control plane, as far as config records go *)

Record V1ConfigMap : Type := {
  cm_name : string;
  cm_namespace : string;
  cm_labels : list (string * json);
  cm_data : list (string * list byte)
}.

(** What [create_namespaced_config_map] can raise. *)
Inductive create_exn : Type :=
| ApiException (status : Z) (detail : string)
| OtherException (text : string).

Definition decimal (z : Z) : string :=
  DecimalString.NilZero.string_of_int (Z.to_int z).

Definition newline : string := String (ascii_of_nat 10) EmptyString.

(** [str(e)]: an [ApiException] prints its status in parentheses first. *)
Definition exn_str (e : create_exn) : string :=
  match e with
  | ApiException status detail =>
      ("(" ++ decimal status ++ ")" ++ newline ++ "Reason: " ++ detail)%string
  | OtherException text => text
  end.

(** [needle in hay] on strings. *)
Fixpoint contains (needle hay : string) : bool :=
  String.prefix needle hay ||
  match hay with
  | EmptyString => false
  | String _ hay' => contains needle hay'
  end.

(** The records of the cluster, keyed by namespace and name.  A create
    either meets a fault of the API server, or conflicts with an existing
    record (409), or stores the record. *)
Definition create_namespaced_config_map
  (cluster : gmap (string * string) V1ConfigMap) (fault : option create_exn)
  (ns : string) (cm : V1ConfigMap)
  : gmap (string * string) V1ConfigMap * option create_exn :=
  match fault with
  | Some e => (cluster, Some e)
  | None =>
      match cluster !! (ns, cm_name cm) with
      | Some _ => (cluster, Some (ApiException 409 "Conflict"))
      | None => (<[(ns, cm_name cm) := cm]> cluster, None)
      end
  end.

(** The line an error handler prints or logs. *)
Definition report (prefix : string) (e : create_exn) : list string :=
  [(prefix ++ exn_str e)%string].

(** The calls a function makes on the control plane, in order. *)
Inductive api_call : Type :=
| Create (ns : string) (cm : V1ConfigMap)
| Patch (ns : string) (name : string).

Record ElevationEvent : Type := {
  ev_elevated : bool;
  ev_run_id : option string;
  ev_metrics : QuorumMetrics;
  ev_decision_ts : Q;
  ev_reason : string
}.

(** What an artifact writer leaves behind: the cluster, the calls it made,
    the error lines it printed or logged, and an exception if one escaped. *)
Record written : Type := {
  cluster_after : gmap (string * string) V1ConfigMap;
  calls : list api_call;
  errors : list string;
  escaped : option create_exn
}.

Section WithLib.
Context (L : Lib).

Definition reason_str (r : reason) : string :=
  match r with
  | no_metrics => "no_metrics"
  | backoff => "backoff"
  | already_elevated => "already_elevated"
  | quorum w t => "quorum(" ++ decimal w ++ "<" ++ decimal t ++ ")"
  | fast_path w p95 =>
      "fast_path(w=" ++ decimal w ++ ",p95=" ++ format_3f L p95 ++ ")"
  | hysteresis w s c =>
      "hysteresis(w=" ++ decimal w ++ ",s=" ++ format_3f L s ++
      ",consec=" ++ decimal c ++ ")"
  | building c => "building(" ++ decimal c ++ "/2)"
  | reset_hysteresis => "reset_hysteresis"
  end%string.

Definition opt_str (o : option string) : json :=
  match o with Some s => JStr s | None => JNull end.

Definition str_truthy (o : option string) : bool :=
  match o with Some s => negb (String.eqb s EmptyString) | None => false end.

(** [create_elevation_artifact]: the synchronous writer. *)
Definition create_elevation_artifact (w : DualPathWatcher)
  (cluster : gmap (string * string) V1ConfigMap) (fault : option create_exn)
  (event : ElevationEvent) : string * written :=
  match ev_run_id event with
  | Some run =>
      if String.eqb run EmptyString then
        (EmptyString, {| cluster_after := cluster; calls := []; errors := [];
                escaped := None |})
      else
      let name := ("aswarm-elevated-" ++ run)%string in
      let elevation_data :=
        [("run_id", JStr run);
         ("decision_ts_server", JStr (isoformat L (ev_decision_ts event)));
         ("witness_count", JInt (witness_count (ev_metrics event)));
         ("mean_score", JFloat (mean_score (ev_metrics event)));
         ("p95_score", JFloat (p95_score (ev_metrics event)));
         ("threshold", JInt (quorum_threshold w));
         ("window_ms", JInt (int_of_Q (window_s w * 1000)));
         ("reason", JStr (ev_reason event));
         ("confidence", JFloat (confidence (ev_metrics event)))] in
      let cm :=
        {| cm_name := name; cm_namespace := namespace w;
           cm_labels := [("type", JStr "elevation");
                         ("aswarm.ai/component", JStr "pheromone");
                         ("aswarm.ai/run-id", JStr run)];
           cm_data := [("elevation.json",
                        json_dumps L Indent2 (JDict elevation_data))] |} in
      let '(cluster', r) :=
        create_namespaced_config_map cluster fault (namespace w) cm in
      (name,
       {| cluster_after := cluster'; calls := [Create (namespace w) cm];
          errors :=
            match r with
            | Some (ApiException status _ as e) =>
                if status =? 409 then []
                else report "Failed to create elevation artifact: " e
            | _ => []
            end;
          escaped :=
            match r with Some (OtherException t) => r | _ => None end |})
  | None =>
      (EmptyString, {| cluster_after := cluster; calls := []; errors := [];
              escaped := None |})
  end.

(** [create_elevation_artifact_bg]: the writer of the lease path. *)
Definition elevation_data_bg (w : DualPathWatcher) (metrics : QuorumMetrics)
  (run : option string) (decision_ts_server reason : string)
  : list (string * json) :=
  [("run_id", opt_str run);
   ("decision_ts_server", JStr decision_ts_server);
   ("witness_count", JInt (witness_count metrics));
   ("mean_score", JFloat (mean_score metrics));
   ("p95_score", JFloat (p95_score metrics));
   ("threshold", JInt (quorum_threshold w));
   ("window_ms", JInt (int_of_Q (window_s w * 1000)));
   ("reason", JStr reason)].

Definition create_elevation_artifact_bg (w : DualPathWatcher)
  (cluster : gmap (string * string) V1ConfigMap) (fault : option create_exn)
  (metrics : QuorumMetrics) (run : option string)
  (decision_ts_server reason : string) : written :=
  let name :=
    if str_truthy run
    then ("aswarm-elevated-" ++ default EmptyString run)%string
    else "aswarm-elevated"%string in
  let cm :=
    {| cm_name := name; cm_namespace := namespace w;
       cm_labels := [("type", JStr "elevation");
                     ("aswarm.ai/component", JStr "pheromone");
                     ("aswarm.ai/run-id", opt_str run)];
       cm_data := [("elevation.json",
                    json_dumps L Indent2
                      (JDict (elevation_data_bg w metrics run
                                decision_ts_server reason)))] |} in
  let '(cluster', r) :=
    create_namespaced_config_map cluster fault (namespace w) cm in
  {| cluster_after := cluster'; calls := [Create (namespace w) cm];
     errors :=
       match r with
       | Some e =>
           if contains "409" (exn_str e) then []
           else report "Background artifact creation error: " e
       | None => []
       end;
     escaped := None |}.

(** [f"{run_id}"] for the [run_id] of a fast-path event. *)
Definition fmt (v : json) : string :=
  match v with
  | JStr s => s
  | JInt n => decimal n
  | _ => py_format L v
  end.

(** [create_fastpath_elevation_artifact]: the writer of the fast path. *)
Definition create_fastpath_elevation_artifact (w : DualPathWatcher)
  (cluster : gmap (string * string) V1ConfigMap) (fault : option create_exn)
  (elevation_event : list (string * json)) : written :=
  let run := dict_get_default "run_id" (JStr EmptyString) elevation_event in
  let name :=
    if truthy run then ("aswarm-elevated-fastpath-" ++ fmt run)%string
    else "aswarm-elevated-fastpath"%string in
  let cm :=
    {| cm_name := name; cm_namespace := namespace w;
       cm_labels := [("type", JStr "elevation");
                     ("aswarm.ai/component", JStr "pheromone");
                     ("aswarm.ai/source", JStr "fastpath");
                     ("aswarm.ai/run-id", run)];
       cm_data := [("elevation.json",
                    json_dumps L Indent2 (JDict elevation_event))] |} in
  let '(cluster', r) :=
    create_namespaced_config_map cluster fault (namespace w) cm in
  {| cluster_after := cluster'; calls := [Create (namespace w) cm];
     errors :=
       match r with
       | Some (ApiException status _ as e) =>
           if status =? 409 then []
           else report "Failed to create fast-path artifact: " e
       | _ => []
       end;
     escaped := match r with Some (OtherException t) => r | _ => None end |}.

(** [x < self.fast_path_score] for a JSON value [x]. *)
Definition json_lt_float (x : json) (y : Q) : result bool :=
  match x with
  | JInt n => Ret (Qlt_bool (inject_Z n) y)
  | JFloat q => Ret (Qlt_bool q y)
  | JBool b => Ret (Qlt_bool (if b then 1 else 0) y)
  | _ => Raise TypeError
  end.

(** [d.get(k, default)] where [d] may be any JSON value. *)
Definition json_get (d : json) (k : string) (dflt : json) : result json :=
  match d with
  | JDict l => Ret (dict_get_default k dflt l)
  | _ => Raise AttributeError
  end.

(** What [handle_fastpath_signal] does besides updating the watcher. *)
Inductive handled : Type :=
| BelowThreshold
| Spawned (elevation_event : list (string * json))   (* the writer's thread *)
| HandlerError (e : exn).                            (* caught and logged *)

Definition handle_fastpath_signal (w : DualPathWatcher)
  (decision_now perf_counter : Q) (elevation_data : list (string * json))
  : DualPathWatcher * handled :=
  let body :=
    let anomaly := dict_get_default "anomaly" (JDict []) elevation_data in
    bind (json_get anomaly "score" (JInt 0)) (fun score =>
    bind (json_lt_float score (fast_path_score w)) (fun below =>
    if below then Ret None else
    bind (json_get anomaly "witness_count" (JInt 1)) (fun wc =>
    bind (json_get anomaly "selector" (JStr EmptyString)) (fun sel =>
    bind (json_get anomaly "event_type" (JStr "fastpath")) (fun et =>
    bind (json_get (dict_get_default "_fastpath" (JDict []) elevation_data)
            "approx_age_ms" (JInt 0)) (fun lat =>
    Ret (Some
      [("elevation", JBool true);
       ("decision_ts_server", JStr (isoformat L decision_now));
       ("source", JStr "fastpath");
       ("node", dict_get_default "node_id" (JStr "unknown") elevation_data);
       ("score", score);
       ("witness_count", wc);
       ("selector", sel);
       ("event_type", et);
       ("latency_ms", lat);
       ("run_id", dict_get_default "run_id" (JStr EmptyString) elevation_data)]))))))) in
  match body with
  | Raise e => (w, HandlerError e)
  | Ret None => (w, BelowThreshold)
  | Ret (Some ev) =>
      (with_decision w perf_counter (consecutive_elevations w) true, Spawned ev)
  end.

(** ** One ADDED / MODIFIED event of [watch_leases] *)

Record WatchEnv : Type := {
  wall_now : Q;         (* datetime.now in compute_sliding_window_quorum *)
  perf_decide : Q;      (* perf_counter in should_elevate *)
  perf_elevated : Q;    (* perf_counter after the decision *)
  decision_now : Q      (* datetime.now for decision_ts *)
}.

(** The arguments of the thread that writes the artifact. *)
Record bg_args : Type := {
  bg_metrics : QuorumMetrics;
  bg_run_id : option string;
  bg_decision_ts_server : string;
  bg_reason : string
}.

(** [self.signals.append(signal)] and the cut to the last 500 entries once
    the list has more than 1000. *)
Definition append_signal (w : DualPathWatcher) (signal : LeaseSignal)
  : DualPathWatcher :=
  let sigs := signals w ++ [signal] in
  with_signals w (if (1000 <? length sigs)%nat
                  then drop (length sigs - 500) sigs else sigs).

Definition on_lease_signal (w : DualPathWatcher) (env : WatchEnv)
  (run : option string) (signal : LeaseSignal)
  : DualPathWatcher * option bg_args :=
  let w := append_signal w signal in
  match compute_sliding_window_quorum w (wall_now env) run with
  | None => (w, None)
  | Some metrics =>
      let '(go, r, w) := should_elevate w (perf_decide env) (Some metrics) in
      if go then
        (with_decision w (perf_elevated env) (consecutive_elevations w)
           (elevated w),
         Some {| bg_metrics := metrics; bg_run_id := run;
                 bg_decision_ts_server := isoformat L (decision_now env);
                 bg_reason := reason_str r |})
      else (w, None)
  end.

End WithLib.

End Gossip.

(* ===================================================================== *)
(** * The micro-act catalog ([microact_catalog_v2.py])                     *)
(* ===================================================================== *)

Module MicroAct.

Inductive Ring : Type := RING_1 | RING_2 | RING_3 | RING_4 | RING_5.

Definition ring_value (r : Ring) : Z :=
  match r with
  | RING_1 => 1 | RING_2 => 2 | RING_3 => 3 | RING_4 => 4 | RING_5 => 5
  end.

Record MicroAct : Type := {
  id : string;
  ring : Ring;
  name : string;
  description : string;
  ttl_seconds : Z;
  supports_probe : bool;
  requires_params : option (list string);
  optional_params : option (list string)
}.

Record ActuationResult : Type := {
  success : bool;
  message : string;
  revert_handle : option string;
  probe_endpoint : option string;
  applied_at : option string;
  expires_at : option string;
  proof : option (list (string * json))
}.

(** [ActuationResult(success=False, message=msg)]. *)
Definition failure (msg : string) : ActuationResult :=
  {| success := false; message := msg; revert_handle := None;
     probe_endpoint := None; applied_at := None; expires_at := None;
     proof := None |}.

(** The two process-wide settings. *)
Record Config : Type := {
  DRY_RUN : bool;
  MAX_RING : Z
}.

Definition default_config : Config := {| DRY_RUN := true; MAX_RING := 3 |}.

Record TtlEntry : Type := {
  action_id : string;
  expire_mono : Q;
  applied_mono : Q;
  ttl_applied_at : string
}.

Record MicroActCatalog : Type := {
  actions : gmap string MicroAct;
  active_ttls : list (string * TtlEntry)
}.

(** What a call reads from its surroundings: the clocks, the outcome of a
    subprocess, and the temporary file for a policy document. *)
Record World : Type := {
  time_now : Q;                               (* time.time() *)
  mono_now : Q;                               (* time.monotonic() *)
  utc_now : Q;                                (* datetime.now(timezone.utc) *)
  subprocess_run : list string -> bool * string;
  policy_file : result string
}.

(** ** The registered actions *)

Definition builtin_actions : list MicroAct :=
  [ {| id := "log_anomaly"; ring := RING_1; name := "Log Anomaly";
       description := "Write structured anomaly event to SIEM";
       ttl_seconds := 0; supports_probe := false;
       requires_params := Some ["asset_id"; "anomaly_type"; "score"];
       optional_params := None |};
    {| id := "networkpolicy_isolate"; ring := RING_2;
       name := "Pod Network Isolation";
       description := "Apply NetworkPolicy to isolate pod traffic";
       ttl_seconds := 300; supports_probe := true;
       requires_params := Some ["namespace"; "selector"];
       optional_params := Some ["ttl_seconds"] |};
    {| id := "egress_rate_limit"; ring := RING_2; name := "Egress Rate Limit";
       description := "Apply per-host egress bandwidth limit via tc/eBPF";
       ttl_seconds := 300; supports_probe := true;
       requires_params := Some ["host"; "rate_mbps"];
       optional_params := Some ["interface"; "ttl_seconds"] |};
    {| id := "dns_sinkhole"; ring := RING_2; name := "DNS Sinkhole";
       description := "Redirect DNS queries to sinkhole for analysis";
       ttl_seconds := 600; supports_probe := true;
       requires_params := Some ["namespace"; "selector"];
       optional_params := Some ["sinkhole_ip"; "ttl_seconds"] |};
    {| id := "process_freeze"; ring := RING_3; name := "Process Freeze";
       description := "Freeze process execution via cgroups freezer";
       ttl_seconds := 120; supports_probe := true;
       requires_params := Some ["host"; "pid"];
       optional_params := Some ["ttl_seconds"] |};
    {| id := "token_revoke"; ring := RING_3; name := "IdP Token Revoke";
       description := "Revoke OAuth/SAML tokens for compromised identity";
       ttl_seconds := 3600; supports_probe := true;
       requires_params := Some ["provider"; "user_id"];
       optional_params := Some ["scope"; "ttl_seconds"] |};
    {| id := "container_pause"; ring := RING_3; name := "Container Pause";
       description := "Pause container execution preserving state";
       ttl_seconds := 180; supports_probe := true;
       requires_params := Some ["namespace"; "pod"; "container"];
       optional_params := Some ["ttl_seconds"] |} ]%string.

Definition register (c : MicroActCatalog) (a : MicroAct) : MicroActCatalog :=
  {| actions := <[id a := a]> (actions c); active_ttls := active_ttls c |}.

(** [MicroActCatalog.__init__]. *)
Definition new_catalog : MicroActCatalog :=
  fold_left register builtin_actions {| actions := ∅; active_ttls := [] |}.

(** ** Python operations on parameter values *)

Definition json_num (v : json) : result Q :=
  match v with
  | JInt n => Ret (inject_Z n)
  | JFloat q => Ret q
  | JBool b => Ret (if b then 1 else 0)%Q
  | _ => Raise TypeError
  end.

(** [v <= q] and [v > q]. *)
Definition py_le (v : json) (q : Q) : result bool :=
  bind (json_num v) (fun x => Ret (Qle_bool x q)).
Definition py_gt (v : json) (q : Q) : result bool :=
  bind (json_num v) (fun x => Ret (Qlt_bool q x)).

(** [x + v] for a float [x].  An [int] is converted to a float first,
    which raises [OverflowError] from [2^1024 - 2^970] on, although the
    comparisons above accept any [int]. *)
Definition float_add (x : Q) (v : json) : result Q :=
  match v with
  | JInt n =>
      if float_overflows n then Raise OverflowError
      else Ret (x + inject_Z n)%Q
  | _ => bind (json_num v) (fun t => Ret (x + t)%Q)
  end.

(** The first and the last instant of a [datetime], 0001-01-01T00:00:00
    and 9999-12-31T23:59:59.999999 UTC, in microseconds since the epoch. *)
Definition DATETIME_MIN_US : Z := -62135596800000000.
Definition DATETIME_MAX_US : Z := 253402300799999999.

Definition in_datetime_range (t : Q) : bool :=
  let us := round_half_even (t * 1000000) in
  (DATETIME_MIN_US <=? us) && (us <=? DATETIME_MAX_US).

(** [datetime.fromtimestamp(t, timezone.utc)]: the instant, rounded to a
    microsecond.  Outside the years 1 to 9999 the call raises:
    [ValueError] next to the range, [OSError] or [OverflowError] further
    out, which the one [except Exception] of [execute] catches alike. *)
Definition fromtimestamp (t : Q) : result Q :=
  if in_datetime_range t then Ret t else Raise ValueError.

(** The white space of [str.strip()] and [str.isspace()], by the places
    it takes in UTF-8.  One place: U+0009 to U+000D and U+001C to U+0020. *)
Definition is_space (c : ascii) : bool :=
  let n := nat_of_ascii c in
  ((9 <=? n) && (n <=? 13) || (28 <=? n) && (n <=? 32))%nat.

Definition code (c : ascii) : Z := Z.of_nat (nat_of_ascii c).

(** Two places: U+0085 ([C2 85]) and U+00A0 ([C2 A0]). *)
Definition is_space2 (c d : ascii) : bool :=
  (code c =? 194) && ((code d =? 133) || (code d =? 160)).

(** Three places: U+1680 ([E1 9A 80]); U+2000 to U+200A ([E2 80 80] to
    [E2 80 8A]); U+2028, U+2029 and U+202F ([E2 80 A8], [E2 80 A9],
    [E2 80 AF]); U+205F ([E2 81 9F]); U+3000 ([E3 80 80]). *)
Definition is_space3 (c d e : ascii) : bool :=
  (code c =? 225) && (code d =? 154) && (code e =? 128)
  || (code c =? 226) && (code d =? 128)
     && ((128 <=? code e) && (code e <=? 138)
         || (code e =? 168) || (code e =? 169) || (code e =? 175))
  || (code c =? 226) && (code d =? 129) && (code e =? 159)
  || (code c =? 227) && (code d =? 128) && (code e =? 128).

(** [not s.strip()]: [s] is white space from end to end. *)
Fixpoint is_blank (s : string) : bool :=
  match s with
  | EmptyString => true
  | String c s1 =>
      if is_space c then is_blank s1
      else
        match s1 with
        | EmptyString => false
        | String d s2 =>
            if is_space2 c d then is_blank s2
            else
              match s2 with
              | EmptyString => false
              | String e s3 => is_space3 c d e && is_blank s3
              end
        end
  end.

(** [s.split(sep)] for a one-character separator. *)
Fixpoint split_on (sep : ascii) (s : string) : list string :=
  match s with
  | EmptyString => [EmptyString]
  | String c s' =>
      if Ascii.eqb c sep then EmptyString :: split_on sep s'
      else match split_on sep s' with
           | p :: ps => String c p :: ps
           | [] => [String c EmptyString]
           end
  end.

Definition exn_text (e : exn) : string :=
  match e with
  | TypeError => "TypeError" | ValueError => "ValueError"
  | AttributeError => "AttributeError" | KeyError => "KeyError"
  | OverflowError => "OverflowError" | RecursionError => "RecursionError"
  | StructError => "struct.error"
  end.

Definition repr_list (l : list string) : string :=
  ("[" ++ String.concat ", " (map (fun s => "'" ++ s ++ "'") l) ++ "]")%string.

Definition byte_hex (b : byte) : string :=
  String (Listener.hex_digit (Wire.byte_val b / 16))
    (String (Listener.hex_digit (Wire.byte_val b mod 16)) EmptyString).

(** [hashlib.sha256(...).hexdigest()[:16]]. *)
Definition hexdigest16 (digest : list byte) : string :=
  String.concat EmptyString (map byte_hex (take 8 digest)).

Section WithLib.
Context (L : Lib) (cfg : Config).

Definition fmt (v : json) : string :=
  match v with
  | JStr s => s
  | JInt n => Gossip.decimal n
  | _ => py_format L v
  end.

(** [int(v)]. *)
Definition py_int (v : json) : result Z :=
  match v with
  | JInt n => Ret n
  | JBool b => Ret (if b then 1 else 0)
  | JFloat q => Ret (int_of_Q q)
  | JStr s => match int_of_str L s with Some n => Ret n | None => Raise ValueError end
  | _ => Raise TypeError
  end.

(** [params[k]]. *)
Definition item (params : list (string * json)) (k : string) : result json :=
  match dict_get k params with Some v => Ret v | None => Raise KeyError end.

(** [_run(cmd)]: nothing is executed in dry-run mode; a failing or
    crashing command is answered with [False] and its error text. *)
Definition _run (w : World) (cmd : list string) : bool * string :=
  if DRY_RUN cfg then (true, "[dry-run]"%string) else subprocess_run w cmd.

Definition _compute_proof (w : World) (act : string)
  (params : list (string * json)) : list (string * json) :=
  let proof_data :=
    (list_byte_of_string (act ++ ":") ++ json_dumps L SortKeys (JDict params))%list in
  [("action_id", JStr act);
   ("params_hash", JStr (hexdigest16 (sha256 L proof_data)));
   ("controller", JStr "microact-v2");
   ("dry_run", JBool (DRY_RUN cfg));
   ("timestamp", JStr (isoformat L (utc_now w)))].

(** [_schedule_ttl_revert(action_id, handle, ttl_seconds)].  The sum
    [time.monotonic() + ttl_seconds] is taken before the table is written,
    so a TTL too large for a float leaves the table as it was. *)
Definition _schedule_ttl_revert (c : MicroActCatalog) (w : World)
  (act handle : string) (ttl : json) : result MicroActCatalog :=
  bind (py_le ttl 0) (fun nonpositive =>
  if nonpositive then Ret c else
  bind (float_add (mono_now w) ttl) (fun expire =>
  Ret {| actions := actions c;
         active_ttls :=
           dict_set handle
             {| action_id := act; expire_mono := expire;
                applied_mono := mono_now w;
                ttl_applied_at := isoformat L (utc_now w) |}
             (active_ttls c) |})).

(** The common tail of the [_execute_*] methods that apply a primitive:
    schedule the revert, complete the proof, build the result.  The
    result is built after the table was written: when
    [datetime.fromtimestamp(time.time() + ttl, ...)] raises, the entry
    stays behind. *)
Definition applied (c : MicroActCatalog) (w : World) (act handle : string)
  (ttl : json) (proof : list (string * json)) (resource msg probe : string)
  : result ActuationResult * MicroActCatalog :=
  match _schedule_ttl_revert c w act handle ttl with
  | Raise e => (Raise e, c)
  | Ret c' =>
      match bind (float_add (time_now w) ttl) fromtimestamp with
      | Raise e => (Raise e, c')
      | Ret expires =>
          (Ret {| success := true; message := msg;
                  revert_handle := Some handle;
                  probe_endpoint := Some probe;
                  applied_at := Some (isoformat L (utc_now w));
                  expires_at := Some (isoformat L expires);
                  proof := Some (dict_set "resource" (JStr resource) proof) |},
           c')
      end
  end.

Definition raising {A} (c : MicroActCatalog) (r : result A)
  (k : A -> result ActuationResult * MicroActCatalog)
  : result ActuationResult * MicroActCatalog :=
  match r with
  | Ret a => k a
  | Raise e => (Raise e, c)
  end.

Definition _execute_pod_isolate (c : MicroActCatalog) (w : World)
  (params : list (string * json)) (ttl : json) (proof : list (string * json))
  : result ActuationResult * MicroActCatalog :=
  raising c (item params "namespace") (fun namespace =>
  raising c (item params "selector") (fun selector =>
  let policy_name :=
    ("aswarm-isolate-" ++ Gossip.decimal (int_of_Q (time_now w)))%string in
  raising c (policy_file w) (fun file =>
  let '(ok, output) := _run w ["kubectl"; "apply"; "-f"; file]%string in
  if ok then
    applied c w "networkpolicy_isolate"
      (fmt namespace ++ "/" ++ policy_name) ttl proof
      ("NetworkPolicy/" ++ fmt namespace ++ "/" ++ policy_name)
      ("Applied network isolation to " ++ fmt selector ++ " in " ++ fmt namespace)
      ("http://probe." ++ fmt namespace ++ ".svc:8080/network")
  else
    (Ret (failure ("Failed to apply NetworkPolicy: " ++ output)), c))))%string.

Definition _execute_egress_limit (c : MicroActCatalog) (w : World)
  (params : list (string * json)) (ttl : json) (proof : list (string * json))
  : result ActuationResult * MicroActCatalog :=
  raising c (item params "host") (fun host =>
  raising c (item params "rate_mbps") (fun rate_mbps =>
  let interface := dict_get_default "interface" (JStr "eth0") params in
  if DRY_RUN cfg then
    applied c w "egress_rate_limit"
      (fmt host ++ "/" ++ fmt interface ++ "/" ++ fmt rate_mbps) ttl proof
      ("tc/" ++ fmt host ++ "/" ++ fmt interface)
      ("[DRY_RUN] Would apply " ++ fmt rate_mbps ++ "Mbps egress limit")
      ("http://" ++ fmt host ++ ":9100/metrics")
  else
    (Ret (failure "Egress rate limiting requires node agent (not implemented)"),
     c)))%string.

Definition _execute_token_revoke (c : MicroActCatalog) (w : World)
  (params : list (string * json)) (ttl : json) (proof : list (string * json))
  : result ActuationResult * MicroActCatalog :=
  raising c (item params "provider") (fun provider =>
  raising c (item params "user_id") (fun user_id =>
  let scope := dict_get_default "scope" (JStr "all") params in
  if DRY_RUN cfg then
    applied c w "token_revoke"
      (fmt provider ++ "/" ++ fmt user_id ++ "/" ++ fmt scope) ttl proof
      ("idp/" ++ fmt provider ++ "/user/" ++ fmt user_id)
      ("[DRY_RUN] Would revoke tokens for " ++ fmt user_id)
      ("https://" ++ fmt provider ++ "/api/v1/users/" ++ fmt user_id ++ "/status")
  else
    (Ret (failure "Token revocation requires IdP integration (not implemented)"),
     c)))%string.

Definition _execute_log_anomaly (c : MicroActCatalog) (w : World)
  (params : list (string * json)) (proof : list (string * json))
  : result ActuationResult * MicroActCatalog :=
  raising c (item params "asset_id") (fun asset_id =>
  raising c (item params "anomaly_type") (fun anomaly_type =>
  raising c (item params "score") (fun score =>
  raising c (py_gt score (8 # 10)) (fun high =>
  (Ret {| success := true;
          message := ("Logged anomaly for " ++ fmt asset_id)%string;
          revert_handle := None; probe_endpoint := None;
          applied_at := Some (isoformat L (utc_now w));
          expires_at := None; proof := Some proof |}, c))))).

Definition _execute_dns_sinkhole (c : MicroActCatalog) (w : World)
  (params : list (string * json)) (ttl : json) (proof : list (string * json))
  : result ActuationResult * MicroActCatalog :=
  raising c (item params "namespace") (fun namespace =>
  raising c (item params "selector") (fun selector =>
  let sinkhole_ip := dict_get_default "sinkhole_ip" (JStr "10.0.0.254") params in
  if DRY_RUN cfg then
    applied c w "dns_sinkhole"
      (fmt namespace ++ "/" ++ fmt selector ++ "/" ++ fmt sinkhole_ip) ttl proof
      ("coredns/" ++ fmt namespace)
      "[DRY_RUN] Would apply DNS sinkhole"
      ("http://dns-probe." ++ fmt namespace ++ ".svc:8053/metrics")
  else
    (Ret (failure "DNS sinkhole requires CoreDNS integration (not implemented)"),
     c)))%string.

Definition _execute_process_freeze (c : MicroActCatalog) (w : World)
  (params : list (string * json)) (ttl : json) (proof : list (string * json))
  : result ActuationResult * MicroActCatalog :=
  raising c (item params "host") (fun host =>
  raising c (item params "pid") (fun pid =>
  if DRY_RUN cfg then
    applied c w "process_freeze"
      (fmt host ++ "/" ++ fmt pid) ttl proof
      ("cgroup/" ++ fmt host ++ "/pid/" ++ fmt pid)
      ("[DRY_RUN] Would freeze process " ++ fmt pid)
      ("http://" ++ fmt host ++ ":9100/metrics")
  else
    (Ret (failure "Process freeze requires node agent (not implemented)"),
     c)))%string.

Definition _execute_container_pause (c : MicroActCatalog) (w : World)
  (params : list (string * json)) (ttl : json) (proof : list (string * json))
  : result ActuationResult * MicroActCatalog :=
  raising c (item params "namespace") (fun namespace =>
  raising c (item params "pod") (fun pod =>
  raising c (item params "container") (fun container =>
  if DRY_RUN cfg then
    applied c w "container_pause"
      (fmt namespace ++ "/" ++ fmt pod ++ "/" ++ fmt container) ttl proof
      ("container/" ++ fmt namespace ++ "/" ++ fmt pod ++ "/" ++ fmt container)
      ("[DRY_RUN] Would pause container " ++ fmt container)
      ("http://probe." ++ fmt namespace ++ ".svc:8080/container/" ++ fmt container)
  else
    (Ret (failure "Container pause requires node agent (not implemented)"),
     c))))%string.

(** The checks on parameter values, which [execute] makes before its
    [try] block: [Ret (Some msg)] is a rejection with message [msg]. *)
Definition validate_values (params : list (string * json))
  : result (option string) :=
  bind (match dict_get "rate_mbps" params with
        | Some v => py_le v 0
        | None => Ret false
        end) (fun bad_rate =>
  if bad_rate then Ret (Some "Invalid rate_mbps: must be positive"%string) else
  bind (match dict_get "selector" params with
        | Some (JStr s) => Ret (is_blank s)
        | Some _ => Raise AttributeError        (* no [.strip] *)
        | None => Ret false
        end) (fun bad_selector =>
  if bad_selector then Ret (Some "Invalid selector: cannot be empty"%string) else
  match dict_get "pid" params with
  | Some v =>
      match py_int v with
      | Ret _ => Ret None
      | Raise ValueError | Raise TypeError =>
          Ret (Some "Invalid pid: must be integer"%string)
      | Raise e => Raise e
      end
  | None => Ret None
  end)).

(** [execute(action_id, params)]. *)
Definition execute (c : MicroActCatalog) (w : World) (act : string)
  (params : list (string * json)) : result ActuationResult * MicroActCatalog :=
  match actions c !! act with
  | None => (Ret (failure ("Unknown action: " ++ act)%string), c)
  | Some action =>
  if MAX_RING cfg <? ring_value (ring action) then
    (Ret (failure ("Action " ++ act ++ " (Ring "
                   ++ Gossip.decimal (ring_value (ring action))
                   ++ ") exceeds MAX_RING=" ++ Gossip.decimal (MAX_RING cfg))%string),
     c)
  else
  let missing :=
    List.filter (fun req => negb (dict_mem req params))
      (default [] (requires_params action)) in
  match missing with
  | _ :: _ =>
      (Ret (failure ("Missing required parameters: " ++ repr_list missing)%string),
       c)
  | [] =>
  match validate_values params with
  | Raise e => (Raise e, c)
  | Ret (Some msg) => (Ret (failure msg), c)
  | Ret None =>
  let ttl := dict_get_default "ttl_seconds" (JInt (ttl_seconds action)) params in
  let proof := _compute_proof w act params in
  let '(r, c') :=
    if String.eqb act "networkpolicy_isolate" then
      _execute_pod_isolate c w params ttl proof
    else if String.eqb act "egress_rate_limit" then
      _execute_egress_limit c w params ttl proof
    else if String.eqb act "token_revoke" then
      _execute_token_revoke c w params ttl proof
    else if String.eqb act "log_anomaly" then
      _execute_log_anomaly c w params proof
    else if String.eqb act "dns_sinkhole" then
      _execute_dns_sinkhole c w params ttl proof
    else if String.eqb act "process_freeze" then
      _execute_process_freeze c w params ttl proof
    else if String.eqb act "container_pause" then
      _execute_container_pause c w params ttl proof
    else (Ret (failure ("Action " ++ act ++ " not implemented")%string), c) in
  match r with
  | Ret res => (Ret res, c')
  | Raise e => (Ret (failure ("Execution failed: " ++ exn_text e)%string), c')
  end
  end end end.

(** ** TTL monitor *)

Inductive revert_outcome : Type :=
| Reverted                      (* the revert ran, or would run in dry-run *)
| RevertWarned (msg : string)   (* the revert failed or is unavailable: logged *)
| RevertRaised (e : exn).       (* the handle could not be taken apart *)

(** [handle.split("/", 1)] into exactly two names. *)
Fixpoint split_once (sep : ascii) (s : string) : option (string * string) :=
  match s with
  | EmptyString => None
  | String c s' =>
      if Ascii.eqb c sep then Some (EmptyString, s')
      else match split_once sep s' with
           | Some (a, b) => Some (String c a, b)
           | None => None
           end
  end.

(** A revert that only exists behind the node agent or another service. *)
Definition revert_stub (handle : string) (parts : nat) (warning : string)
  : revert_outcome :=
  if (length (split_on "/" handle) =? parts)%nat then
    if DRY_RUN cfg then Reverted else RevertWarned warning
  else RevertRaised ValueError.

(** [_revert_action(action_id, handle)]. *)
Definition _revert_action (w : World) (act handle : string) : revert_outcome :=
  if String.eqb act "networkpolicy_isolate" then
    match split_once "/" handle with
    | Some (namespace, policy_name) =>
        let '(ok, err) :=
          _run w ["kubectl"; "delete"; "networkpolicy"; policy_name;
                  "-n"; namespace; "--ignore-not-found=true"]%string in
        if ok then Reverted
        else RevertWarned ("Revert NetworkPolicy failed: " ++ err)%string
    | None => RevertRaised ValueError
    end
  else if String.eqb act "egress_rate_limit" then
    revert_stub handle 3 "Egress rate limit revert requires node agent"
  else if String.eqb act "token_revoke" then
    revert_stub handle 3 "Token re-enable requires IdP integration"
  else if String.eqb act "dns_sinkhole" then
    revert_stub handle 3 "DNS restore requires CoreDNS integration"
  else if String.eqb act "process_freeze" then
    revert_stub handle 2 "Process unfreeze requires node agent"
  else if String.eqb act "container_pause" then
    revert_stub handle 3 "Container unpause requires node agent"
  else Reverted.

(** The entries whose deadline has passed at [now]. *)
Definition expired_at (now : Q) (ttls : list (string * TtlEntry))
  : list (string * TtlEntry) :=
  List.filter (fun '(_, info) => Qle_bool (expire_mono info) now) ttls.

(** The reverts run one after the other; an exception ends the thread. *)
Fixpoint run_reverts (w : World) (expired : list (string * TtlEntry))
  : list (string * revert_outcome) * bool :=
  match expired with
  | [] => ([], true)
  | (handle, info) :: rest =>
      match _revert_action w (action_id info) handle with
      | RevertRaised e => ([(handle, RevertRaised e)], false)
      | o => let '(os, alive) := run_reverts w rest in ((handle, o) :: os, alive)
      end
  end.

(** One round of [monitor_loop], up to its [time.sleep(1)]: the table
    afterwards, the outcome of each revert, and whether the thread lives. *)
Definition monitor_tick (c : MicroActCatalog) (w : World)
  : MicroActCatalog * list (string * revert_outcome) * bool :=
  let now := mono_now w in
  let expired := expired_at now (active_ttls c) in
  let ttls := fold_left (fun t '(handle, _) => dict_pop handle t) expired
                (active_ttls c) in
  let '(outcomes, alive) := run_reverts w expired in
  ({| actions := actions c; active_ttls := ttls |}, outcomes, alive).

End WithLib.

End MicroAct.

(* ===================================================================== *)
(** * Sentinel scoring ([telemetry_v2.py])                                 *)
(* ===================================================================== *)

Module Telemetry.

(** The random source of one tick: the [i]-th call of [random.randint] and
    of [random.uniform]. *)
Record Rand : Type := {
  randint : nat -> Z -> Z -> Z;
  uniform : nat -> Q -> Q -> Q
}.

Record DualPathTelemetry : Type := {
  sequence : Z;
  anomaly_signals : Z;
  _ewma : option Q;           (* unset until the first score *)
  _prev_high : option bool    (* unset until the first tick *)
}.

Definition init : DualPathTelemetry :=
  {| sequence := 0; anomaly_signals := 0; _ewma := None; _prev_high := None |}.

Definition trigger_anomaly_simulation (t : DualPathTelemetry)
  (duration_signals : Z) : DualPathTelemetry :=
  {| sequence := sequence t; anomaly_signals := duration_signals;
     _ewma := _ewma t; _prev_high := _prev_high t |}.

(** [d.update(pairs)]. *)
Definition dict_update (d pairs : list (string * json)) : list (string * json) :=
  fold_left (fun d '(k, v) => dict_set k v d) pairs d.

Definition generate_packet_sketch (t : DualPathTelemetry) (r : Rand)
  : list (string * json) * DualPathTelemetry :=
  let normal_sketch :=
    [("tcp_22", JInt (randint r 0 0 5));
     ("tcp_80", JInt (randint r 1 5 20));
     ("tcp_443", JInt (randint r 2 10 30));
     ("tcp_6443", JInt (randint r 3 0 8));
     ("udp_53", JInt (randint r 4 2 10));
     ("tcp_other", JInt (randint r 5 0 5))] in
  if 0 <? anomaly_signals t then
    (dict_update normal_sketch
       [("tcp_3306", JInt (randint r 6 5 15));
        ("tcp_5432", JInt (randint r 7 3 12));
        ("tcp_6379", JInt (randint r 8 2 8));
        ("tcp_8080", JInt (randint r 9 4 16));
        ("tcp_9200", JInt (randint r 10 1 6));
        ("scan_ports", JInt (randint r 11 8 25))],
     {| sequence := sequence t; anomaly_signals := anomaly_signals t - 1;
        _ewma := _ewma t; _prev_high := _prev_high t |})
  else (normal_sketch, t).

Definition generate_process_graph (t : DualPathTelemetry) (r : Rand)
  : list (string * json) :=
  let base_graph :=
    [("nodes", JInt (randint r 12 15 25));
     ("edges", JInt (randint r 13 12 22));
     ("new_procs", JInt (randint r 14 0 3));
     ("term_procs", JInt (randint r 15 0 2))] in
  if 0 <? anomaly_signals t then
    dict_update base_graph
      [("new_procs", JInt (randint r 16 3 8));
       ("network_procs", JInt (randint r 17 2 5));
       ("anomaly_score", JFloat (uniform r 0 (7 # 10) (9 # 10)))]
  else base_graph.

Definition Qmin (a b : Q) : Q := if Qle_bool a b then a else b.

(** The raw score of a tick, for [ports] scanned ports and a process churn
    of [churn]. *)
Definition raw_score (ports churn : Q) : Q :=
  ((7 # 10) * Qmin (ports / 10) 1 + (3 # 10) * Qmin (churn / 8) 1)%Q.

(** [score_signal(sketch, graph)]. *)
Definition score_signal (t : DualPathTelemetry)
  (sketch graph : list (string * json)) : result (Q * DualPathTelemetry) :=
  bind (MicroAct.json_num (dict_get_default "scan_ports" (JInt 0) sketch))
    (fun ports =>
  bind (MicroAct.json_num (dict_get_default "new_procs" (JInt 0) graph))
    (fun new_procs =>
  bind (MicroAct.json_num (dict_get_default "network_procs" (JInt 0) graph))
    (fun network_procs =>
  let churn := (new_procs + network_procs)%Q in
  let raw := raw_score ports churn in
  let alpha := (4 # 10)%Q in
  let prev := default 0%Q (_ewma t) in
  let ewma := (alpha * raw + (1 - alpha) * prev)%Q in
  Ret (ewma,
       {| sequence := sequence t; anomaly_signals := anomaly_signals t;
          _ewma := Some ewma; _prev_high := _prev_high t |})))).

(** What one pass of [run_telemetry_loop] publishes. *)
Record published : Type := {
  pub_seq : Z;
  pub_score : Q;
  pub_elevate : bool;
  pub_fastpath : bool         (* the score reaches the fast-path threshold *)
}.

Definition tick (t : DualPathTelemetry) (r : Rand)
  : result (published * DualPathTelemetry) :=
  let '(sketch, t) := generate_packet_sketch t r in
  let graph := generate_process_graph t r in
  bind (score_signal t sketch graph) (fun '(score, t) =>
  let high := Qlt_bool (7 # 10) score in
  let prev_high := default false (_prev_high t) in
  let elevate := high && prev_high in
  let t := {| sequence := sequence t + 1;              (* update_lease *)
              anomaly_signals := anomaly_signals t;
              _ewma := _ewma t; _prev_high := Some high |} in
  Ret ({| pub_seq := sequence t; pub_score := score; pub_elevate := elevate;
          pub_fastpath := Qle_bool (90 # 100) score |}, t)).

(** A run of the loop: the scores published tick after tick.  [trigger i]
    is the argument of a [trigger_anomaly_simulation] that arrives before
    tick [i], if any. *)
Fixpoint run (t : DualPathTelemetry) (rs : list (Rand * option Z))
  : result (list published) :=
  match rs with
  | [] => Ret []
  | (r, trig) :: rs' =>
      let t := match trig with
               | Some n => trigger_anomaly_simulation t n
               | None => t
               end in
      bind (tick t r) (fun '(p, t') =>
      bind (run t' rs') (fun ps => Ret (p :: ps)))
  end.

(** [random.randint(a, b)] lies in [[a, b]] and [random.uniform(a, b)]
    between [a] and [b]. *)
Definition Rand_ok (r : Rand) : Prop :=
  (forall i a b, a <= b -> a <= randint r i a b <= b) /\
  (forall i a b, (a <= b)%Q -> (a <= uniform r i a b <= b)%Q).

End Telemetry.

(* ===================================================================== *)
(** * The sender's socket and key ([fast_path_v4.py], continued)           *)
(* ===================================================================== *)

Module Dispatch.

Record SendStats : Type := {
  bytes : Z;
  send_ms_first : Q;
  dupes : Z;
  dropped_exceptions : Z
}.

(** [l[:n]] for any integer [n]: a negative bound counts from the end. *)
Definition py_prefix {A} (n : Z) (l : list A) : list A :=
  if n <? 0 then take (Z.to_nat (Z.of_nat (length l) + n)) l
  else take (Z.to_nat n) l.

(** What the transmission of one packet meets: the value of
    [secrets.randbelow(2)] before the [i]-th copy, whether the socket
    raises on the [i]-th copy, and the two readings of [time.monotonic()]. *)
Record Link : Type := {
  randbelow2 : nat -> Z;
  send_raises : nat -> bool;
  mono_start : Q;
  mono_end : Q
}.

(** What the loop has done so far: the copies the socket took, the naps
    in seconds, and the count of copies the socket refused. *)
Record Burst : Type := {
  sent : list (list byte);
  slept : list Q;
  dropped : Z
}.

(** The loop over [enumerate(gaps[:self.dupes])], from copy [i] on.  A
    nap of negative length makes [time.sleep] raise [ValueError], which
    nothing catches. *)
Fixpoint send_copies (k : Link) (packet : list byte) (i : nat)
  (gaps : list Z) (b : Burst) : Burst * option exn :=
  match gaps with
  | [] => (b, None)
  | delay :: rest =>
      let nap := (inject_Z (delay + randbelow2 k i) / 1000)%Q in
      if negb (delay =? 0) && Qlt_bool nap 0 then (b, Some ValueError)
      else
        let b1 := if delay =? 0 then b
                  else {| sent := sent b; slept := slept b ++ [nap];
                          dropped := dropped b |} in
        let b2 := if send_raises k i
                  then {| sent := sent b1; slept := slept b1;
                          dropped := dropped b1 + 1 |}
                  else {| sent := sent b1 ++ [packet]; slept := slept b1;
                          dropped := dropped b1 |} in
        send_copies k packet (S i) rest b2
  end.

(** The burst pattern [[0, max(1, gap_ms // 3), gap_ms]]. *)
Definition gaps (s : Sender.FastPathSender) : list Z :=
  [0; Z.max 1 (Sender.gap_ms s / 3); Sender.gap_ms s].

(** [_send_with_dupes(packet, seq16)]: what went over the socket, and the
    statistics or the exception. *)
Definition _send_with_dupes (s : Sender.FastPathSender) (k : Link)
  (packet : list byte) : Burst * result SendStats :=
  let '(b, raised) :=
    send_copies k packet 0 (py_prefix (Sender.dupes s) (gaps s))
      {| sent := []; slept := []; dropped := 0 |} in
  match raised with
  | Some e => (b, Raise e)
  | None =>
      (b, Ret {| bytes := Z.of_nat (length packet);
                 send_ms_first := ((mono_end k - mono_start k) * 1000)%Q;
                 dupes := Sender.dupes s;
                 dropped_exceptions := dropped b |})
  end.

End Dispatch.

(* ===================================================================== *)
(** * HMAC keys of sender and listener                                     *)
(* ===================================================================== *)

Module Keys.

(** Library code that decodes a key: [base64.b64decode] and
    [bytes.fromhex]; [None] stands for the [ValueError] both raise on
    malformed input ([binascii.Error] is a [ValueError]). *)
Record Codec : Type := {
  b64decode : string -> option (list byte);
  fromhex : string -> option (list byte)
}.

(** The three variables of [os.environ] the components read. *)
Record Environ : Type := {
  ASWARM_FASTPATH_KEY : option string;
  ASWARM_FASTPATH_KEYS : option string;
  ASWARM_FASTPATH_KEY_ID : option string
}.

(** [s[n:]]. *)
Fixpoint skip (n : nat) (s : string) : string :=
  match n, s with
  | S n', String _ s' => skip n' s'
  | _, _ => s
  end.

(** [if s:] for an optional string. *)
Definition given (o : option string) : option string :=
  match o with
  | Some s => if String.eqb s EmptyString then None else Some s
  | None => None
  end.

Section WithLib.
Context (L : Lib) (C : Codec).

(** [_parse_keyval(val)], the same function in both files. *)
Definition _parse_keyval (val : string) : result (list byte) :=
  if String.prefix "base64:" val then
    match b64decode C (skip 7 val) with
    | Some k => Ret k
    | None => Raise ValueError
    end
  else if String.prefix "hex:" val then
    match fromhex C (skip 4 val) with
    | Some k => Ret k
    | None => Raise ValueError
    end
  else Ret (list_byte_of_string val).

(** ** Sender *)

(** The [try] block of [_load_key]: the key found under [str(key_id)] in
    the JSON map, if that entry is usable.  Every exception in the block
    (a document that does not parse, a document that is not an object, an
    entry that is not a string, a key that does not decode) is caught and
    logged. *)
Definition key_of_map (keys_json : string) (key_id : Z)
  : option (list byte) :=
  match json_loads L (list_byte_of_string keys_json) with
  | None => None                                   (* JSONDecodeError *)
  | Some (JDict key_map) =>
      (* [key_map.get(str(key_id)) or key_map.get(key_id)]: the keys of a
         JSON object are strings, so the second lookup finds nothing *)
      let key_val :=
        match dict_get (Gossip.decimal key_id) key_map with
        | Some v => if truthy v then Some v else None
        | None => None
        end in
      match key_val with
      | Some (JStr v) =>
          match _parse_keyval v with
          | Ret k => Some k
          | Raise _ => None                        (* caught *)
          end
      | Some _ => None                             (* AttributeError, caught *)
      | None => None
      end
  | Some _ => None                                 (* AttributeError, caught *)
  end.

(** [FastPathSender._load_key(shared_key, key_id)]. *)
Definition _load_key (env : Environ) (shared_key : option string)
  (key_id : Z) : result (list byte) :=
  match given shared_key with
  | Some k => _parse_keyval k
  | None =>
      let from_map :=
        match given (ASWARM_FASTPATH_KEYS env) with
        | Some keys_json => key_of_map keys_json key_id
        | None => None
        end in
      match from_map with
      | Some k => Ret k
      | None =>
          match given (ASWARM_FASTPATH_KEY env) with
          | Some key_source => _parse_keyval key_source
          | None => Raise ValueError
          end
      end
  end.

(** ** Listener *)

(** The loop over [shared_keys.items()]: an exception leaves the loop and
    the method. *)
Fixpoint load_shared (items : list (Z * string)) (keys : gmap Z (list byte))
  : result (gmap Z (list byte)) :=
  match items with
  | [] => Ret keys
  | (key_id, key_str) :: rest =>
      match _parse_keyval key_str with
      | Ret k => load_shared rest (<[key_id := k]> keys)
      | Raise e => Raise e
      end
  end.

(** The loop over [key_map.items()] inside the [try] block: an exception
    ends the loop, and what was loaded before it stays. *)
Fixpoint load_map (items : list (string * json)) (keys : gmap Z (list byte))
  : gmap Z (list byte) :=
  match items with
  | [] => keys
  | (key_id_str, key_val) :: rest =>
      match key_val with
      | JStr v =>
          match _parse_keyval v, int_of_str L key_id_str with
          | Ret k, Some key_id => load_map rest (<[key_id := k]> keys)
          | _, _ => keys                           (* ValueError, caught *)
          end
      | _ => keys                                  (* AttributeError, caught *)
      end
  end.

Definition empty_keys (keys : gmap Z (list byte)) : bool :=
  bool_decide (keys = ∅).

(** [FastPathListener._load_keys(shared_keys)]. *)
Definition _load_keys (env : Environ) (shared_keys : option (list (Z * string)))
  : result (gmap Z (list byte)) :=
  bind (match shared_keys with
        | Some (item :: items) => load_shared (item :: items) ∅
        | _ => Ret ∅
        end) (fun keys =>
  bind (if empty_keys keys then
          match given (ASWARM_FASTPATH_KEY env) with
          | Some default_key =>
              match int_of_str L
                      (default "1"%string (ASWARM_FASTPATH_KEY_ID env)) with
              | None => Raise ValueError
              | Some key_id =>
                  bind (_parse_keyval default_key) (fun k =>
                  Ret (<[key_id := k]> keys))
              end
          | None => Ret keys
          end
        else Ret keys) (fun keys =>
  if empty_keys keys then
    match given (ASWARM_FASTPATH_KEYS env) with
    | Some keys_json =>
        match json_loads L (list_byte_of_string keys_json) with
        | Some (JDict key_map) => Ret (load_map key_map keys)
        | _ => Ret keys                            (* caught *)
        end
    | None => Ret keys
    end
  else Ret keys)).

(** The part of [FastPathListener.__init__] that settles the keys. *)
Definition init_keys (env : Environ) (shared_keys : option (list (Z * string)))
  : result (gmap Z (list byte)) :=
  bind (_load_keys env shared_keys) (fun keys =>
  if empty_keys keys then Raise ValueError else Ret keys).

(** [reload_keys()]. *)
Definition reload_keys (env : Environ) (hmac_keys : gmap Z (list byte))
  : result (gmap Z (list byte)) :=
  bind (_load_keys env None) (fun new_keys =>
  Ret (if empty_keys new_keys then hmac_keys else new_keys)).

End WithLib.

End Keys.

(* ===================================================================== *)
(** * Statistics, health and back-pressure of the listener                 *)
(** ([udp_listener_v4.py], continued)                                      *)
(* ===================================================================== *)

Module Health.
Import Listener.

Definition STATS_WINDOW_SIZE : Z := 1024.
Definition DROP_RATE_WARN_THRESHOLD : Q := 5 # 1000.
Definition DROP_RATE_DEGRADE_THRESHOLD : Q := 2 # 100.
Definition DROP_RATE_CHECK_WINDOW : Q := 60.
Definition DEGRADE_CHECK_WINDOW : Q := 30.

(** The fields of a [Stats] object besides its counters: the latency
    window and the start of the rate window. *)
Record Gauge : Type := {
  latencies : list Q;
  rate_window_start : Q
}.

(** [Stats.record_latency(ms)], on a [deque(maxlen=STATS_WINDOW_SIZE)]. *)
Definition record_latency (g : Gauge) (ms : Q) : Gauge :=
  let l := latencies g ++ [ms] in
  {| latencies := drop (length l - Z.to_nat STATS_WINDOW_SIZE) l;
     rate_window_start := rate_window_start g |}.

(** The body of [Stats.get_drop_rate()], inside its [with self.lock]. *)
Definition drop_rate_body (st : Stats) (g : Gauge) (now : Q)
  : Stats * Gauge * (Q * Z) :=
  let window_duration := (now - rate_window_start g)%Q in
  if Qlt_bool DROP_RATE_CHECK_WINDOW window_duration then
    ({| counters := counters st; window_received := 0; window_dropped := 0 |},
     {| latencies := latencies g; rate_window_start := now |},
     (0%Q, 0))
  else if window_received st =? 0 then
    (st, g, (0%Q, int_of_Q window_duration))
  else
    (st, g,
     ((inject_Z (window_dropped st) / inject_Z (window_received st))%Q,
      int_of_Q window_duration)).

(** ** The lock of a [Stats] object *)

(** [threading.Lock()]: free, or held by a thread.  The lock is not
    re-entrant. *)
Inductive lock : Type := Free | Held.

(** How a call on the [Stats] object ends: it returns (and has released
    the lock), or it waits for the lock for ever; in the latter case
    [kept] is the state in which it leaves the lock. *)
Inductive ended (A : Type) : Type :=
| Returned (a : A)
| Blocked (kept : lock).
Arguments Returned {A} a.
Arguments Blocked {A} kept.

(** [with self.lock: body].  The body runs with the lock held; a body
    that blocks never reaches the end of the [with] statement, so the
    lock stays held. *)
Definition with_lock {A} (lk : lock) (body : lock -> ended A) : ended A :=
  match lk with
  | Held => Blocked Held
  | Free =>
      match body Held with
      | Returned a => Returned a
      | Blocked _ => Blocked Held
      end
  end.

(** [Stats.increment], [Stats.record_latency] and [Stats.get_drop_rate]
    with their lock. *)
Definition increment_locked (lk : lock) (st : Stats) (counter : string)
  (count : Z) : ended Stats :=
  with_lock lk (fun _ => Returned (increment st counter count)).

Definition record_latency_locked (lk : lock) (g : Gauge) (ms : Q)
  : ended Gauge :=
  with_lock lk (fun _ => Returned (record_latency g ms)).

Definition get_drop_rate (lk : lock) (st : Stats) (g : Gauge) (now : Q)
  : ended (Stats * Gauge * (Q * Z)) :=
  with_lock lk (fun _ => Returned (drop_rate_body st g now)).

Record Snapshot : Type := {
  snap_counters : gmap string Z;
  p50_ms : Q;
  p95_ms : Q;
  p99_ms : Q;
  drop_rate : Q;
  rate_window_sec : Z
}.

Section Snapshot.
(** [round(x, ndigits)]. *)
Context (round : Q -> Z -> Q).

(** [max(0, min(n - 1, int(n * f)))]. *)
Definition clamped_index (n : nat) (f : Q) : nat :=
  Z.to_nat (Z.max 0 (Z.min (Z.of_nat n - 1)
                       (int_of_Q (inject_Z (Z.of_nat n) * f)))).

(** [Stats.get_snapshot()].  The call of [get_drop_rate] stands inside
    the [with self.lock] block of [get_snapshot]. *)
Definition get_snapshot (lk : lock) (st : Stats) (g : Gauge) (now : Q)
  : ended (Stats * Gauge * Snapshot) :=
  with_lock lk (fun held =>
    let snapshot := counters st in
    let '(p50, p95, p99) :=
      match latencies g with
      | [] => (0%Q, 0%Q, 0%Q)
      | _ =>
          let sorted_latencies := Gossip.sorted (latencies g) in
          let n := length sorted_latencies in
          (round (nth (n / 2) sorted_latencies 0%Q) 2,
           round (nth (clamped_index n (95 # 100)) sorted_latencies 0%Q) 2,
           round (nth (clamped_index n (99 # 100)) sorted_latencies 0%Q) 2)
      end in
    match get_drop_rate held st g now with
    | Blocked kept => Blocked kept
    | Returned (st', g', (rate, window)) =>
        Returned (st', g',
                  {| snap_counters := snapshot; p50_ms := p50; p95_ms := p95;
                     p99_ms := p99; drop_rate := round rate 4;
                     rate_window_sec := window |})
    end).

Record ListenerStats : Type := {
  snapshot : Snapshot;
  queue_depth : Z;
  workers_busy : Z;
  ring_buffer_capacity : Z;
  stats_system_mode : SystemMode;
  aswarm_ingest_dropped_total : Z
}.

(** [FastPathListener.get_stats()]; [inflight] is the count of workers
    inside [_process_packet]. *)
Definition get_stats (lk : lock) (l : FastPathListener) (g : Gauge)
  (inflight : Z) (now : Q) : ended (FastPathListener * Gauge * ListenerStats) :=
  match get_snapshot lk (stats l) g now with
  | Blocked kept => Blocked kept
  | Returned (st', g', snap) =>
      Returned
        (with_stats l st', g',
         {| snapshot := snap;
            queue_depth := Z.of_nat (length (buffer (ring_buffer l)));
            workers_busy := inflight;
            ring_buffer_capacity := capacity (ring_buffer l);
            stats_system_mode := system_mode l;
            aswarm_ingest_dropped_total :=
              default 0 (snap_counters snap !! "dropped_oldest"%string) +
              default 0 (snap_counters snap !! "rate_limited"%string) |})
  end.

End Snapshot.

(** ** Back-pressure ([_monitor_loop]) *)

Definition with_system_mode (l : FastPathListener) (m : SystemMode)
  : FastPathListener :=
  {| stale_window_sec := stale_window_sec l; stats := stats l;
     system_mode := m; sample_divisor := sample_divisor l;
     rate_capacity := rate_capacity l; rate_fill_per_sec := rate_fill_per_sec l;
     _buckets := _buckets l; hmac_keys := hmac_keys l;
     allowed_networks := allowed_networks l; replay_cache := replay_cache l;
     replay_expire := replay_expire l; src_sequences := src_sequences l;
     ring_buffer := ring_buffer l |}.

#[global] Instance SystemMode_eq_dec : EqDecision SystemMode.
Proof. solve_decision. Defined.

(** What the monitor thread keeps besides the listener. *)
Record Monitor : Type := {
  gauge : Gauge;
  last_degrade_check : Q
}.

(** What a round of the monitor decides. *)
Inductive verdict : Type :=
| TooEarly            (* the rate window is younger than ten seconds *)
| Degrade (reason : string)
| Warn
| Recover
| Steady.

(** The decision of a round, from the readings it takes. *)
Definition decide_mode (current_mode : SystemMode) (last_degrade_check : Q)
  (rate : Q) (window : Z) (q_ratio now : Q) : verdict :=
  if window <? 10 then TooEarly
  else if Qlt_bool (9 # 10) q_ratio then
    if Qlt_bool 3 (now - last_degrade_check) &&
       bool_decide (current_mode = NORMAL)
    then Degrade "queue_pressure" else Steady
  else if Qlt_bool DROP_RATE_DEGRADE_THRESHOLD rate then
    if bool_decide (current_mode = NORMAL) &&
       Qlt_bool DEGRADE_CHECK_WINDOW (now - last_degrade_check)
    then Degrade "high_drop_rate" else Steady
  else if Qlt_bool DROP_RATE_WARN_THRESHOLD rate then
    if bool_decide (current_mode = NORMAL) then Warn else Steady
  else if Qlt_bool q_ratio (2 # 10) &&
          Qlt_bool rate (DROP_RATE_WARN_THRESHOLD / 2) then
    if bool_decide (current_mode = DEGRADED) then Recover else Steady
  else Steady.

(** One round of [_monitor_loop] after its [time.sleep(1)], with the
    [Stats] lock free: [t_rate] is the reading of the clock inside
    [get_drop_rate], [now] the one under [mode_lock]. *)
Definition _monitor_step (l : FastPathListener) (m : Monitor)
  (t_rate now : Q) : FastPathListener * Monitor * verdict :=
  let '(st, g, (rate, window)) := drop_rate_body (stats l) (gauge m) t_rate in
  let l := with_stats l st in
  let q_depth := Z.of_nat (length (buffer (ring_buffer l))) in
  let q_ratio :=
    (inject_Z q_depth / inject_Z (Z.max 1 (capacity (ring_buffer l))))%Q in
  let v := decide_mode (system_mode l) (last_degrade_check m) rate window
             q_ratio now in
  match v with
  | Degrade _ =>
      (with_system_mode l DEGRADED,
       {| gauge := g; last_degrade_check := last_degrade_check m |}, v)
  | Recover =>
      (with_system_mode l NORMAL,
       {| gauge := g; last_degrade_check := now |}, v)
  | _ => (l, {| gauge := g; last_degrade_check := last_degrade_check m |}, v)
  end.

End Health.

(* ===================================================================== *)
(** * The lease write of the sentinel ([telemetry_v2.py], continued)       *)
(* ===================================================================== *)

Module Lease.
Import Telemetry.

(** What the API server answers to a call: it accepts it, the client
    raises [ApiException] with a status, or something else is raised. *)
Inductive api_response : Type :=
| Accepted
| ApiException (status : Z)
| OtherException.

(** The merge patch of [update_lease]. *)
Record LeasePatch : Type := {
  annotations : list (string * string);
  labels : list (string * string);
  holderIdentity : string;
  renewTime : string;
  leaseDurationSeconds : Z
}.

(** The [V1Lease] it creates when the lease is missing. *)
Record V1Lease : Type := {
  lease_labels : list (string * string);
  holder_identity : string;
  lease_duration_seconds : Z
}.

(** The API server, as the [attempt]-th pass of the retry loop meets it. *)
Record Cluster : Type := {
  patch_namespaced_lease : nat -> LeasePatch -> api_response;
  create_namespaced_lease : nat -> V1Lease -> api_response
}.

Inductive call : Type :=
| PatchLease (body : LeasePatch) (answer : api_response)
| CreateLease (body : V1Lease) (answer : api_response).

(** What a call of [update_lease] does besides returning: its API calls
    and its [time.sleep]s, in order. *)
Record Trace : Type := {
  calls : list call;
  naps : list Q
}.

Definition log (tr : Trace) (c : call) : Trace :=
  {| calls := calls tr ++ [c]; naps := naps tr |}.

Definition nap (tr : Trace) (seconds : Q) : Trace :=
  {| calls := calls tr; naps := naps tr ++ [seconds] |}.

(** The loop [for attempt in range(3)] from pass [attempt] on; the
    boolean tells whether the statement after the loop is reached
    ([false]: an exception other than [ApiException] leaves the
    method). *)
Fixpoint lease_attempts (k : Cluster) (patch : LeasePatch) (body : V1Lease)
  (todo : list nat) (tr : Trace) : Trace * bool :=
  match todo with
  | [] => (tr, true)
  | attempt :: rest =>
      let a := patch_namespaced_lease k attempt patch in
      let tr := log tr (PatchLease patch a) in
      match a with
      | Accepted => (tr, true)
      | OtherException => (tr, false)
      | ApiException status =>
          if status =? 404 then
            let c := create_namespaced_lease k attempt body in
            let tr := log tr (CreateLease body c) in
            match c with
            | Accepted => lease_attempts k patch body rest tr
            | OtherException => (tr, false)
            | ApiException cs =>
                if cs =? 409 then lease_attempts k patch body rest tr
                else (tr, true)
            end
          else if (status =? 409) || (status =? 429) || (status =? 500) then
            lease_attempts k patch body rest
              (nap tr ((1 # 100) * inject_Z (Z.of_nat attempt + 1))%Q)
          else (tr, true)
      end
  end.

Section WithLib.
Context (L : Lib).

(** [if run_id:] on an optional string. *)
Definition given (run_id : option string) : option string :=
  match run_id with
  | Some s => if String.eqb s EmptyString then None else Some s
  | None => None
  end.

Definition lease_labels_of (node_name : string) (run_id : option string)
  : list (string * string) :=
  let labels :=
    [("app.kubernetes.io/component", "sentinel");
     ("aswarm.ai/node", node_name)]%string in
  match given run_id with
  | Some r => dict_set "aswarm.ai/run-id"%string r labels
  | None => labels
  end.

Definition lease_patch (node_name : string) (seq : Z) (now : string)
  (score : Q) (elevate : bool) (run_id : option string) : LeasePatch :=
  let ann :=
    [("aswarm.ai/seq", Gossip.decimal seq);
     ("aswarm.ai/score", format_3f L score);
     ("aswarm.ai/ts", now)]%string in
  let ann := match given run_id with
             | Some r => dict_set "aswarm.ai/run-id"%string r ann
             | None => ann
             end in
  let ann := if elevate
             then dict_set "aswarm.ai/elevate-ts"%string now
                    (dict_set "aswarm.ai/elevate"%string "true"%string ann)
             else ann in
  {| annotations := ann;
     labels := lease_labels_of node_name run_id;
     holderIdentity := ("sentinel-" ++ node_name)%string;
     renewTime := now;
     leaseDurationSeconds := 5 |}.

Definition lease_body (node_name : string) (run_id : option string)
  : V1Lease :=
  {| lease_labels := lease_labels_of node_name run_id;
     holder_identity := ("sentinel-" ++ node_name)%string;
     lease_duration_seconds := 5 |}.

Definition with_sequence (t : DualPathTelemetry) (n : Z)
  : DualPathTelemetry :=
  {| sequence := n; anomaly_signals := anomaly_signals t;
     _ewma := _ewma t; _prev_high := _prev_high t |}.

(** [update_lease(score, elevate, run_id)] at the instant [utc_now]:
    the new state, what it did, and what it returns ([None]: an
    exception leaves it). *)
Definition update_lease (t : DualPathTelemetry) (k : Cluster)
  (node_name : string) (utc_now : Q) (score : Q) (elevate : bool)
  (run_id : option string)
  : DualPathTelemetry * Trace * option (string * bool) :=
  let now := isoformat L utc_now in
  let t := with_sequence t (sequence t + 1) in
  let patch := lease_patch node_name (sequence t) now score elevate run_id in
  let body := lease_body node_name run_id in
  let '(tr, returns) :=
    lease_attempts k patch body [0; 1; 2]%nat {| calls := []; naps := [] |} in
  (t, tr, if returns then Some (now, elevate) else None).

End WithLib.

End Lease.

(* ===================================================================== *)
(** * Label selectors ([microact_catalog_v2.py], continued)                *)
(* ===================================================================== *)

Module Selector.
Import MicroAct.

(** [s.lstrip()]: the white space at the front goes, whatever places it
    takes. *)
Fixpoint lstrip (s : string) : string :=
  match s with
  | EmptyString => EmptyString
  | String c s1 =>
      if is_space c then lstrip s1
      else
        match s1 with
        | EmptyString => s
        | String d s2 =>
            if is_space2 c d then lstrip s2
            else
              match s2 with
              | EmptyString => s
              | String e s3 => if is_space3 c d e then lstrip s3 else s
              end
        end
  end.

(** [s.rstrip()]: [s] up to the place from which all is white space.  No
    white space begins with a continuation byte, so in the encoding of a
    [str] that place is the start of a character. *)
Fixpoint rstrip (s : string) : string :=
  match s with
  | EmptyString => EmptyString
  | String c s' => if is_blank s then EmptyString else String c (rstrip s')
  end.

(** [s.strip()]. *)
Definition strip (s : string) : string := rstrip (lstrip s).

(** [_parse_selector(selector)]: the labels, in insertion order. *)
Definition _parse_selector (selector : string) : list (string * string) :=
  fold_left
    (fun labels part =>
       match split_once "=" part with
       | Some (k, v) => dict_set (strip k) (strip v) labels
       | None => labels
       end)
    (split_on "," selector) [].

End Selector.

(* ===================================================================== *)
(** * A stand-in library for running the models                            *)
(* ===================================================================== *)

Module Examples.

Definition pad32 (bs : list byte) : list byte :=
  take 32 (bs ++ replicate 32 x00).

(** The JSON documents the stand-in reader knows, with their bytes. *)
Definition doc_empty_object : list byte := [x7b; x7d].          (* {} *)
Definition doc_empty_array : list byte := [x5b; x5d].           (* [] *)
Definition doc_old_wall_ts : list byte :=                       (* {"wall_ts":1} *)
  [x7b; x22; x77; x61; x6c; x6c; x5f; x74; x73; x22; x3a; x31; x7d].

Definition known_documents : list (list byte * json) :=
  [ (doc_empty_object, JDict []);
    (doc_empty_array, JList []);
    (doc_old_wall_ts, JDict [("wall_ts", JInt 1)]) ].

Fixpoint lookup_document (bs : list byte) (docs : list (list byte * json))
  : option json :=
  match docs with
  | [] => None
  | (b, v) :: docs' =>
      if bool_decide (b = bs) then Some v else lookup_document bs docs'
  end.

(** Stand-ins for the library code, enough to run the models on concrete
    inputs: a keyed 32-byte tag, a 32-byte digest, a JSON reader that
    knows [known_documents], a JSON writer that always writes the empty
    object, and fixed answers for the date and number formats. *)
Definition lib : Lib :=
  {| hmac_sha256 := fun key msg => pad32 (rev (key ++ msg));
     sha256 := fun msg => pad32 (rev msg);
     json_dumps := fun _ _ => doc_empty_object;
     json_loads := fun bs => lookup_document bs known_documents;
     json_too_deep := fun _ => false;
     isoformat := fun _ => "1970-01-01T00:00:00+00:00"%string;
     fromisoformat_timestamp := fun _ => None;
     ip_in_network := fun _ _ => true;
     format_3f := fun _ => "0.000"%string;
     py_format := fun _ => "?"%string;
     int_of_str := fun _ => None |}.

End Examples.

(* ===================================================================== *)
(** * Facts about the wire format                                          *)
(* ===================================================================== *)

Module WireFacts.
Import Wire.

Lemma byte_val_range b : 0 <= byte_val b < 256.
Proof.
  unfold byte_val. pose proof (Byte.to_N_bounded b) as H.
  split; [apply N2Z.is_nonneg|].
  apply N2Z.inj_le in H. simpl in H. lia.
Qed.

Lemma byte_val_of_Z z : byte_val (byte_of_Z z) = z mod 256.
Proof.
  unfold byte_val, byte_of_Z.
  assert (Hr : 0 <= z mod 256 < 256) by (apply Z.mod_pos_bound; lia).
  destruct (Byte.of_N (Z.to_N (z mod 256))) as [b|] eqn:E.
  - apply Byte.to_of_N in E. rewrite E. rewrite Z2N.id; lia.
  - apply Byte.of_N_None_iff in E. exfalso.
    apply N2Z.inj_lt in E. rewrite Z2N.id in E by lia. simpl in E. lia.
Qed.

Lemma be_bytes_length n v : length (be_bytes n v) = n.
Proof.
  revert v. induction n as [|n IH]; intros v; simpl; [done|].
  rewrite length_app, IH. simpl. lia.
Qed.

Lemma be_value_app bs b :
  be_value (bs ++ [b]) = be_value bs * 256 + byte_val b.
Proof. unfold be_value. by rewrite fold_left_app. Qed.

Lemma be_value_bytes n v :
  0 <= v < 256 ^ Z.of_nat n -> be_value (be_bytes n v) = v.
Proof.
  revert v. induction n as [|n IH]; intros v Hv.
  - simpl in *. unfold be_value. simpl. lia.
  - simpl be_bytes. rewrite be_value_app, byte_val_of_Z.
    rewrite IH.
    + pose proof (Z.div_mod v 256). lia.
    + rewrite Nat2Z.inj_succ, Z.pow_succ_r in Hv by lia.
      split; [apply Z.div_pos; lia|].
      apply Z.div_lt_upper_bound; lia.
Qed.

Lemma be_value_range bs : 0 <= be_value bs < 256 ^ Z.of_nat (length bs).
Proof.
  induction bs as [|b bs IH] using rev_ind.
  - unfold be_value. simpl. lia.
  - rewrite be_value_app, length_app. simpl length.
    replace (Z.of_nat (length bs + 1)) with (Z.succ (Z.of_nat (length bs))) by lia.
    rewrite Z.pow_succ_r by lia.
    pose proof (byte_val_range b). lia.
Qed.

Lemma pack_uint_length n v bs : pack_uint n v = Some bs -> length bs = n.
Proof.
  unfold pack_uint. case_match; [|done]. intros [= <-]. apply be_bytes_length.
Qed.

Lemma pack_uint_Some n v :
  0 <= v < 256 ^ Z.of_nat n -> pack_uint n v = Some (be_bytes n v).
Proof.
  intros [H1 H2]. unfold pack_uint.
  apply Z.leb_le in H1. apply Z.ltb_lt in H2. by rewrite H1, H2.
Qed.

Lemma pack_uint_None n v :
  256 ^ Z.of_nat n <= v -> pack_uint n v = None.
Proof.
  intros H. unfold pack_uint.
  apply Z.ltb_ge in H. rewrite H. by rewrite andb_false_r.
Qed.

(** Unpacking what was packed gives the values back, whatever follows. *)
Lemma unpack_pack_uints fmt vs bs rest :
  Sender.pack_uints fmt vs = Some bs ->
  Listener.unpack_uints fmt (bs ++ rest) = vs.
Proof.
  revert vs bs rest. induction fmt as [|n fmt IH]; intros [|v vs] bs rest H;
    simpl in H; try discriminate.
  - by injection H as <-.
  - destruct (pack_uint n v) as [b|] eqn:Hb; [|discriminate].
    destruct (Sender.pack_uints fmt vs) as [r|] eqn:Hr; [|discriminate].
    injection H as <-. simpl.
    pose proof (pack_uint_length _ _ _ Hb) as Hlen.
    rewrite <- app_assoc.
    rewrite take_app_length' by done. rewrite drop_app_length' by done.
    f_equal; [|by apply IH].
    unfold pack_uint in Hb. case_match eqn:Hc; [|done]. injection Hb as <-.
    apply andb_prop in Hc as [H1 H2].
    apply be_value_bytes. split; [by apply Z.leb_le | by apply Z.ltb_lt].
Qed.

Lemma pack_uints_length fmt vs bs :
  Sender.pack_uints fmt vs = Some bs -> length bs = list_sum fmt.
Proof.
  revert vs bs. induction fmt as [|n fmt IH]; intros [|v vs] bs H;
    simpl in H; try discriminate.
  - by injection H as <-.
  - destruct (pack_uint n v) as [b|] eqn:Hb; [|discriminate].
    destruct (Sender.pack_uints fmt vs) as [r|] eqn:Hr; [|discriminate].
    injection H as <-. rewrite length_app. simpl.
    rewrite (pack_uint_length _ _ _ Hb), (IH _ _ Hr). done.
Qed.

(** Bits: the nonce of a version-3 header. *)
Lemma shiftr32_small x : 0 <= x < 2 ^ 32 -> Z.shiftr x 32 = 0.
Proof. intros H. rewrite Z.shiftr_div_pow2 by lia. apply Z.div_small. lia. Qed.

Lemma small_of_shiftr32 x : 0 <= x -> Z.shiftr x 32 = 0 -> x < 2 ^ 32.
Proof.
  intros H0 H. rewrite Z.shiftr_div_pow2 in H by lia.
  apply Z.div_small_iff in H; lia.
Qed.

Lemma seq16_range s : 0 <= Z.land s 65535 < 65536.
Proof.
  change 65535 with (Z.ones 16). rewrite Z.land_ones by lia.
  apply Z.mod_pos_bound. lia.
Qed.

Lemma nonce32_shiftr rand seq16 seq32 :
  0 <= rand < 2 ^ 32 -> 0 <= seq16 < 65536 ->
  Z.shiftr (Sender.nonce32 rand seq16 seq32) 32 = Z.shiftr seq32 16.
Proof.
  intros Hr Hs. unfold Sender.nonce32.
  rewrite Z.shiftr_lxor, Z.shiftr_lor.
  rewrite (shiftr32_small rand) by lia.
  rewrite (shiftr32_small seq16) by lia.
  rewrite Z.shiftr_shiftl_r by lia. simpl.
  by rewrite Z.lor_0_l.
Qed.

Lemma nonce32_fits rand seq16 seq32 :
  0 <= rand < 2 ^ 32 -> 0 <= seq16 < 65536 -> 0 <= seq32 < 65536 ->
  0 <= Sender.nonce32 rand seq16 seq32 < 2 ^ 32.
Proof.
  intros Hr Hs H32.
  assert (H0 : 0 <= Sender.nonce32 rand seq16 seq32).
  { unfold Sender.nonce32. apply Z.lxor_nonneg. split; intros _; [|lia].
    apply Z.lor_nonneg. split; [lia|]. apply Z.shiftl_nonneg. lia. }
  split; [done|]. apply small_of_shiftr32; [done|].
  rewrite nonce32_shiftr by done.
  rewrite Z.shiftr_div_pow2 by lia. apply Z.div_small. lia.
Qed.

Lemma nonce32_overflows rand seq16 seq32 :
  0 <= rand < 2 ^ 32 -> 0 <= seq16 < 65536 -> 65536 <= seq32 ->
  2 ^ 32 <= Sender.nonce32 rand seq16 seq32.
Proof.
  intros Hr Hs H32.
  destruct (Z_lt_le_dec (Sender.nonce32 rand seq16 seq32) (2 ^ 32)) as [Hlt|]; [|done].
  exfalso.
  assert (H0 : 0 <= Sender.nonce32 rand seq16 seq32).
  { unfold Sender.nonce32. apply Z.lxor_nonneg. split; intros _; [|lia].
    apply Z.lor_nonneg. split; [lia|]. apply Z.shiftl_nonneg. lia. }
  pose proof (shiftr32_small _ (conj H0 Hlt)) as Hz.
  rewrite nonce32_shiftr in Hz by done.
  rewrite Z.shiftr_div_pow2 in Hz by lia.
  apply Z.div_small_iff in Hz; lia.
Qed.

End WireFacts.

(* ===================================================================== *)
(** * The sender: header packing and the sequence counter                  *)
(* ===================================================================== *)

Module SenderFacts.
Import Wire WireFacts Sender.

Lemma header_fmt_v3 s : protocol_version s = V3 -> header_fmt s = V3_HEADER_FMT.
Proof. intros H. unfold header_fmt. by rewrite H. Qed.

Lemma payload_budget_v3 s : protocol_version s = V3 -> payload_budget s = 1141.
Proof.
  intros H. unfold payload_budget, header_size. by rewrite header_fmt_v3.
Qed.

Lemma set_sequence_version s n :
  protocol_version (set_sequence s n) = protocol_version s.
Proof. done. Qed.

(** The header of a version-3 packet, when every field is in range. *)
Definition v3_header (ts src sq nonce plen kid : Z) : list byte :=
  MAGIC ++ be_bytes 1 V3 ++ be_bytes 1 TYPE_ELEVATION ++ be_bytes 8 ts ++
  be_bytes 4 src ++ be_bytes 2 sq ++ be_bytes 4 nonce ++ be_bytes 2 plen ++
  be_bytes 1 kid ++ [].

Lemma struct_pack_v3 ts src sq nonce plen kid :
  0 <= ts < 2 ^ 64 -> 0 <= src < 2 ^ 32 -> 0 <= sq < 2 ^ 16 ->
  0 <= nonce < 2 ^ 32 -> 0 <= plen < 2 ^ 16 -> 0 <= kid < 2 ^ 8 ->
  struct_pack V3_HEADER_FMT MAGIC
    [V3; TYPE_ELEVATION; ts; src; sq; nonce; plen; kid]
  = Some (v3_header ts src sq nonce plen kid).
Proof.
  intros Hts Hsrc Hsq Hn Hp Hk. unfold struct_pack, V3_HEADER_FMT. simpl pack_uints.
  rewrite !pack_uint_Some; [done|..]; simpl Z.of_nat;
    unfold V3, TYPE_ELEVATION; lia.
Qed.

Lemma struct_pack_v3_nonce_overflow ts src sq nonce plen kid :
  2 ^ 32 <= nonce ->
  struct_pack V3_HEADER_FMT MAGIC
    [V3; TYPE_ELEVATION; ts; src; sq; nonce; plen; kid] = None.
Proof.
  intros Hn. unfold struct_pack, V3_HEADER_FMT. simpl pack_uints.
  rewrite (pack_uint_None 4 nonce) by (simpl Z.of_nat; lia).
  repeat case_match; done.
Qed.

Section WithLib.
Context (L : Lib).

Lemma build_packet_v3 s now rand sq payload :
  protocol_version s = V3 ->
  0 <= int_of_Q (now * 1000) < 2 ^ 64 -> 0 <= src_id s < 2 ^ 32 ->
  0 <= sq < 2 ^ 16 -> 0 <= nonce32 rand sq (sequence s - 1) < 2 ^ 32 ->
  Z.of_nat (length payload) < 2 ^ 16 -> 0 <= key_id s < 2 ^ 8 ->
  _build_packet L s now rand sq payload =
  let header := v3_header (int_of_Q (now * 1000)) (src_id s) sq
                  (nonce32 rand sq (sequence s - 1))
                  (Z.of_nat (length payload)) (key_id s) in
  Ret ((header ++ payload) ++ hmac_sha256 L (hmac_key s) (header ++ payload)).
Proof.
  intros Hv Hts Hsrc Hsq Hn Hp Hk. unfold _build_packet.
  rewrite header_fmt_v3 by done. rewrite Hv. simpl (V3 =? V3).
  cbv iota. rewrite struct_pack_v3 by (done || lia). done.
Qed.

Lemma build_packet_v3_overflow s now rand sq payload :
  protocol_version s = V3 ->
  2 ^ 32 <= nonce32 rand sq (sequence s - 1) ->
  _build_packet L s now rand sq payload = Raise StructError.
Proof.
  intros Hv Hn. unfold _build_packet.
  rewrite header_fmt_v3 by done. rewrite Hv. simpl (V3 =? V3).
  cbv iota. by rewrite struct_pack_v3_nonce_overflow.
Qed.

(** The optional fields never take the payload over the budget. *)
Lemma add_optional_anomaly_budget budget ad fields top anomaly payload :
  Z.of_nat (length payload) <= budget ->
  Z.of_nat (length (add_optional_anomaly L budget ad fields top anomaly payload).2)
  <= budget.
Proof.
  revert anomaly payload. induction fields as [|f fields IH];
    intros anomaly payload Hp; simpl; [done|].
  destruct (dict_get f ad) as [v|]; [|by apply IH].
  destruct v; try (by apply IH);
    (case_match eqn:Hc; [apply IH; by apply Z.leb_le in Hc | done]).
Qed.

Lemma add_optional_meta_budget budget ad fields pd payload :
  Z.of_nat (length payload) <= budget ->
  Z.of_nat (length (add_optional_meta L budget ad fields pd payload)) <= budget.
Proof.
  revert pd payload. induction fields as [|f fields IH];
    intros pd payload Hp; simpl; [done|].
  destruct (dict_get f ad) as [v|]; [|by apply IH].
  destruct v; try (by apply IH);
    (case_match eqn:Hc; [apply IH; by apply Z.leb_le in Hc | done]).
Qed.

(** What [send_elevation] hands to [_build_packet]. *)
Lemma send_elevation_within_budget s env ad rid :
  Z.of_nat (length (base_payload L s env ad rid)) <= payload_budget s ->
  exists payload,
    Z.of_nat (length payload) <= payload_budget s /\
    send_elevation L s env ad rid =
    (_build_packet L (set_sequence s (sequence s + 1)) (build_now env)
       (randbits32 env) (Z.land (sequence s) 65535) payload,
     set_sequence s (sequence s + 1)).
Proof.
  intros Hb. unfold send_elevation.
  change (payload_budget (set_sequence s (sequence s + 1)))
    with (payload_budget s).
  pose proof Hb as Hb'. apply Z.ltb_ge in Hb'. rewrite Hb'.
  destruct (add_optional_anomaly _ _ _ _ _ _ _) as [anomaly' payload] eqn:Ha.
  eexists. split; [|done].
  apply add_optional_meta_budget.
  pose proof (add_optional_anomaly_budget (payload_budget s) ad
                ["detection_window_ms"; "event_type"]%string
                (base_payload_dict L s env ad rid) (base_anomaly ad)
                (base_payload L s env ad rid) Hb) as H.
  by rewrite Ha in H.
Qed.

Lemma send_elevation_inv s env ad rid :
  let s' := set_sequence s (sequence s + 1) in
  send_elevation L s env ad rid = (Raise ValueError, s') \/
  exists payload,
    Z.of_nat (length payload) <= payload_budget s /\
    send_elevation L s env ad rid =
    (_build_packet L s' (build_now env) (randbits32 env)
       (Z.land (sequence s) 65535) payload, s').
Proof.
  intros s'.
  destruct (Z_le_gt_dec (Z.of_nat (length (base_payload L s env ad rid)))
              (payload_budget s)) as [Hb|Hb].
  - right. by apply send_elevation_within_budget.
  - left. unfold send_elevation.
    change (payload_budget (set_sequence s (sequence s + 1)))
      with (payload_budget s).
    assert (Hc : (payload_budget s <?
                  Z.of_nat (length (base_payload L s env ad rid))) = true)
      by (apply Z.ltb_lt; lia).
    by rewrite Hc.
Qed.

End WithLib.

(** C10 — the sequence counter bounds the life of a version-3 sender.
    For a sender whose counter is below 2^16, the nonce
    [randbits(32) ^ (seq16 | (sequence << 16))] fits in 32 bits and
    [send_elevation] builds its packet; from 2^16 on, the nonce is at least
    2^32, the header cannot be packed, and this and every later
    [send_elevation] raises. *)
Theorem c10_sequence_limit (L : Lib) (s : FastPathSender) :
  protocol_version s = V3 ->
  0 <= key_id s < 256 -> 0 <= src_id s < 2 ^ 32 -> 0 <= sequence s ->
  (sequence s < 65536 ->
   forall env ad rid,
     0 <= randbits32 env < 2 ^ 32 ->
     0 <= int_of_Q (build_now env * 1000) < 2 ^ 64 ->
     Z.of_nat (length (base_payload L s env ad rid)) <= payload_budget s ->
     0 <= nonce32 (randbits32 env) (Z.land (sequence s) 65535) (sequence s)
       < 2 ^ 32 /\
     exists pkt,
       send_elevation L s env ad rid =
       (Ret pkt, set_sequence s (sequence s + 1)))
  /\
  (65536 <= sequence s ->
   (forall env ad rid,
      0 <= randbits32 env < 2 ^ 32 ->
      2 ^ 32 <= nonce32 (randbits32 env) (Z.land (sequence s) 65535)
                  (sequence s) /\
      exists e,
        send_elevation L s env ad rid =
        (Raise e, set_sequence s (sequence s + 1))) /\
   (forall reqs,
      Forall (fun q => 0 <= randbits32 q.1.1 < 2 ^ 32) reqs ->
      Forall (fun r => exists e, r = Raise e) (send_all L s reqs).1)).
Proof.
  intros Hv Hk Hsrc Hs0.
  assert (Hraise : forall s0 env ad rid,
             protocol_version s0 = V3 -> 65536 <= sequence s0 ->
             0 <= randbits32 env < 2 ^ 32 ->
             exists e, send_elevation L s0 env ad rid =
                       (Raise e, set_sequence s0 (sequence s0 + 1))).
  { intros s0 env ad rid Hv0 Hbig Hr.
    destruct (send_elevation_inv L s0 env ad rid) as [H|(payload & _ & H)];
      [by eexists|].
    rewrite H. rewrite build_packet_v3_overflow; [by eexists|done|].
    simpl. replace (sequence s0 + 1 - 1) with (sequence s0) by lia.
    apply nonce32_overflows; [done|apply seq16_range|done]. }
  split.
  - intros Hlt env ad rid Hr Hts Hb.
    pose proof (seq16_range (sequence s)) as Hsq.
    assert (Hn : 0 <= nonce32 (randbits32 env) (Z.land (sequence s) 65535)
                       (sequence s) < 2 ^ 32)
      by (apply nonce32_fits; lia).
    split; [done|].
    destruct (send_elevation_within_budget L s env ad rid Hb)
      as (payload & Hp & ->).
    rewrite payload_budget_v3 in Hp by done.
    rewrite build_packet_v3; simpl;
      rewrite ?Z.add_simpl_r; try done; try lia.
    by eexists.
  - intros Hbig. split.
    + intros env ad rid Hr. split; [|by apply Hraise].
      apply nonce32_overflows; [done|apply seq16_range|done].
    + intros reqs. clear Hk Hsrc Hs0. revert s Hv Hbig.
      induction reqs as [|[[env ad] rid] reqs IH]; intros s Hv Hbig Hall;
        simpl; [constructor|].
      apply Forall_cons in Hall as [Hr Hall]. simpl in Hr.
      destruct (Hraise s env ad rid Hv Hbig Hr) as [e He]. rewrite He.
      specialize (IH (set_sequence s (sequence s + 1))).
      destruct (send_all L (set_sequence s (sequence s + 1)) reqs) as [rs s''].
      simpl. constructor; [by eexists|].
      apply IH; [done|simpl; lia|done].
Qed.

(** A sender early in its life and one at the limit. *)
Definition young_sender : FastPathSender :=
  {| key_id := 1; dupes := 3; gap_ms := 6; protocol_version := V3;
     sequence := 5; src_id := 305419896; hmac_key := [x6b; x65; x79] |}.

Definition spent_sender : FastPathSender := set_sequence young_sender 65536.

Definition sample_env : SendEnv :=
  {| hostname := "node-1"; wall_now := 1700000000; build_now := 1700000000;
     randbits32 := 2863311530 |}.

Lemma c10_sequence_limit_witness :
  (exists pkt,
     send_elevation Examples.lib young_sender sample_env [] None =
     (Ret pkt, set_sequence young_sender 6)) /\
  (exists e,
     send_elevation Examples.lib spent_sender sample_env [] None =
     (Raise e, set_sequence spent_sender 65537)).
Proof.
  split.
  - refine (proj2 (proj1 (c10_sequence_limit Examples.lib young_sender
                            eq_refl _ _ _) _ sample_env [] None _ _ _));
      vm_compute; try done; split; congruence.
  - refine (proj2 (proj1 (proj2 (c10_sequence_limit Examples.lib spent_sender
                            eq_refl _ _ _) _) sample_env [] None _));
      vm_compute; try done; split; congruence.
Defined.

End SenderFacts.

(* ===================================================================== *)
(** * The listener: replay window, counters, round trip                    *)
(* ===================================================================== *)

Module ListenerFacts.
Import Wire WireFacts Listener.

(** ** The per-source replay window *)

Lemma seq_check_reject seqs src seq :
  seq_check seqs src seq = None <->
  let '(highest, seen) := default (0, ∅) (seqs !! src) in
  seq <= highest - 256 \/ seq ∈ seen.
Proof.
  unfold seq_check. destruct (default (0, ∅) (seqs !! src)) as [highest seen].
  destruct (seq <=? highest - 256) eqn:Hold.
  - apply Z.leb_le in Hold. split; [by left|done].
  - apply Z.leb_gt in Hold. case_bool_decide as Hseen.
    + split; [by right|done].
    + split; [done|]. intros [?|?]; [lia|done].
Qed.

(** An accepted sequence number is remembered: the next packet with the
    same source and sequence is a replay. *)
Lemma seq_check_once seqs src seq seqs' :
  seq_check seqs src seq = Some seqs' -> seq_check seqs' src seq = None.
Proof.
  intros H. apply seq_check_reject. unfold seq_check in H.
  destruct (default (0, ∅) (seqs !! src)) as [highest seen].
  destruct (seq <=? highest - 256) eqn:Hold; [done|]. apply Z.leb_gt in Hold.
  case_bool_decide as Hseen; [done|]. injection H as <-.
  rewrite lookup_insert_eq. simpl. right.
  case_match.
  - apply elem_of_filter. split; [|set_solver].
    destruct (highest <? seq) eqn:Hc; [lia|]. apply Z.ltb_ge in Hc. lia.
  - set_solver.
Qed.

(** C2 (amended) — the replay window of a source whose highest sequence
    is [H] reaches down to [H - 255]: that sequence, if not seen before, is
    accepted once and is a replay the second time; [H - 256] and [H - 257]
    are rejected as replays whether seen before or not. *)
Theorem c2_replay_window (seqs : gmap Z (Z * gset Z)) (src H : Z)
  (seen : gset Z) :
  seqs !! src = Some (H, seen) ->
  (H - 255 ∉ seen ->
   exists seqs', seq_check seqs src (H - 255) = Some seqs' /\
                 seq_check seqs' src (H - 255) = None) /\
  seq_check seqs src (H - 256) = None /\
  seq_check seqs src (H - 257) = None.
Proof.
  intros Hsrc. split; [|split].
  - intros Hnew.
    destruct (seq_check seqs src (H - 255)) as [seqs'|] eqn:Hc.
    + exists seqs'. split; [done|]. by eapply seq_check_once.
    + exfalso. apply seq_check_reject in Hc. rewrite Hsrc in Hc. simpl in Hc.
      destruct Hc; [lia|done].
  - apply seq_check_reject. rewrite Hsrc. simpl. left. lia.
  - apply seq_check_reject. rewrite Hsrc. simpl. left. lia.
Qed.

(** A source that has only sent sequence 300. *)
Definition sample_seen : gset Z := {[300]}.
Definition sample_seqs : gmap Z (Z * gset Z) := {[7 := (300, sample_seen)]}.

Lemma c2_replay_window_witness :
  (exists seqs',
     seq_check sample_seqs 7 45 = Some seqs' /\
     seq_check seqs' 7 45 = None) /\
  seq_check sample_seqs 7 44 = None /\
  seq_check sample_seqs 7 43 = None.
Proof.
  assert (Hsrc : sample_seqs !! 7 = Some (300, sample_seen))
    by (vm_compute; reflexivity).
  destruct (c2_replay_window sample_seqs 7 300 sample_seen Hsrc)
    as (Ha & Hb & Hc).
  split; [|split; [exact Hb | exact Hc]].
  apply Ha. vm_compute. intros H. discriminate H.
Defined.

(** The claim as the specification has it fails: with highest sequence 300,
    sequence 44 = 300 - 256 has not been seen and is rejected all the same. *)
Lemma c2_counterexample :
  sample_seqs !! 7 = Some (300, sample_seen) /\ 44 = 300 - 256 /\
  (44 ∉ sample_seen) /\ seq_check sample_seqs 7 44 = None.
Proof.
  split; [by vm_compute|]. split; [done|]. split; [|by vm_compute].
  intros H. apply elem_of_singleton in H. discriminate H.
Qed.

(** ** Counters *)

(** Decidable facts about concrete data are settled by evaluation. *)
Ltac by_compute :=
  match goal with
  | |- ?P => apply (bool_decide_unpack P); vm_compute; exact I
  end.

(** The counter an outcome is credited to, if any. *)
Definition credited (o : outcome) : option string :=
  match o with
  | Counted c => Some c
  | Delivered _ _ => Some "valid"%string
  | Dropped | Failed _ => None
  end.

Lemma sum_counters_insert m names c v :
  NoDup names ->
  sum_counters (<[c := v]> m) names =
  sum_counters m names + (if decide (c ∈ names) then v - m !!! c else 0).
Proof.
  induction 1 as [|x names Hx Hnd IH].
  - unfold sum_counters. cbn [foldr].
    case_decide as Hin; [by apply elem_of_nil in Hin|lia].
  - unfold sum_counters in *. cbn [foldr]. rewrite IH.
    destruct (decide (c = x)) as [->|Hne].
    + rewrite lookup_total_insert_eq.
      rewrite (decide_False (P := x ∈ names)) by done.
      rewrite (decide_True (P := x ∈ x :: names)) by (apply elem_of_cons; by left).
      lia.
    + rewrite lookup_total_insert_ne by done.
      destruct (decide (c ∈ names)) as [Hin|Hin].
      * rewrite (decide_True (P := c ∈ x :: names))
          by (apply elem_of_cons; by right).
        lia.
      * rewrite (decide_False (P := c ∈ x :: names)); [lia|].
        intros [?|?]%elem_of_cons; done.
Qed.

Lemma terminal_counters_NoDup : NoDup terminal_counters.
Proof. by_compute. Qed.

Lemma counters_increment s c n :
  counters (increment s c n) = <[c := counters s !!! c + n]> (counters s).
Proof. done. Qed.

Lemma terminal_total_increment s c n :
  terminal_total (increment s c n) =
  terminal_total s + (if decide (c ∈ terminal_counters) then n else 0).
Proof.
  unfold terminal_total, increment. cbn [counters].
  rewrite sum_counters_insert by apply terminal_counters_NoDup.
  case_decide; lia.
Qed.

Section WithLib.
Context (L : Lib).

(** [_process_packet] touches the counters only through its outcome. *)
Lemma process_packet_stats l env data source :
  stats (_process_packet L l env data source).1 =
  match credited (_process_packet L l env data source).2 with
  | Some c => increment (stats l) c 1
  | None => stats l
  end.
Proof.
  unfold _process_packet.
  repeat (case_match; cbn [fst snd credited]; try reflexivity).
Qed.

Lemma process_packet_credit l env data source c :
  credited (_process_packet L l env data source).2 = Some c ->
  c ∈ terminal_counters.
Proof.
  unfold _process_packet.
  repeat (case_match; cbn [fst snd credited]; try discriminate;
          try (intros [= <-]; by_compute)).
Qed.

Lemma allow_ip_stats l now ip :
  stats (_allow_ip l now ip).1 =
  if (_allow_ip l now ip).2 then stats l
  else increment (stats l) "rate_limited" 1.
Proof.
  unfold _allow_ip. repeat (case_match; cbn [fst snd]; try reflexivity).
Qed.

Lemma receive_loop_step_stats l t1 t2 datagram source :
  stats (_receive_loop_step L l t1 t2 datagram source).1 =
  let received_one := increment (stats l) "received" 1 in
  match (_receive_loop_step L l t1 t2 datagram source).2 with
  | RateLimited => increment received_one "rate_limited" 1
  | Filtered | Queued _ => received_one
  end.
Proof.
  unfold _receive_loop_step.
  pose proof (allow_ip_stats (count l "received") t1 source.1) as Ha.
  destruct (_allow_ip (count l "received") t1 source.1) as [l1 ok].
  simpl in Ha. destruct (push _ _) as [rb clean] eqn:Hp.
  repeat case_match; simplify_eq; simpl; try done.
Qed.

Lemma process_loop_step_stats l env :
  stats (_process_loop_step L l env).1 =
  match (_process_loop_step L l env).2 with
  | Processed o =>
      match credited o with
      | Some c => increment (stats l) c 1
      | None => stats l
      end
  | Idle | Sampled | WorkerError => stats l
  end.
Proof.
  unfold _process_loop_step.
  destruct (pop (ring_buffer l)) as [rb [entry|]]; [|reflexivity].
  pose proof (process_packet_stats (with_ring_buffer l rb) env (data entry)
                (addr entry)) as Hp.
  destruct (_process_packet L (with_ring_buffer l rb) env (data entry)
              (addr entry)) as [l1 o].
  cbn [fst snd] in Hp.
  destruct o; cbn [credited] in Hp;
    destruct (system_mode (with_ring_buffer l rb));
    try destruct (capacity rb =? 0); try destruct (_ && _);
    cbn [fst snd credited]; (reflexivity || exact Hp).
Qed.

Lemma process_loop_step_credit l env o :
  (_process_loop_step L l env).2 = Processed o ->
  forall c, credited o = Some c -> c ∈ terminal_counters.
Proof.
  unfold _process_loop_step.
  destruct (pop (ring_buffer l)) as [rb [entry|]]; [|done].
  pose proof (process_packet_credit (with_ring_buffer l rb) env (data entry)
                (addr entry)) as Hp.
  destruct (_process_packet L (with_ring_buffer l rb) env (data entry)
              (addr entry)) as [l1 o1].
  cbn [fst snd] in Hp.
  destruct o1;
    destruct (system_mode (with_ring_buffer l rb));
    try destruct (capacity rb =? 0); try destruct (_ && _);
    cbn [fst snd]; try discriminate; intros [= <-]; exact Hp.
Qed.

Lemma maintenance_step_stats l now :
  stats (_maintenance_step l now) =
  if 0 <? dropped_count (ring_buffer l)
  then increment (stats l) "dropped_oldest" (dropped_count (ring_buffer l))
  else stats l.
Proof.
  unfold _maintenance_step.
  destruct (expire_replay _ _ _) as [exp cache].
  destruct (evict_replay _ _ _) as [exp' cache'].
  cbn. by case_match.
Qed.

End WithLib.

(** ** The checks of the listener, by what they look at *)




Section Checks.
Context (L : Lib) (l : FastPathListener) (env : ProcEnv) (data : list byte).

(** The datagram holds a header and a tag, and [h] is its header. *)
Definition parsed (h : Header) : Prop :=
  HEADER_SIZE + HMAC_SIZE <= Z.of_nat (length data) /\
  struct_unpack (slice_to (Z.to_nat HEADER_SIZE) data) = Some h.

(** ... with the magic, the version and the type of the protocol, *)
Definition framed (h : Header) : Prop :=
  parsed h /\ magic h = MAGIC /\ version h = VERSION /\
  pkt_type h = TYPE_ELEVATION.

(** ... and of the size its header announces. *)
Definition sized (h : Header) : Prop :=
  framed h /\ payload_len h <= MAX_PAYLOAD /\
  Z.of_nat (length data) = HEADER_SIZE + payload_len h + HMAC_SIZE.

Definition body_end (h : Header) : nat :=
  Z.to_nat (HEADER_SIZE + payload_len h).

Definition age_ms (h : Header) : Z :=
  Z.abs (int_of_Q (t_age env * 1000) - ts_unix_ms h).

(** The listener holds [key] under the key id of the header, the
    timestamp is at most five seconds off, and the tag is the HMAC of
    header and payload under [key]. *)
Definition signed (h : Header) (key : list byte) : Prop :=
  sized h /\ hmac_keys l !! key_id h = Some key /\ age_ms h <= 5000 /\
  slice_from (body_end h) data = hmac_sha256 L key (slice_to (body_end h) data).

(** The sequence number is among those seen from the source of the
    header, or 256 or more below the highest of them. *)
Definition sequence_seen (h : Header) : Prop :=
  let '(highest, seen) := default (0, ∅) (src_sequences l !! src_id h) in
  seq16 h <= highest - 256 \/ seq16 h ∈ seen.

(** Neither the sequence number nor the datagram has been seen. *)
Definition fresh (h : Header) : Prop :=
  (exists key, signed h key) /\ ~ sequence_seen h /\
  take 16 (sha256 L data) ∉ replay_cache l.

Definition payload (h : Header) : list byte :=
  slice (Z.to_nat HEADER_SIZE) (body_end h) data.





End Checks.

(** ** The receive loop and the workers, by what they look at *)

(** The hash of an entry received at 1700000000.5 from port 40001 is
    1700000000500039936 and not 1700000000500040001: the sum is rounded
    to a double, and doubles of that size are 256 apart. *)
Lemma sample_hash_rounds :
  let entry := {| data := []; addr := ("10.0.0.1"%string, 40001);
                  recv_time := 17000000005 # 10 |} in
  sample_hash entry = 1700000000500039936 /\ sample_hash entry mod 8 = 0.
Proof. by vm_compute. Qed.


Section Admission.
Context (L : Lib) (l : FastPathListener).








End Admission.



(** ** The path of an accepted packet *)

Definition is_delivered (o : outcome) : bool :=
  match o with Delivered _ _ => true | _ => false end.

Section Acceptance.
Context (L : Lib).



(** A packet whose source and sequence the replay window rejects is never
    delivered, whatever else holds of it. *)
Lemma process_packet_replayed l env data source h :
  struct_unpack (slice_to (Z.to_nat HEADER_SIZE) data) = Some h ->
  seq_check (src_sequences l) (src_id h) (seq16 h) = None ->
  is_delivered (_process_packet L l env data source).2 = false.
Proof.
  intros Hunpack Hseq. unfold _process_packet. rewrite Hunpack, Hseq.
  repeat (case_match; cbn [snd is_delivered]; try reflexivity).
Qed.

End Acceptance.

End ListenerFacts.

(* ===================================================================== *)
(** * Sender to listener                                                   *)
(* ===================================================================== *)

Module RoundTrip.
Import Wire WireFacts ListenerFacts.

Lemma pack_uints_nonneg fmt vs bs :
  Sender.pack_uints fmt vs = Some bs -> Forall (fun v => 0 <= v) vs.
Proof.
  revert vs bs. induction fmt as [|n fmt IH]; intros [|v vs] bs H;
    simpl in H; try discriminate; [constructor|].
  destruct (pack_uint n v) as [b|] eqn:Hb; [|discriminate].
  destruct (Sender.pack_uints fmt vs) as [r|] eqn:Hr; [|discriminate].
  constructor; [|by eapply IH].
  unfold pack_uint in Hb. case_match eqn:Hc; [|done].
  apply andb_prop in Hc as [H1 _]. by apply Z.leb_le.
Qed.

Lemma struct_unpack_magic r v t ts src sq nonce plen kid :
  length r = list_sum Listener.HEADER_FMT ->
  Listener.unpack_uints Listener.HEADER_FMT r =
    [v; t; ts; src; sq; nonce; plen; kid] ->
  Listener.struct_unpack (Listener.MAGIC ++ r) =
  Some {| Listener.magic := Listener.MAGIC; Listener.version := v;
          Listener.pkt_type := t; Listener.ts_unix_ms := ts;
          Listener.src_id := src; Listener.seq16 := sq;
          Listener.nonce32 := nonce; Listener.payload_len := plen;
          Listener.key_id := kid |}.
Proof.
  intros Hlen Hun. unfold Listener.struct_unpack.
  rewrite length_app, Hlen.
  change (drop 4 (Listener.MAGIC ++ r)) with r.
  change (take 4 (Listener.MAGIC ++ r)) with Listener.MAGIC.
  rewrite Hun. reflexivity.
Qed.

(** The listener reads back the header the sender packed. *)
Lemma struct_unpack_pack v t ts src sq nonce plen kid hb :
  Sender.struct_pack Sender.V3_HEADER_FMT Sender.MAGIC
    [v; t; ts; src; sq; nonce; plen; kid] = Some hb ->
  length hb = 27%nat /\ 0 <= sq /\ 0 <= plen /\
  Listener.struct_unpack hb =
  Some {| Listener.magic := Listener.MAGIC; Listener.version := v;
          Listener.pkt_type := t; Listener.ts_unix_ms := ts;
          Listener.src_id := src; Listener.seq16 := sq;
          Listener.nonce32 := nonce; Listener.payload_len := plen;
          Listener.key_id := kid |}.
Proof.
  unfold Sender.struct_pack.
  destruct (Sender.pack_uints _ _) as [r|] eqn:Hr; [|discriminate].
  intros [= <-].
  pose proof (pack_uints_length _ _ _ Hr) as Hlen.
  pose proof (pack_uints_nonneg _ _ _ Hr) as Hnn.
  pose proof (unpack_pack_uints _ _ _ [] Hr) as Hun. rewrite app_nil_r in Hun.
  split; [simpl length; by rewrite Hlen|].
  rewrite !Forall_cons in Hnn. split; [tauto|]. split; [tauto|].
  exact (struct_unpack_magic r _ _ _ _ _ _ _ _ Hlen Hun).
Qed.

Section WithLib.
Context (L : Lib).

Lemma build_packet_inv s now rand sq payload pkt :
  Sender.protocol_version s = Sender.V3 ->
  Sender._build_packet L s now rand sq payload = Ret pkt ->
  exists hb,
    Sender.struct_pack Sender.V3_HEADER_FMT Sender.MAGIC
      [Sender.V3; Sender.TYPE_ELEVATION; int_of_Q (now * 1000);
       Sender.src_id s; sq;
       Sender.nonce32 rand sq (Sender.sequence s - 1);
       Z.of_nat (length payload); Sender.key_id s] = Some hb /\
    pkt = (hb ++ payload) ++
          hmac_sha256 L (Sender.hmac_key s) (hb ++ payload).
Proof.
  intros Hv. unfold Sender._build_packet.
  rewrite SenderFacts.header_fmt_v3 by done. rewrite Hv.
  change (Sender.V3 =? Sender.V3) with true. cbv iota.
  destruct (Sender.struct_pack _ _ _) as [hb|]; [|discriminate].
  intros [= <-]. by exists hb.
Qed.


End WithLib.

(** ** A concrete exchange *)

Definition sample_key : list byte := [x6b; x65; x79].

Definition sample_listener : Listener.FastPathListener :=
  Listener.init {[1 := sample_key]} 10000 60 [].

Definition sample_proc_env : Listener.ProcEnv :=
  {| Listener.t_age := 1700000001; Listener.t_cache := 1700000001;
     Listener.t_wall := 1700000001 |}.

Definition sample_source : string * Z := ("10.0.0.1"%string, 40000).

(** The packet the sender of [SenderFacts.young_sender] builds around a
    payload, one second before the listener looks at it. *)
Definition sample_packet (payload : list byte) : list byte :=
  match Sender._build_packet Examples.lib SenderFacts.young_sender
          1700000000 2863311530 4 payload with
  | Ret pkt => pkt
  | Raise _ => []
  end.

Definition packet_empty_object : list byte :=
  Eval vm_compute in sample_packet Examples.doc_empty_object.
Definition packet_empty_array : list byte :=
  Eval vm_compute in sample_packet Examples.doc_empty_array.

Lemma pad32_length bs : length (Examples.pad32 bs) = 32%nat.
Proof.
  unfold Examples.pad32. rewrite length_take, length_app, length_replicate. lia.
Qed.



(** A payload that is JSON but not an object makes [_process_packet]
    fail on [payload_data.get]: nothing is delivered and no counter moves. *)
Lemma non_object_payload_raises :
  let r := Listener._process_packet Examples.lib sample_listener
             sample_proc_env packet_empty_array sample_source in
  r.2 = Listener.Failed AttributeError /\
  Listener.stats r.1 = Listener.stats sample_listener.
Proof. vm_compute. split; reflexivity. Qed.

End RoundTrip.

(* ===================================================================== *)
(** * The aggregator: decision, statistics, artifacts                      *)
(* ===================================================================== *)

Module GossipFacts.
Import Gossip.

Lemma Qlt_bool_iff a b : Qlt_bool a b = true <-> (a < b)%Q.
Proof.
  unfold Qlt_bool. rewrite negb_true_iff.
  split.
  - intros H. apply Qnot_le_lt. intros Hle.
    apply Qle_bool_iff in Hle. congruence.
  - intros H. destruct (Qle_bool b a) eqn:E; [|done].
    apply Qle_bool_iff in E. exfalso. by apply (Qlt_not_le a b).
Qed.

Lemma Qlt_bool_false a b : Qlt_bool a b = false <-> (b <= a)%Q.
Proof.
  unfold Qlt_bool. rewrite negb_false_iff. apply Qle_bool_iff.
Qed.

Lemma Qle_bool_false a b : Qle_bool a b = false <-> (b < a)%Q.
Proof.
  split.
  - intros H. apply Qnot_le_lt. intros Hle.
    apply Qle_bool_iff in Hle. congruence.
  - intros H. destruct (Qle_bool a b) eqn:E; [|done].
    apply Qle_bool_iff in E. exfalso. by apply (Qlt_not_le b a).
Qed.

(** ** Watchers that the code can produce *)

Section WithLib.
Context (L : Lib).

Inductive reachable : DualPathWatcher -> Prop :=
| reach_init ns window_ms quorum node_thr fast_thr :
    reachable (init ns window_ms quorum node_thr fast_thr)
| reach_decide w now m :
    reachable w -> reachable (should_elevate w now m).2
| reach_signal w env run sig :
    reachable w -> reachable (on_lease_signal L w env run sig).1
| reach_fastpath w t1 t2 data :
    reachable w -> reachable (handle_fastpath_signal L w t1 t2 data).1.

(** Until the watcher has elevated, its hysteresis counter is 0 or 1, and
    the backoff is the constant 2 s. *)
Definition decision_inv (w : DualPathWatcher) : Prop :=
  elevation_backoff w = 2%Q /\
  (elevated w = false -> 0 <= consecutive_elevations w <= 1).

Lemma should_elevate_inv w now m :
  decision_inv w -> decision_inv (should_elevate w now m).2.
Proof.
  intros [Hb Hc]. unfold should_elevate.
  destruct m as [m|]; [|done].
  repeat case_match; cbn [snd]; (split; [exact Hb|]); cbn; intros He;
    try discriminate; try congruence;
    (try specialize (Hc He)); (try specialize (Hc eq_refl));
    repeat match goal with
           | H : (_ <=? _) = false |- _ => apply Z.leb_gt in H
           end; lia.
Qed.

Lemma reachable_inv w : reachable w -> decision_inv w.
Proof.
  induction 1 as [| w now m _ IH | w env run sig _ IH | w t1 t2 data _ IH].
  - split; [done|]. cbn. lia.
  - by apply should_elevate_inv.
  - unfold on_lease_signal.
    set (w1 := append_signal w sig).
    assert (H1 : decision_inv w1) by (destruct IH; split; done).
    destruct (compute_sliding_window_quorum w1 (wall_now env) run) as [m|];
      [|done].
    pose proof (should_elevate_inv w1 (perf_decide env) (Some m) H1) as H2.
    destruct (should_elevate w1 (perf_decide env) (Some m)) as [[go r] w2].
    cbn [snd] in H2. destruct go; [|done].
    destruct H2 as [Hb Hc]. split; done.
  - unfold handle_fastpath_signal.
    repeat (case_match; cbn [fst]; try done).
    destruct IH as [Hb Hc]. split; [done|]. cbn. discriminate.
Qed.

End WithLib.

Ltac by_compute_forall :=
  repeat (apply Forall_cons; split; [vm_compute; reflexivity|]);
  apply Forall_nil_2.

(** Close a goal from contradictory or immediate facts. *)
Ltac settle :=
  destruct_and?; destruct_or?; destruct_and?;
  try done; try tauto; try lia; try discriminate.

(** C4 — the elevation predicate.  On non-empty metrics, [should_elevate]
    grants elevation exactly when the 2 s backoff has elapsed, the watcher
    has not elevated yet, the witnesses reach the quorum threshold, and
    either p95 reaches the fast-path score or the mean reaches the node
    score threshold on the evaluation that takes the consecutive counter to
    2.  With the first three met and both score conditions failing the
    counter is reset to zero.  The checks come in the order backoff,
    already-elevated, quorum, fast path, hysteresis. *)
Theorem c4_elevation_predicate (L : Lib) (w : DualPathWatcher) (now : Q)
  (m : QuorumMetrics) :
  reachable L w ->
  let go := (should_elevate w now (Some m)).1.1 in
  let why := (should_elevate w now (Some m)).1.2 in
  let w' := (should_elevate w now (Some m)).2 in
  let a := (2 <= now - last_elevation w)%Q in
  let b := elevated w = false in
  let c := quorum_threshold w <= witness_count m in
  let fast := (fast_path_score w <= p95_score m)%Q in
  let high := (node_score_threshold w <= mean_score m)%Q in
  (go = true <->
   a /\ b /\ c /\ (fast \/ (high /\ consecutive_elevations w + 1 = 2))) /\
  (a -> b -> c -> ~ fast -> ~ high ->
   go = false /\ why = reset_hysteresis /\ consecutive_elevations w' = 0) /\
  (~ a -> why = backoff) /\
  (a -> ~ b -> why = already_elevated) /\
  (a -> b -> ~ c -> why = quorum (witness_count m) (quorum_threshold w)) /\
  (a -> b -> c -> fast ->
   why = fast_path (witness_count m) (p95_score m) /\ elevated w' = true) /\
  (a -> b -> c -> ~ fast -> high ->
   consecutive_elevations w' = consecutive_elevations w + 1 /\
   ((consecutive_elevations w' = 2 /\ elevated w' = true /\
     why = hysteresis (witness_count m) (mean_score m) 2) \/
    (consecutive_elevations w' = 1 /\ go = false /\ why = building 1))).
Proof.
  intros Hreach. apply reachable_inv in Hreach as [Hback Hcount].
  cbv zeta. unfold should_elevate. rewrite Hback.
  destruct (Qlt_bool (now - last_elevation w) 2) eqn:Ea.
  { apply Qlt_bool_iff in Ea. cbn [fst snd].
    assert (Hna : ~ (2 <= now - last_elevation w)%Q) by (by apply Qlt_not_le).
    repeat split; intros; settle. }
  apply Qlt_bool_false in Ea.
  destruct (elevated w) eqn:Eb.
  { cbn [fst snd]. repeat split; intros; settle. }
  specialize (Hcount eq_refl).
  destruct (witness_count m <? quorum_threshold w) eqn:Ec.
  { apply Z.ltb_lt in Ec. cbn [fst snd]. repeat split; intros; settle. }
  apply Z.ltb_ge in Ec.
  assert (Ec' : (quorum_threshold w <=? witness_count m) = true)
    by (by apply Z.leb_le).
  rewrite Ec'. cbn [andb].
  destruct (Qle_bool (fast_path_score w) (p95_score m)) eqn:Ef.
  { apply Qle_bool_iff in Ef. cbn [fst snd]. repeat split; intros; settle. }
  apply Qle_bool_false in Ef.
  assert (Hnf : ~ (fast_path_score w <= p95_score m)%Q) by (by apply Qlt_not_le).
  destruct (Qle_bool (node_score_threshold w) (mean_score m)) eqn:Eh.
  - apply Qle_bool_iff in Eh.
    destruct (2 <=? consecutive_elevations w + 1) eqn:E2.
    + apply Z.leb_le in E2. cbn [fst snd].
      assert (consecutive_elevations w + 1 = 2) as E by lia.
      repeat split; intros; settle.
      cbn. left. rewrite E. done.
    + apply Z.leb_gt in E2. cbn [fst snd].
      assert (consecutive_elevations w + 1 = 1) as E by lia.
      repeat split; intros; settle.
      cbn. right. rewrite E. done.
  - apply Qle_bool_false in Eh.
    assert (Hnh : ~ (node_score_threshold w <= mean_score m)%Q)
      by (by apply Qlt_not_le).
    cbn [fst snd]. repeat split; intros; settle.
Qed.

Lemma c4_elevation_predicate_witness :
  let m := QuorumMetrics_new 3 3 (8 # 10) (95 # 100) 0 1 in
  (should_elevate default_watcher 10 (Some m)).1.1 = true /\
  (should_elevate default_watcher 10 (Some m)).1.2 = fast_path 3 (95 # 100).
Proof.
  pose (m := QuorumMetrics_new 3 3 (8 # 10) (95 # 100) 0 1).
  destruct (c4_elevation_predicate Examples.lib default_watcher 10 m
              (reach_init Examples.lib "aswarm" 80 3 (7 # 10) (90 # 100)))
    as (Hgo & _ & _ & _ & _ & Hfast & _).
  assert (Ha : (2 <= 10 - last_elevation default_watcher)%Q)
    by (vm_compute; intros H; discriminate H).
  assert (Hc : quorum_threshold default_watcher <= witness_count m)
    by (vm_compute; intros H; discriminate H).
  assert (Hf : (fast_path_score default_watcher <= p95_score m)%Q)
    by (vm_compute; intros H; discriminate H).
  split.
  - apply Hgo. split; [exact Ha|]. split; [reflexivity|].
    split; [exact Hc|]. left. exact Hf.
  - exact (proj1 (Hfast Ha eq_refl Hc Hf)).
Defined.

(** ** Quorum statistics *)

(** The statistics as the specification words them: the number of
    distinct node identifiers, the arithmetic mean, and the nearest-rank
    95th percentile, which is the value of rank [ceil(0.95 n)] (counting
    from 1) in ascending order. *)
Definition distinct_nodes (ws : list LeaseSignal) : nat :=
  length (remove_dups (map node ws)).

Definition arithmetic_mean (xs : list Q) : Q :=
  (foldr Qplus 0 xs / inject_Z (Z.of_nat (length xs)))%Q.

Definition nearest_rank_index (n : nat) : nat :=
  (Z.to_nat ((95 * Z.of_nat n + 99) / 100) - 1)%nat.

Definition nearest_rank_p95 (xs : list Q) : Q :=
  nth (nearest_rank_index (length xs)) (sorted xs) 0%Q.

Lemma insert_sorted_perm x l : Permutation (insert_sorted x l) (x :: l).
Proof.
  induction l as [|y l IH]; simpl; [done|].
  case_match; [done|]. rewrite IH. apply perm_swap.
Qed.

Lemma sorted_perm l : Permutation (sorted l) l.
Proof.
  induction l as [|x l IH]; simpl; [done|].
  unfold sorted in *. simpl. rewrite insert_sorted_perm. by rewrite IH.
Qed.

Lemma insert_sorted_sorted x l :
  StronglySorted Qle l -> StronglySorted Qle (insert_sorted x l).
Proof.
  induction 1 as [|y l Hs IH Hall]; simpl.
  - repeat constructor.
  - destruct (Qle_bool x y) eqn:E.
    + apply Qle_bool_iff in E. constructor; [by constructor|].
      constructor; [done|].
      eapply Forall_impl; [exact Hall|]. intros z Hz. simpl in Hz.
      by eapply Qle_trans.
    + apply Qle_bool_false in E. constructor; [done|].
      rewrite (insert_sorted_perm x l). constructor; [|done].
      by apply Qlt_le_weak.
Qed.

Lemma sorted_sorted l : StronglySorted Qle (sorted l).
Proof.
  unfold sorted. induction l as [|x l IH]; simpl; [constructor|].
  by apply insert_sorted_sorted.
Qed.

Lemma Qsum_foldr xs a : (fold_left Qplus xs a == a + foldr Qplus 0 xs)%Q.
Proof.
  revert a. induction xs as [|x xs IH]; intros a; simpl.
  - by rewrite Qplus_0_r.
  - rewrite IH. by rewrite Qplus_assoc.
Qed.

Lemma p95_index_floor n : p95_index n = Z.to_nat (95 * Z.of_nat n / 100).
Proof.
  unfold p95_index, int_of_Q. simpl Qnum. simpl Qden.
  rewrite Z.quot_div_nonneg by lia. reflexivity.
Qed.

Lemma p95_index_in_range n : (0 < n)%nat -> (p95_index n < n)%nat.
Proof.
  intros Hn. rewrite p95_index_floor.
  assert (95 * Z.of_nat n / 100 < Z.of_nat n)
    by (apply Z.div_lt_upper_bound; lia).
  assert (0 <= 95 * Z.of_nat n / 100) by (apply Z.div_pos; lia).
  lia.
Qed.

Lemma p95_index_nearest_rank n :
  (n mod 20 <> 0)%nat -> p95_index n = nearest_rank_index n.
Proof.
  intros Hn. rewrite p95_index_floor. unfold nearest_rank_index.
  assert (Hm : (95 * Z.of_nat n) mod 100 <> 0).
  { intros H. apply Hn.
    assert (Z.of_nat n mod 20 = 0) as H20.
    { apply Z.mod_divide in H; [|lia]. destruct H as [k Hk].
      apply Z.mod_divide; [lia|].
      apply (Z.gauss 20 19 (Z.of_nat n)); [exists k; lia|reflexivity]. }
    apply Nat2Z.inj. rewrite Nat2Z.inj_mod. done. }
  pose proof (Z.div_mod (95 * Z.of_nat n) 100 ltac:(lia)) as Hd.
  pose proof (Z.mod_pos_bound (95 * Z.of_nat n) 100 ltac:(lia)) as Hb.
  assert ((95 * Z.of_nat n + 99) / 100 = 95 * Z.of_nat n / 100 + 1) as ->.
  { symmetry. apply Z.div_unique with
      (r := (95 * Z.of_nat n) mod 100 - 1); lia. }
  assert (0 <= 95 * Z.of_nat n / 100) by (apply Z.div_pos; lia).
  lia.
Qed.

(** C5 (amended) — quorum statistics.  For a non-empty window (the signals
    with a server timestamp within the last W ms and, under a run id, that
    run id), [witness_count] is the number of distinct node identifiers,
    [mean_score] the arithmetic mean of the scores, and [p95_score] the
    score at index [floor(0.95 n)] (counting from 0) of the scores in
    ascending order; this is the nearest-rank 95th percentile whenever [n]
    is not a multiple of 20. *)
Theorem c5_quorum_statistics (w : DualPathWatcher) (now : Q)
  (run : option string) (m : QuorumMetrics) :
  compute_sliding_window_quorum w now run = Some m ->
  let ws := window_signals w now run in
  let scores := map score ws in
  let n := length ws in
  (0 < n)%nat /\
  (forall s, In s ws <->
     In s (signals w) /\
     exists ts, server_ts s = Some ts /\ (now - window_s w <= ts)%Q /\
                (run = None \/ run_id s = run)) /\
  witness_count m = Z.of_nat (distinct_nodes ws) /\
  (mean_score m == arithmetic_mean scores)%Q /\
  Permutation (sorted scores) scores /\ StronglySorted Qle (sorted scores) /\
  (Z.to_nat (95 * Z.of_nat n / 100) < n)%nat /\
  p95_score m = nth (Z.to_nat (95 * Z.of_nat n / 100)) (sorted scores) 0%Q /\
  ((n mod 20 <> 0)%nat -> p95_score m = nearest_rank_p95 scores).
Proof.
  intros Hm. cbv zeta. unfold compute_sliding_window_quorum in Hm.
  destruct (window_signals w now run) as [|s0 ws0] eqn:Hws; [done|].
  injection Hm as <-. cbn [witness_count mean_score p95_score QuorumMetrics_new].
  set (ws := s0 :: ws0) in *.
  split; [simpl; lia|].
  split.
  { intros s. rewrite <- Hws. unfold window_signals.
    rewrite filter_In. unfold in_window.
    split.
    - intros [Hin Hc]. split; [done|].
      destruct (server_ts s) as [ts|]; [|done].
      apply andb_prop in Hc as [H1 H2]. exists ts.
      split; [done|]. split; [by apply Qle_bool_iff|].
      destruct run as [r|]; [|by left]. right.
      by apply bool_decide_eq_true in H2.
    - intros [Hin (ts & Hts & Hle & Hrun)]. split; [done|].
      rewrite Hts. apply andb_true_intro. split; [by apply Qle_bool_iff|].
      destruct run as [r|]; [|done].
      apply bool_decide_eq_true. destruct Hrun; [done|done]. }
  split.
  { f_equal. unfold distinct_nodes.
    rewrite <- (size_list_to_set (C := gset string) (remove_dups (map node ws)))
      by apply NoDup_remove_dups.
    f_equal. apply set_eq. intros x.
    rewrite elem_of_union, elem_of_singleton, !elem_of_list_to_set.
    rewrite elem_of_remove_dups. unfold ws. simpl. by rewrite elem_of_cons. }
  split.
  { unfold arithmetic_mean, Qsum. rewrite Qsum_foldr, Qplus_0_l.
    reflexivity. }
  split; [apply sorted_perm|]. split; [apply sorted_sorted|].
  rewrite length_map.
  split; [rewrite <- p95_index_floor; apply p95_index_in_range; simpl; lia|].
  split; [by rewrite p95_index_floor|].
  intros Hn. unfold nearest_rank_p95. rewrite length_map.
  by rewrite p95_index_nearest_rank.
Qed.

(** Twenty signals of one node with the scores 1/20, 2/20, ..., 20/20, all
    inside the window. *)
Definition twenty_signals : list LeaseSignal :=
  map (fun i => {| node := "node-1"; seq := i; score := i # 20;
                   elevate := false; client_ts := None;
                   server_ts := Some 100%Q; elevate_ts := None;
                   run_id := None |})
    [1; 2; 3; 4; 5; 6; 7; 8; 9; 10; 11; 12; 13; 14; 15; 16; 17; 18; 19; 20].

Definition watcher_with_twenty : DualPathWatcher :=
  with_signals default_watcher twenty_signals.

Lemma c5_quorum_statistics_witness :
  exists m,
    compute_sliding_window_quorum watcher_with_twenty 100 None = Some m /\
    witness_count m = 1 /\ p95_score m = 20 # 20.
Proof.
  pose (m := QuorumMetrics_new 1 20
               (Qsum (map score twenty_signals) / inject_Z 20)
               (20 # 20)
               (100 - window_s watcher_with_twenty)%Q 100%Q).
  assert (Hm : compute_sliding_window_quorum watcher_with_twenty 100 None
               = Some m) by (vm_compute; reflexivity).
  exists m. split; [exact Hm|].
  destruct (c5_quorum_statistics watcher_with_twenty 100 None m Hm)
    as (_ & _ & Hw & _ & _ & _ & _ & Hp & _).
  split; [exact Hw | exact Hp].
Defined.

(** The claim as the specification has it fails: for these twenty signals
    the nearest-rank 95th percentile is the 19th score, 19/20, and the code
    reports the 20th, 20/20. *)
Lemma c5_counterexample :
  exists m,
    compute_sliding_window_quorum watcher_with_twenty 100 None = Some m /\
    Forall (fun s => LeaseSignal_valid s = true) twenty_signals /\
    window_signals watcher_with_twenty 100 None = twenty_signals /\
    (nearest_rank_p95 (map score twenty_signals) == 19 # 20)%Q /\
    (p95_score m == 20 # 20)%Q /\
    ~ (p95_score m == nearest_rank_p95 (map score twenty_signals))%Q.
Proof.
  eexists. split; [vm_compute; reflexivity|].
  split; [by_compute_forall|].
  split; [vm_compute; reflexivity|].
  split; [vm_compute; reflexivity|].
  split; [vm_compute; reflexivity|].
  vm_compute. intros H. discriminate H.
Qed.

(** ** Elevation artifacts *)

Definition lease_artifact_keys : list string :=
  ["run_id"; "decision_ts_server"; "witness_count"; "mean_score";
   "p95_score"; "threshold"; "window_ms"; "reason"]%string.

Definition fastpath_artifact_keys : list string :=
  ["elevation"; "decision_ts_server"; "source"; "node"; "score";
   "witness_count"; "selector"; "event_type"; "latency_ms"; "run_id"]%string.

(** The record the writer of the lease path creates. *)
Definition lease_artifact (L : Lib) (w : DualPathWatcher)
  (m : QuorumMetrics) (run : option string) (ts reason : string)
  : V1ConfigMap :=
  {| cm_name := match run with
                | Some r => if String.eqb r EmptyString then "aswarm-elevated"
                            else "aswarm-elevated-" ++ r
                | None => "aswarm-elevated"
                end%string;
     cm_namespace := namespace w;
     cm_labels := [("type", JStr "elevation");
                   ("aswarm.ai/component", JStr "pheromone");
                   ("aswarm.ai/run-id", opt_str run)];
     cm_data := [("elevation.json"%string,
                  json_dumps L Indent2
                    (JDict (elevation_data_bg w m run ts reason)))] |}.

(** The record the writer of the fast path creates. *)
Definition fastpath_artifact (L : Lib) (w : DualPathWatcher)
  (ev : list (string * json)) : V1ConfigMap :=
  let run := dict_get_default "run_id" (JStr EmptyString) ev in
  {| cm_name := if truthy run
                then ("aswarm-elevated-fastpath-" ++ fmt L run)%string
                else "aswarm-elevated-fastpath"%string;
     cm_namespace := namespace w;
     cm_labels := [("type", JStr "elevation");
                   ("aswarm.ai/component", JStr "pheromone");
                   ("aswarm.ai/source", JStr "fastpath");
                   ("aswarm.ai/run-id", run)];
     cm_data := [("elevation.json"%string,
                  json_dumps L Indent2 (JDict ev))] |}.

Lemma exn_str_409 detail : contains "409" (exn_str (ApiException 409 detail)) = true.
Proof. reflexivity. Qed.

Lemma create_conflict cluster ns cm :
  is_Some (cluster !! (ns, cm_name cm)) ->
  create_namespaced_config_map cluster None ns cm =
  (cluster, Some (ApiException 409 "Conflict")).
Proof. intros [x Hx]. unfold create_namespaced_config_map. by rewrite Hx. Qed.

Lemma create_fresh cluster ns cm :
  cluster !! (ns, cm_name cm) = None ->
  create_namespaced_config_map cluster None ns cm =
  (<[(ns, cm_name cm) := cm]> cluster, None).
Proof. intros Hx. unfold create_namespaced_config_map. by rewrite Hx. Qed.

Lemma handle_fastpath_spawned L w t1 t2 data w' ev :
  handle_fastpath_signal L w t1 t2 data = (w', Spawned ev) ->
  dict_keys ev = fastpath_artifact_keys /\ elevated w' = true /\
  last_elevation w' = t2 /\
  dict_get "run_id" ev =
    Some (dict_get_default "run_id" (JStr EmptyString) data).
Proof.
  unfold handle_fastpath_signal.
  destruct (json_get _ "score" _) as [score|]; cbn [bind]; [|done].
  destruct (json_lt_float score _) as [[]|]; cbn [bind]; [done| |done].
  destruct (json_get _ "witness_count" _) as [wc|]; cbn [bind]; [|done].
  destruct (json_get _ "selector" _) as [sel|]; cbn [bind]; [|done].
  destruct (json_get _ "event_type" _) as [et|]; cbn [bind]; [|done].
  destruct (json_get _ "approx_age_ms" _) as [lat|]; cbn [bind]; [|done].
  intros [= <- <-]. done.
Qed.

(** C6 (amended) — elevation artifacts.  A lease-path elevation starts the
    background writer, which makes exactly one call, a create, of the
    record [aswarm-elevated-<runid>] ([aswarm-elevated] without a run id)
    whose only data field [elevation.json] holds run_id,
    decision_ts_server, witness_count, mean_score, p95_score, threshold,
    window_ms and reason.  A fast-path elevation creates, again with one
    create and no patch, the record [aswarm-elevated-fastpath-<runid>]
    whose [elevation.json] holds the fast-path event.  A 409 on creation,
    from a fault or from an existing record, is benign for both writers: no
    error is reported, nothing escapes, the cluster is unchanged. *)
Theorem c6_elevation_artifacts (L : Lib) (w : DualPathWatcher)
  (cluster : gmap (string * string) V1ConfigMap) :
  (forall env run sig m,
     compute_sliding_window_quorum (append_signal w sig) (wall_now env) run
       = Some m ->
     (should_elevate (append_signal w sig) (perf_decide env) (Some m)).1.1
       = true ->
     exists a, (on_lease_signal L w env run sig).2 = Some a /\
               bg_metrics a = m /\ bg_run_id a = run) /\
  (forall fault m run ts reason,
     let wr := create_elevation_artifact_bg L w cluster fault m run ts reason in
     let cm := lease_artifact L w m run ts reason in
     calls wr = [Create (namespace w) cm] /\
     dict_keys (elevation_data_bg w m run ts reason) = lease_artifact_keys /\
     escaped wr = None /\
     (forall detail, fault = Some (ApiException 409 detail) ->
        errors wr = [] /\ cluster_after wr = cluster) /\
     (fault = None -> is_Some (cluster !! (namespace w, cm_name cm)) ->
        errors wr = [] /\ cluster_after wr = cluster) /\
     (fault = None -> cluster !! (namespace w, cm_name cm) = None ->
        errors wr = [] /\
        cluster_after wr = <[(namespace w, cm_name cm) := cm]> cluster)) /\
  (forall t1 t2 data w' ev,
     handle_fastpath_signal L w t1 t2 data = (w', Spawned ev) ->
     dict_keys ev = fastpath_artifact_keys /\ elevated w' = true) /\
  (forall fault ev,
     let wr := create_fastpath_elevation_artifact L w cluster fault ev in
     let cm := fastpath_artifact L w ev in
     calls wr = [Create (namespace w) cm] /\
     (forall detail, fault = Some (ApiException 409 detail) ->
        errors wr = [] /\ escaped wr = None /\ cluster_after wr = cluster) /\
     (fault = None -> is_Some (cluster !! (namespace w, cm_name cm)) ->
        errors wr = [] /\ escaped wr = None /\ cluster_after wr = cluster) /\
     (fault = None -> cluster !! (namespace w, cm_name cm) = None ->
        errors wr = [] /\ escaped wr = None /\
        cluster_after wr = <[(namespace w, cm_name cm) := cm]> cluster)).
Proof.
  split; [|split; [|split]].
  - intros env run sig m Hm Hgo. unfold on_lease_signal. rewrite Hm.
    destruct (should_elevate (append_signal w sig) (perf_decide env) (Some m))
      as [[go r] w2]. cbn [fst] in Hgo. subst go. cbn [snd].
    eexists. split; [reflexivity|]. done.
  - intros fault m run ts reason wr cm.
    assert (Hcm : forall r,
               create_namespaced_config_map cluster fault (namespace w) cm = r ->
               wr = {| cluster_after := r.1;
                       calls := [Create (namespace w) cm];
                       errors := match r.2 with
                                 | Some e =>
                                     if contains "409" (exn_str e) then []
                                     else report
                                            "Background artifact creation error: " e
                                 | None => []
                                 end;
                       escaped := None |}).
    { intros r <-. subst wr cm. unfold create_elevation_artifact_bg, lease_artifact.
      destruct run as [r|]; cbn [str_truthy default];
        [destruct (String.eqb r EmptyString); cbn [negb]|];
        destruct (create_namespaced_config_map _ _ _ _); reflexivity. }
    split; [by rewrite (Hcm _ eq_refl)|]. split; [reflexivity|].
    split; [by rewrite (Hcm _ eq_refl)|].
    split; [|split].
    + intros detail ->. rewrite (Hcm _ eq_refl). cbn. done.
    + intros -> Hex. rewrite (Hcm _ (create_conflict _ _ _ Hex)). cbn. done.
    + intros -> Hnew. rewrite (Hcm _ (create_fresh _ _ _ Hnew)). cbn. done.
  - intros t1 t2 data w' ev Hs.
    destruct (handle_fastpath_spawned L w t1 t2 data w' ev Hs) as (? & ? & _).
    done.
  - intros fault ev wr cm.
    assert (Hcm : forall r,
               create_namespaced_config_map cluster fault (namespace w) cm = r ->
               wr = {| cluster_after := r.1;
                       calls := [Create (namespace w) cm];
                       errors := match r.2 with
                                 | Some (ApiException status _ as e) =>
                                     if status =? 409 then []
                                     else report
                                            "Failed to create fast-path artifact: " e
                                 | _ => []
                                 end;
                       escaped := match r.2 with
                                  | Some (OtherException t) => r.2
                                  | _ => None
                                  end |}).
    { intros r <-. subst wr cm.
      unfold create_fastpath_elevation_artifact, fastpath_artifact.
      destruct (create_namespaced_config_map _ _ _ _); reflexivity. }
    split; [by rewrite (Hcm _ eq_refl)|].
    split; [|split].
    + intros detail ->. rewrite (Hcm _ eq_refl). cbn. done.
    + intros -> Hex. rewrite (Hcm _ (create_conflict _ _ _ Hex)). cbn. done.
    + intros -> Hnew. rewrite (Hcm _ (create_fresh _ _ _ Hnew)). cbn. done.
Qed.

(** A fast-path signal of run [r1] with score 0.95. *)
Definition sample_signal : list (string * json) :=
  [("node_id", JStr "n1"); ("run_id", JStr "r1");
   ("anomaly", JDict [("score", JFloat (95 # 100))])].

Definition sample_event : list (string * json) :=
  match (handle_fastpath_signal Examples.lib default_watcher 0 10
           sample_signal).2 with
  | Spawned ev => ev
  | _ => []
  end.

Lemma c6_elevation_artifacts_witness :
  dict_keys sample_event = fastpath_artifact_keys /\
  errors (create_fastpath_elevation_artifact Examples.lib default_watcher ∅
            (Some (ApiException 409 "Conflict")) sample_event) = [].
Proof.
  destruct (c6_elevation_artifacts Examples.lib default_watcher ∅)
    as (_ & _ & Hev & Hfp).
  split.
  - refine (proj1 (Hev 0%Q 10%Q sample_signal
                     (with_decision default_watcher 10 0 true) sample_event _)).
    vm_compute. reflexivity.
  - exact (proj1 (proj1 (proj2 (Hfp (Some (ApiException 409 "Conflict"))
                                  sample_event)) "Conflict"%string eq_refl)).
Defined.

(** The claim as the specification has it fails: the elevation triggered by
    the fast-path signal above is written to a record of another name, and
    its [elevation.json] has neither [mean_score] nor [confidence]; the
    document of the lease path has no [confidence] either. *)
Lemma c6_counterexample :
  (handle_fastpath_signal Examples.lib default_watcher 0 10 sample_signal).2
    = Spawned sample_event /\
  map (fun c => match c with
                | Create _ cm => cm_name cm
                | Patch _ n => n
                end)
    (calls (create_fastpath_elevation_artifact Examples.lib default_watcher
              ∅ None sample_event))
    = ["aswarm-elevated-fastpath-r1"%string] /\
  "aswarm-elevated-fastpath-r1"%string <> "aswarm-elevated-r1"%string /\
  dict_get "mean_score" sample_event = None /\
  dict_get "confidence" sample_event = None /\
  dict_get "confidence"
    (elevation_data_bg default_watcher
       (QuorumMetrics_new 3 3 (8 # 10) (95 # 100) 0 1) (Some "r1"%string)
       "2025-01-01T00:00:00+00:00" "fast_path") = None.
Proof. repeat split; try (vm_compute; reflexivity). discriminate. Qed.

End GossipFacts.

(* ===================================================================== *)
(** * The catalog: failures as values, TTL table                           *)
(* ===================================================================== *)

Module MicroActFacts.
Import MicroAct.

(** ** Insertion-ordered dicts *)

Section Dict.
Context {A : Type}.
Implicit Types (d : list (string * A)) (k h : string).

Lemma dict_get_set_eq k v d : dict_get k (dict_set k v d) = Some v.
Proof.
  induction d as [|[k' v'] d IH]; simpl.
  - by rewrite String.eqb_refl.
  - destruct (String.eqb k k') eqn:E; simpl; rewrite ?String.eqb_refl, ?E; done.
Qed.



Lemma dict_get_None k d : dict_get k d = None <-> k ∉ dict_keys d.
Proof.
  induction d as [|[k' v'] d IH]; simpl.
  - split; [intros _; apply not_elem_of_nil|done].
  - rewrite not_elem_of_cons. destruct (String.eqb k k') eqn:E.
    + apply String.eqb_eq in E. split; [done|]. intros [? _]. done.
    + apply String.eqb_neq in E. rewrite IH. tauto.
Qed.

Lemma dict_get_In k v d : dict_get k d = Some v -> In (k, v) d.
Proof.
  induction d as [|[k' v'] d IH]; simpl; [done|].
  destruct (String.eqb k k') eqn:E.
  - apply String.eqb_eq in E as <-. intros [= <-]. by left.
  - intros H. right. by apply IH.
Qed.


Lemma dict_keys_pop_subset k d x : x ∈ dict_keys (dict_pop k d) -> x ∈ dict_keys d.
Proof.
  induction d as [|[k' v'] d IH]; simpl; [done|].
  destruct (String.eqb k k'); simpl; rewrite !elem_of_cons; tauto.
Qed.

Lemma dict_pop_NoDup k d : NoDup (dict_keys d) -> NoDup (dict_keys (dict_pop k d)).
Proof.
  induction d as [|[k' v'] d IH]; simpl; [done|].
  intros Hnd. apply NoDup_cons in Hnd as [Hk Hnd].
  destruct (String.eqb k k'); simpl; [done|].
  apply NoDup_cons. split; [|by apply IH].
  intros Hin. apply Hk. by eapply dict_keys_pop_subset.
Qed.

Lemma dict_get_pop_eq k d : NoDup (dict_keys d) -> dict_get k (dict_pop k d) = None.
Proof.
  induction d as [|[k' v'] d IH]; simpl; [done|].
  intros Hnd. apply NoDup_cons in Hnd as [Hk Hnd].
  destruct (String.eqb k k') eqn:E; simpl.
  - apply String.eqb_eq in E as <-. by apply dict_get_None.
  - rewrite E. by apply IH.
Qed.

Lemma dict_keys_set k v d x :
  x ∈ dict_keys (dict_set k v d) <-> x = k \/ x ∈ dict_keys d.
Proof.
  induction d as [|[k' v'] d IH]; simpl.
  - rewrite elem_of_cons. tauto.
  - destruct (String.eqb k k') eqn:E; simpl; rewrite !elem_of_cons.
    + apply String.eqb_eq in E as <-. tauto.
    + rewrite IH. tauto.
Qed.

Lemma dict_set_NoDup k v d : NoDup (dict_keys d) -> NoDup (dict_keys (dict_set k v d)).
Proof.
  induction d as [|[k' v'] d IH]; simpl.
  - intros _. apply NoDup_singleton.
  - intros Hnd. apply NoDup_cons in Hnd as [Hk Hnd].
    destruct (String.eqb k k') eqn:E; simpl.
    + apply String.eqb_eq in E as <-. by apply NoDup_cons.
    + apply String.eqb_neq in E. apply NoDup_cons. split; [|by apply IH].
      rewrite dict_keys_set. intros [?|?]; [congruence|done].
Qed.

(** Popping a list of keys, as the monitor does. *)
Definition pop_all (ks : list (string * A)) d : list (string * A) :=
  fold_left (fun t '(k, _) => dict_pop k t) ks d.



Lemma pop_all_absent h ks d :
  dict_get h d = None -> dict_get h (pop_all ks d) = None.
Proof.
  revert d. induction ks as [|[k v] ks IH]; intros d Hh; simpl; [done|].
  apply IH. apply dict_get_None. apply dict_get_None in Hh.
  intros Hin. apply Hh. by eapply dict_keys_pop_subset.
Qed.

Lemma pop_all_popped h ks d :
  NoDup (dict_keys d) -> h ∈ dict_keys ks -> dict_get h (pop_all ks d) = None.
Proof.
  revert d. induction ks as [|[k v] ks IH]; intros d Hnd Hh; simpl.
  - by apply elem_of_nil in Hh.
  - simpl in Hh. destruct (decide (h = k)) as [->|Hne].
    + apply pop_all_absent. by apply dict_get_pop_eq.
    + apply elem_of_cons in Hh as [?|Hh]; [done|].
      apply IH; [by apply dict_pop_NoDup|done].
Qed.

End Dict.

(** ** What an [execute] does to the TTL table *)

Section WithLib.
Context (L : Lib) (cfg : Config).



(** The revert handle a call of [execute] is for: the one its
    [_execute_*] method schedules, read off the action and the
    parameters. *)
Definition handle_of (w : World) (act : string)
  (params : list (string * json)) : option string :=
  (let given k := dict_get k params in
  let or_default k v := fmt L (dict_get_default k (JStr v) params) in
  if String.eqb act "networkpolicy_isolate" then
    match given "namespace" with
    | Some namespace =>
        Some (fmt L namespace ++ "/" ++ "aswarm-isolate-"
              ++ Gossip.decimal (int_of_Q (time_now w)))
    | None => None
    end
  else if String.eqb act "egress_rate_limit" then
    match given "host", given "rate_mbps" with
    | Some host, Some rate_mbps =>
        Some (fmt L host ++ "/" ++ or_default "interface" "eth0" ++ "/"
              ++ fmt L rate_mbps)
    | _, _ => None
    end
  else if String.eqb act "token_revoke" then
    match given "provider", given "user_id" with
    | Some provider, Some user_id =>
        Some (fmt L provider ++ "/" ++ fmt L user_id ++ "/"
              ++ or_default "scope" "all")
    | _, _ => None
    end
  else if String.eqb act "dns_sinkhole" then
    match given "namespace", given "selector" with
    | Some namespace, Some selector =>
        Some (fmt L namespace ++ "/" ++ fmt L selector ++ "/"
              ++ or_default "sinkhole_ip" "10.0.0.254")
    | _, _ => None
    end
  else if String.eqb act "process_freeze" then
    match given "host", given "pid" with
    | Some host, Some pid => Some (fmt L host ++ "/" ++ fmt L pid)
    | _, _ => None
    end
  else if String.eqb act "container_pause" then
    match given "namespace", given "pod", given "container" with
    | Some namespace, Some pod, Some container =>
        Some (fmt L namespace ++ "/" ++ fmt L pod ++ "/" ++ fmt L container)
    | _, _, _ => None
    end
  else None)%string.

(** The ways an [_execute_*] method can end, for a catalog [c] before it
    and the handle [ho] the call is for: without touching the table and
    without a revert handle; or past [_schedule_ttl_revert] for that
    handle, and then with a success that carries the handle, or with the
    exception of the expiry date, raised after the table was written. *)
Definition settled (c : MicroActCatalog) (w : World) (ttl : json)
  (ho : option string) (rc : result ActuationResult * MicroActCatalog)
  : Prop :=
  (rc.2 = c /\ forall res, rc.1 = Ret res -> revert_handle res = None) \/
  (exists act h,
     ho = Some h /\ _schedule_ttl_revert L c w act h ttl = Ret rc.2 /\
     match rc.1 with
     | Ret res => success res = true /\ revert_handle res = Some h
     | Raise e => bind (float_add (time_now w) ttl) fromtimestamp = Raise e
     end).

Lemma applied_settled c w act h ttl proof resource msg probe :
  settled c w ttl (Some h) (applied L c w act h ttl proof resource msg probe).
Proof.
  unfold applied.
  destruct (_schedule_ttl_revert L c w act h ttl) as [c'|e] eqn:Hs.
  - right. exists act, h. split; [done|].
    destruct (bind (float_add (time_now w) ttl) fromtimestamp) as [expires|e];
      cbn [fst snd]; done.
  - left. cbn [fst snd]. done.
Qed.

Ltac settle_exec :=
  unfold handle_of, raising, item;
  cbn [String.eqb Ascii.eqb Bool.eqb];
  repeat (case_match;
          try (left; cbn [fst snd]; split; [reflexivity|];
               intros ? [= <-]; reflexivity);
          try (left; cbn [fst snd]; split; [reflexivity|];
               intros ? [=]));
  try apply applied_settled.

Lemma pod_isolate_settled c w params ttl proof :
  settled c w ttl (handle_of w "networkpolicy_isolate" params)
    (_execute_pod_isolate L cfg c w params ttl proof).
Proof. unfold _execute_pod_isolate. settle_exec. Qed.

Lemma egress_limit_settled c w params ttl proof :
  settled c w ttl (handle_of w "egress_rate_limit" params)
    (_execute_egress_limit L cfg c w params ttl proof).
Proof. unfold _execute_egress_limit. settle_exec. Qed.

Lemma token_revoke_settled c w params ttl proof :
  settled c w ttl (handle_of w "token_revoke" params)
    (_execute_token_revoke L cfg c w params ttl proof).
Proof. unfold _execute_token_revoke. settle_exec. Qed.

Lemma log_anomaly_settled c w params ttl proof :
  settled c w ttl (handle_of w "log_anomaly" params)
    (_execute_log_anomaly L c w params proof).
Proof. unfold _execute_log_anomaly. settle_exec. Qed.

Lemma dns_sinkhole_settled c w params ttl proof :
  settled c w ttl (handle_of w "dns_sinkhole" params)
    (_execute_dns_sinkhole L cfg c w params ttl proof).
Proof. unfold _execute_dns_sinkhole. settle_exec. Qed.

Lemma process_freeze_settled c w params ttl proof :
  settled c w ttl (handle_of w "process_freeze" params)
    (_execute_process_freeze L cfg c w params ttl proof).
Proof. unfold _execute_process_freeze. settle_exec. Qed.

Lemma container_pause_settled c w params ttl proof :
  settled c w ttl (handle_of w "container_pause" params)
    (_execute_container_pause L cfg c w params ttl proof).
Proof. unfold _execute_container_pause. settle_exec. Qed.

(** How a call of [execute] can end. *)
Inductive executed (c : MicroActCatalog) (w : World) (act : string)
  (params : list (string * json))
  : result ActuationResult * MicroActCatalog -> Prop :=
| exec_raised e :
    validate_values L params = Raise e ->
    executed c w act params (Raise e, c)
| exec_plain res :
    revert_handle res = None ->
    executed c w act params (Ret res, c)
| exec_scheduled res action act' h c' :
    success res = true -> revert_handle res = Some h ->
    actions c !! act = Some action ->
    handle_of w act params = Some h ->
    _schedule_ttl_revert L c w act' h
      (dict_get_default "ttl_seconds" (JInt (ttl_seconds action)) params)
      = Ret c' ->
    executed c w act params (Ret res, c')
| exec_late e action act' h c' :
    actions c !! act = Some action ->
    handle_of w act params = Some h ->
    _schedule_ttl_revert L c w act' h
      (dict_get_default "ttl_seconds" (JInt (ttl_seconds action)) params)
      = Ret c' ->
    bind (float_add (time_now w)
            (dict_get_default "ttl_seconds" (JInt (ttl_seconds action)) params))
      fromtimestamp = Raise e ->
    executed c w act params
      (Ret (failure ("Execution failed: " ++ exn_text e)%string), c').

Lemma execute_executed c w act params :
  executed c w act params (execute L cfg c w act params).
Proof.
  unfold execute.
  destruct (actions c !! act) as [action|] eqn:Ha; [|by apply exec_plain].
  case_match; [by apply exec_plain|].
  case_match; [|by apply exec_plain].
  destruct (validate_values L params) as [[msg|]|e] eqn:Hv;
    [by apply exec_plain| |by apply exec_raised].
  set (ttl := dict_get_default "ttl_seconds" (JInt (ttl_seconds action)) params).
  set (proof := _compute_proof L cfg w act params).
  assert (Hset : forall rc, settled c w ttl (handle_of w act params) rc ->
            executed c w act params
              (let '(r, c') := rc in
               match r with
               | Ret res => (Ret res, c')
               | Raise e =>
                   (Ret (failure ("Execution failed: " ++ exn_text e)%string), c')
               end)).
  { intros [r c'] [[Hc Hres]|(act' & h & Hho & Hs & Hr)]; cbn [fst snd] in *.
    - subst c'. destruct r as [res|e]; apply exec_plain; [by apply Hres|done].
    - destruct r as [res|e].
      + destruct Hr as [Hok Hh]. by eapply exec_scheduled.
      + by eapply exec_late. }
  destruct (String.eqb act "networkpolicy_isolate") eqn:E1.
  { apply String.eqb_eq in E1 as ->. apply Hset, pod_isolate_settled. }
  destruct (String.eqb act "egress_rate_limit") eqn:E2.
  { apply String.eqb_eq in E2 as ->. apply Hset, egress_limit_settled. }
  destruct (String.eqb act "token_revoke") eqn:E3.
  { apply String.eqb_eq in E3 as ->. apply Hset, token_revoke_settled. }
  destruct (String.eqb act "log_anomaly") eqn:E4.
  { apply String.eqb_eq in E4 as ->. by apply Hset, log_anomaly_settled. }
  destruct (String.eqb act "dns_sinkhole") eqn:E5.
  { apply String.eqb_eq in E5 as ->. apply Hset, dns_sinkhole_settled. }
  destruct (String.eqb act "process_freeze") eqn:E6.
  { apply String.eqb_eq in E6 as ->. apply Hset, process_freeze_settled. }
  destruct (String.eqb act "container_pause") eqn:E7.
  { apply String.eqb_eq in E7 as ->. apply Hset, container_pause_settled. }
  by apply exec_plain.
Qed.

(** [execute] raises only out of the checks on parameter values. *)
Lemma execute_raise_validation c w act params e :
  (execute L cfg c w act params).1 = Raise e ->
  validate_values L params = Raise e.
Proof.
  intros Hr. destruct (execute_executed c w act params); cbn [fst snd] in *;
    congruence.
Qed.

(** A call ends in a failure and yet leaves an entry behind exactly when
    the expiry date could not be built: the entry was scheduled before. *)
Lemma execute_failure_table c w act params res :
  (execute L cfg c w act params).1 = Ret res -> success res = false ->
  revert_handle res = None /\
  ((execute L cfg c w act params).2 = c \/
   exists action act' h e,
     actions c !! act = Some action /\ handle_of w act params = Some h /\
     _schedule_ttl_revert L c w act' h
       (dict_get_default "ttl_seconds" (JInt (ttl_seconds action)) params)
       = Ret (execute L cfg c w act params).2 /\
     bind (float_add (time_now w)
             (dict_get_default "ttl_seconds" (JInt (ttl_seconds action)) params))
       fromtimestamp = Raise e).
Proof.
  intros Hr Hf. destruct (execute_executed c w act params)
    as [e He|res' Hh|res' action act' h c' Hok Hh Ha Hho Hs
       |e action act' h c' Ha Hho Hs He]; cbn [fst snd] in *.
  - done.
  - injection Hr as ->. auto.
  - injection Hr as ->. congruence.
  - injection Hr as <-. split; [done|]. right. by exists action, act', h, e.
Qed.

(** ** The monitor *)

Lemma monitor_tick_table c w :
  active_ttls (monitor_tick cfg c w).1.1 =
  pop_all (expired_at (mono_now w) (active_ttls c)) (active_ttls c).
Proof.
  unfold monitor_tick. destruct (run_reverts _ _ _). reflexivity.
Qed.

Lemma expired_at_keys now ttls h :
  h ∈ dict_keys (expired_at now ttls) <->
  exists e, In (h, e) ttls /\ (expire_mono e <= now)%Q.
Proof.
  unfold dict_keys, expired_at. rewrite list_elem_of_In, in_map_iff. split.
  - intros ([h' e] & <- & Hin). apply filter_In in Hin as [Hin He].
    exists e. split; [done|]. by apply Qle_bool_iff.
  - intros (e & Hin & He). exists (h, e). split; [done|].
    apply filter_In. split; [done|]. by apply Qle_bool_iff.
Qed.


Lemma tick_removes c w h e :
  NoDup (dict_keys (active_ttls c)) ->
  dict_get h (active_ttls c) = Some e ->
  (expire_mono e <= mono_now w)%Q ->
  dict_get h (active_ttls (monitor_tick cfg c w).1.1) = None.
Proof.
  intros Hnd Hget Hle. rewrite monitor_tick_table.
  apply pop_all_popped; [done|].
  apply expired_at_keys. exists e. split; [|done]. by apply dict_get_In.
Qed.






(** What happens to the catalog after an actuation: rounds of the monitor
    and further calls of [execute]. *)
Inductive event : Type :=
| Tick (w : World)
| Exec (w : World) (act : string) (params : list (string * json)).

Definition step (c : MicroActCatalog) (ev : event) : MicroActCatalog :=
  match ev with
  | Tick w => (monitor_tick cfg c w).1.1
  | Exec w act params => (execute L cfg c w act params).2
  end.









End WithLib.

Definition sample_world : World :=
  {| time_now := 1700000000; mono_now := 1000; utc_now := 1700000000;
     subprocess_run := fun _ => (true, "ok"%string);
     policy_file := Ret "/tmp/policy.yaml"%string |}.

(** C7 — the catalog does not return every failure as a value.  The call
    [execute("egress_rate_limit", {"host": "n1", "rate_mbps": "10"})]
    compares the string ["10"] with [0] before the [try] block is entered,
    and the [TypeError] of that comparison reaches the caller. *)
Theorem c7_execute_raises :
  execute Examples.lib default_config new_catalog sample_world
    "egress_rate_limit" [("host", JStr "n1"); ("rate_mbps", JStr "10")]
  = (Raise TypeError, new_catalog).
Proof. vm_compute. reflexivity. Qed.


(** An egress limit of five seconds in dry-run mode. *)
Definition limit_params : list (string * json) :=
  [("host", JStr "n1"); ("rate_mbps", JInt 10); ("ttl_seconds", JInt 5)].






(** A call can fail and leave an entry behind all the same: with a TTL
    that leads beyond the last year of [datetime] the revert is scheduled,
    then the expiry date cannot be built, and [execute] answers with a
    failure that carries no handle. *)
Lemma failed_call_leaves_entry :
  let r := execute Examples.lib default_config new_catalog sample_world
             "egress_rate_limit"
             [("host", JStr "n1"); ("rate_mbps", JInt 10);
              ("ttl_seconds", JInt (10 ^ 13))] in
  (exists res, r.1 = Ret res /\ success res = false /\
               revert_handle res = None) /\
  exists e, dict_get "n1/eth0/10" (active_ttls r.2) = Some e /\
            action_id e = "egress_rate_limit"%string.
Proof.
  vm_compute. split.
  - eexists. split; [reflexivity|]. split; reflexivity.
  - eexists. split; reflexivity.
Qed.

End MicroActFacts.

(* ===================================================================== *)
(** * Sentinel scoring                                                     *)
(* ===================================================================== *)

Module TelemetryFacts.
Import Telemetry.

Definition score_in_range (q : Q) : Prop := (0 <= q <= 1)%Q.

Definition ewma_ok (t : DualPathTelemetry) : Prop :=
  match _ewma t with
  | Some q => score_in_range q
  | None => True
  end.

(** The raw score as the specification words it. *)
Definition spec_raw (scan_ports new_procs network_procs : Z) : Q :=
  ((7 # 10) * Qmin 1 (inject_Z scan_ports / 10)
   + (3 # 10) * Qmin 1 ((inject_Z new_procs + inject_Z network_procs) / 8))%Q.

Lemma Qmin_comm a b : (Qmin a b == Qmin b a)%Q.
Proof.
  unfold Qmin. destruct (Qle_bool a b) eqn:E1, (Qle_bool b a) eqn:E2;
    try reflexivity.
  - apply Qle_bool_iff in E1, E2. by apply Qle_antisym.
  - apply GossipFacts.Qle_bool_false in E1, E2.
    exfalso. apply (Qlt_irrefl a). by eapply Qlt_trans.
Qed.

Lemma Qmin_1_range x : (0 <= x)%Q -> (0 <= Qmin x 1 <= 1)%Q.
Proof.
  intros Hx. unfold Qmin. destruct (Qle_bool x 1) eqn:E.
  - apply Qle_bool_iff in E. done.
  - split; [discriminate|apply Qle_refl].
Qed.

Lemma raw_score_range ports churn :
  (0 <= ports)%Q -> (0 <= churn)%Q -> (0 <= raw_score ports churn <= 1)%Q.
Proof.
  intros Hp Hc. unfold raw_score.
  assert (H1 : (0 <= ports / 10)%Q) by (apply Qle_shift_div_l; [reflexivity|lra]).
  assert (H2 : (0 <= churn / 8)%Q) by (apply Qle_shift_div_l; [reflexivity|lra]).
  pose proof (Qmin_1_range _ H1). pose proof (Qmin_1_range _ H2).
  lra.
Qed.

Lemma raw_score_spec ports new_procs network_procs :
  (raw_score (inject_Z ports) (inject_Z new_procs + inject_Z network_procs)
   == spec_raw ports new_procs network_procs)%Q.
Proof.
  unfold raw_score, spec_raw.
  rewrite (Qmin_comm (inject_Z ports / 10) 1).
  rewrite (Qmin_comm ((inject_Z new_procs + inject_Z network_procs) / 8) 1).
  reflexivity.
Qed.

(** What the generators put under the keys that [score_signal] reads. *)
Lemma sketch_scan_ports t r :
  Rand_ok r ->
  exists ports,
    dict_get_default "scan_ports" (JInt 0) (generate_packet_sketch t r).1
      = JInt ports /\ 0 <= ports.
Proof.
  intros [Hr _]. unfold generate_packet_sketch.
  destruct (0 <? anomaly_signals t); cbn.
  - eexists. split; [reflexivity|]. pose proof (Hr 11%nat 8 25). lia.
  - exists 0. done.
Qed.

Lemma graph_procs t r :
  Rand_ok r ->
  exists new_procs network_procs,
    dict_get_default "new_procs" (JInt 0) (generate_process_graph t r)
      = JInt new_procs /\
    dict_get_default "network_procs" (JInt 0) (generate_process_graph t r)
      = JInt network_procs /\
    0 <= new_procs /\ 0 <= network_procs.
Proof.
  intros [Hr _]. unfold generate_process_graph.
  destruct (0 <? anomaly_signals t); cbn.
  - eexists _, _. split; [reflexivity|]. split; [reflexivity|].
    pose proof (Hr 16%nat 3 8). pose proof (Hr 17%nat 2 5). lia.
  - eexists _, 0. split; [reflexivity|]. split; [reflexivity|].
    pose proof (Hr 14%nat 0 3). lia.
Qed.

Lemma inject_Z_nonneg z : 0 <= z -> (0 <= inject_Z z)%Q.
Proof. intros H. unfold Qle. simpl. lia. Qed.

Lemma tick_scores t r :
  ewma_ok t -> Rand_ok r ->
  exists p t' ports new_procs network_procs,
    tick t r = Ret (p, t') /\
    dict_get_default "scan_ports" (JInt 0) (generate_packet_sketch t r).1
      = JInt ports /\
    dict_get_default "new_procs" (JInt 0)
      (generate_process_graph (generate_packet_sketch t r).2 r)
      = JInt new_procs /\
    dict_get_default "network_procs" (JInt 0)
      (generate_process_graph (generate_packet_sketch t r).2 r)
      = JInt network_procs /\
    (pub_score p ==
       (4 # 10) * spec_raw ports new_procs network_procs
       + (6 # 10) * default 0 (_ewma t))%Q /\
    score_in_range (pub_score p) /\ _ewma t' = Some (pub_score p).
Proof.
  intros Hok Hr.
  destruct (sketch_scan_ports t r Hr) as (ports & Hp & Hp0).
  destruct (graph_procs (generate_packet_sketch t r).2 r Hr)
    as (np & nw & Hnp & Hnw & Hnp0 & Hnw0).
  assert (Hprev : _ewma (generate_packet_sketch t r).2 = _ewma t).
  { unfold generate_packet_sketch. by destruct (0 <? anomaly_signals t). }
  assert (Hrange : (0 <= default 0 (_ewma t) <= 1)%Q).
  { unfold ewma_ok in Hok. destruct (_ewma t); [exact Hok|]. simpl. lra. }
  unfold tick.
  destruct (generate_packet_sketch t r) as [sketch t1] eqn:Hs.
  cbn [fst snd] in *.
  unfold score_signal. rewrite Hp, Hnp, Hnw. cbn [MicroAct.json_num bind].
  rewrite Hprev.
  pose proof (raw_score_range (inject_Z ports) (inject_Z np + inject_Z nw)
                (inject_Z_nonneg _ Hp0)) as Hraw.
  pose proof (inject_Z_nonneg _ Hnp0). pose proof (inject_Z_nonneg _ Hnw0).
  specialize (Hraw ltac:(lra)).
  eexists _, _, ports, np, nw. split; [reflexivity|].
  split; [done|]. split; [done|]. split; [done|]. cbn [pub_score _ewma].
  split; [|split; [|reflexivity]].
  - rewrite raw_score_spec. lra.
  - unfold score_in_range. lra.
Qed.

(** C9 — sentinel scoring.  On every tick the published score is
    [0.4 * raw + 0.6 * previous score] with
    [raw = 0.7 * min(1, scan_ports / 10)
           + 0.3 * min(1, (new_procs + network_procs) / 8)],
    read off the tick's sketch and process graph, and every score
    published in a run lies in [[0, 1]]. *)
Theorem c9_sentinel_scoring (t : DualPathTelemetry) :
  ewma_ok t ->
  (forall r, Rand_ok r ->
     exists p t' ports new_procs network_procs,
       tick t r = Ret (p, t') /\
       dict_get_default "scan_ports" (JInt 0) (generate_packet_sketch t r).1
         = JInt ports /\
       dict_get_default "new_procs" (JInt 0)
         (generate_process_graph (generate_packet_sketch t r).2 r)
         = JInt new_procs /\
       dict_get_default "network_procs" (JInt 0)
         (generate_process_graph (generate_packet_sketch t r).2 r)
         = JInt network_procs /\
       (pub_score p ==
          (4 # 10) * spec_raw ports new_procs network_procs
          + (6 # 10) * default 0 (_ewma t))%Q /\
       score_in_range (pub_score p) /\ _ewma t' = Some (pub_score p)) /\
  (forall rs, Forall (fun r => Rand_ok r.1) rs ->
     exists ps, run t rs = Ret ps /\ length ps = length rs /\
                Forall (fun p => score_in_range (pub_score p)) ps).
Proof.
  intros Hok. split; [intros r Hr; by apply tick_scores|].
  intros rs. revert t Hok.
  induction rs as [|[r trig] rs IH]; intros t Hok Hall.
  - exists []. done.
  - apply Forall_cons in Hall as [Hr Hall]. cbn [fst] in Hr. cbn [run].
    set (t0 := match trig with
               | Some n => trigger_anomaly_simulation t n
               | None => t
               end).
    assert (Hok0 : ewma_ok t0) by (subst t0; by destruct trig).
    destruct (tick_scores t0 r Hok0 Hr)
      as (p & t' & ? & ? & ? & Ht & _ & _ & _ & _ & Hp & Hew).
    rewrite Ht. cbn [bind].
    assert (Hok' : ewma_ok t') by (unfold ewma_ok; by rewrite Hew).
    destruct (IH t' Hok' Hall) as (ps & Hps & Hlen & Hfor).
    rewrite Hps. cbn [bind]. exists (p :: ps).
    split; [done|]. split; [simpl; by rewrite Hlen|]. by constructor.
Qed.

(** A random source that always draws the lower bound. *)
Definition lowest : Rand :=
  {| randint := fun _ a _ => a; uniform := fun _ a _ => a |}.

Lemma lowest_ok : Rand_ok lowest.
Proof.
  split; intros i a b Hab; simpl; [lia|]. split; [apply Qle_refl|exact Hab].
Qed.

Lemma c9_sentinel_scoring_witness :
  exists ps,
    run init [(lowest, Some 3); (lowest, None)] = Ret ps /\
    length ps = 2%nat /\
    Forall (fun p => score_in_range (pub_score p)) ps.
Proof.
  refine (proj2 (c9_sentinel_scoring init I)
            [(lowest, Some 3); (lowest, None)] _).
  apply Forall_cons; split; [apply lowest_ok|].
  apply Forall_cons; split; [apply lowest_ok|]. apply Forall_nil_2.
Defined.

End TelemetryFacts.

(* ===================================================================== *)
(** * The listener over whole runs                                         *)
(* ===================================================================== *)

Module ListenerRuns.
Import Wire WireFacts Listener ListenerFacts.

(** ** Ring buffer *)

(** A fresh [RingBuffer(capacity)]. *)
Definition fresh_ring (cap : Z) : RingBuffer :=
  {| capacity := cap; buffer := []; dropped_count := 0 |}.

(** The entries pushed one after the other. *)
Definition push_all (rb : RingBuffer) (es : list RingBufferEntry) : RingBuffer :=
  fold_left (fun rb e => (push rb e).1) es rb.

Lemma push_buffer rb e :
  0 <= capacity rb -> Z.of_nat (length (buffer rb)) <= capacity rb ->
  buffer (push rb e).1 =
    drop (length (buffer rb) + 1 - Z.to_nat (capacity rb)) (buffer rb ++ [e]) /\
  dropped_count (push rb e).1 =
    dropped_count rb +
    Z.max 0 (Z.of_nat (length (buffer rb)) + 1 - capacity rb) /\
  capacity (push rb e).1 = capacity rb.
Proof.
  intros Hc Hl. unfold push, deque_append. cbn [fst buffer dropped_count capacity].
  rewrite length_app. cbn [length]. split; [|split; [|done]].
  - f_equal. lia.
  - destruct (capacity rb <=? Z.of_nat (length (buffer rb))) eqn:E.
    + apply Z.leb_le in E. lia.
    + apply Z.leb_gt in E. lia.
Qed.

Lemma push_all_buffer es : forall rb,
  0 <= capacity rb -> Z.of_nat (length (buffer rb)) <= capacity rb ->
  buffer (push_all rb es) =
    drop (length (buffer rb) + length es - Z.to_nat (capacity rb))
      (buffer rb ++ es) /\
  dropped_count (push_all rb es) =
    dropped_count rb +
    Z.max 0 (Z.of_nat (length (buffer rb)) + Z.of_nat (length es) - capacity rb) /\
  capacity (push_all rb es) = capacity rb.
Proof.
  induction es as [|e es IH]; intros rb Hc Hl.
  - cbn [push_all fold_left length]. rewrite app_nil_r.
    replace (length (buffer rb) + 0 - Z.to_nat (capacity rb))%nat with 0%nat by lia.
    split; [done|]. split; [lia|done].
  - cbn [push_all fold_left]. fold (push_all (push rb e).1 es).
    destruct (push_buffer rb e Hc Hl) as (Hb & Hd & Hcap).
    assert (Hlen : length (buffer (push rb e).1) =
                   Nat.min (length (buffer rb) + 1) (Z.to_nat (capacity rb))).
    { rewrite Hb, length_drop, length_app. cbn [length]. lia. }
    destruct (IH (push rb e).1) as (Hb' & Hd' & Hcap').
    { by rewrite Hcap. }
    { rewrite Hlen, Hcap. lia. }
    rewrite Hb', Hd', Hcap', Hcap, Hd, Hlen. cbn [length].
    split; [|split; [lia|done]].
    rewrite Hb.
    destruct (decide (length (buffer rb) + 1 <= Z.to_nat (capacity rb))%nat) as [Hle|Hgt].
    + replace (length (buffer rb) + 1 - Z.to_nat (capacity rb))%nat with 0%nat by lia.
      rewrite drop_0, <- app_assoc. cbn [app]. f_equal. lia.
    + assert (Heq : length (buffer rb) = Z.to_nat (capacity rb)) by lia.
      replace (length (buffer rb) + 1 - Z.to_nat (capacity rb))%nat with 1%nat by lia.
      replace (Nat.min (length (buffer rb) + 1) (Z.to_nat (capacity rb)) +
               length es - Z.to_nat (capacity rb))%nat with (length es) by lia.
      replace (length (buffer rb) + S (length es) - Z.to_nat (capacity rb))%nat
        with (1 + length es)%nat by lia.
      replace (buffer rb ++ e :: es) with ((buffer rb ++ [e]) ++ es)
        by (by rewrite <- app_assoc).
      rewrite <- (drop_drop _ (length es) 1). f_equal.
      symmetry. apply drop_app_le. rewrite length_app. cbn [length]. lia.
Qed.

(** X1 — The ring buffer keeps the newest [capacity] entries in arrival order
    and counts every entry it pushed out; the next [pop] hands out the
    oldest entry that is still kept. *)
Theorem ring_buffer_keeps_newest (cap : Z) (es : list RingBufferEntry) :
  0 <= cap ->
  let rb := push_all (fresh_ring cap) es in
  buffer rb = drop (length es - Z.to_nat cap) es /\
  dropped_count rb = Z.max 0 (Z.of_nat (length es) - cap) /\
  (pop rb).2 = head (drop (length es - Z.to_nat cap) es).
Proof.
  intros Hc rb.
  destruct (push_all_buffer es (fresh_ring cap)) as (Hb & Hd & _);
    [done | cbn; lia |].
  cbn [fresh_ring buffer dropped_count capacity length app] in Hb, Hd.
  rewrite Nat.add_0_l in Hb. rewrite Z.add_0_l in Hd.
  fold rb in Hb, Hd. split; [done|]. split; [lia|].
  unfold pop. rewrite Hb. by destruct (drop _ es).
Qed.

Definition entry_of (port : Z) : RingBufferEntry :=
  {| data := []; addr := ("10.0.0.1"%string, port); recv_time := 0 |}.

Lemma ring_buffer_keeps_newest_witness :
  let rb := push_all (fresh_ring 2) [entry_of 1; entry_of 2; entry_of 3] in
  buffer rb = [entry_of 2; entry_of 3] /\
  dropped_count rb = 1 /\
  (pop rb).2 = Some (entry_of 2).
Proof.
  apply (ring_buffer_keeps_newest 2 [entry_of 1; entry_of 2; entry_of 3]). lia.
Defined.

(** ** Token bucket *)

Definition buckets_ok (l : FastPathListener) : Prop :=
  forall ip t last,
    _buckets l !! ip = Some (t, last) -> (0 <= t <= rate_capacity l)%Q.

Lemma Qmax_0_nonneg x : (0 <= Listener.Qmax 0 x)%Q.
Proof.
  unfold Listener.Qmax. destruct (Qle_bool 0 x) eqn:E.
  - by apply Qle_bool_iff.
  - apply Qle_refl.
Qed.

Lemma Qmin_spec a b :
  ((a <= b)%Q /\ (Listener.Qmin a b == a)%Q) \/
  ((b <= a)%Q /\ (Listener.Qmin a b == b)%Q).
Proof.
  unfold Listener.Qmin. destruct (Qle_bool a b) eqn:E.
  - left. split; [by apply Qle_bool_iff|reflexivity].
  - right. split; [|reflexivity].
    apply GossipFacts.Qle_bool_false in E. by apply Qlt_le_weak.
Qed.

(** X2 — The token bucket of a source never leaves [[0, capacity]], whatever
    the clock does, and a call for one source leaves the buckets of all
    other sources alone. *)
Theorem token_bucket_invariant (l : FastPathListener) (now : Q) (ip : string) :
  (0 <= rate_capacity l)%Q -> (0 <= rate_fill_per_sec l)%Q -> buckets_ok l ->
  let l' := (_allow_ip l now ip).1 in
  buckets_ok l' /\
  (forall ip', ip' <> ip -> _buckets l' !! ip' = _buckets l !! ip') /\
  (exists t, _buckets l' !! ip = Some (t, now)).
Proof.
  intros Hcap Hfill Hok. unfold _allow_ip.
  destruct (default (rate_capacity l, now) (_buckets l !! ip)) as [t last] eqn:Hd.
  assert (Ht : (0 <= t <= rate_capacity l)%Q).
  { destruct (_buckets l !! ip) as [[t0 last0]|] eqn:Hl; cbn in Hd.
    - injection Hd as <- <-. by eapply Hok.
    - injection Hd as <- <-. split; [done|apply Qle_refl]. }
  set (delta := Listener.Qmax 0 (now - last)).
  assert (Hdelta : (0 <= delta)%Q) by apply Qmax_0_nonneg.
  assert (Hadd : (0 <= delta * rate_fill_per_sec l)%Q)
    by (by apply Qmult_le_0_compat).
  set (tokens := Listener.Qmin (rate_capacity l) (t + delta * rate_fill_per_sec l)).
  assert (Htok : (0 <= tokens <= rate_capacity l)%Q).
  { destruct (Qmin_spec (rate_capacity l) (t + delta * rate_fill_per_sec l))
      as [[H1 H2]|[H1 H2]]; fold tokens in H2; rewrite H2; split;
      try done; try apply Qle_refl.
    destruct Ht. lra. }
  destruct (Qlt_bool tokens 1) eqn:Hlt; cbn [fst].
  - split; [|split].
    + intros ip' t' last'. cbn [_buckets with_buckets rate_capacity count with_stats].
      destruct (decide (ip' = ip)) as [->|Hne].
      * rewrite lookup_insert_eq. by intros [= <- <-].
      * rewrite lookup_insert_ne by done. apply Hok.
    + intros ip' Hne. cbn. by rewrite lookup_insert_ne.
    + exists tokens. cbn. by rewrite lookup_insert_eq.
  - apply GossipFacts.Qlt_bool_false in Hlt. split; [|split].
    + intros ip' t' last'. cbn [_buckets with_buckets rate_capacity].
      destruct (decide (ip' = ip)) as [->|Hne].
      * rewrite lookup_insert_eq. intros [= <- <-]. destruct Htok. lra.
      * rewrite lookup_insert_ne by done. apply Hok.
    + intros ip' Hne. cbn. by rewrite lookup_insert_ne.
    + eexists. cbn. by rewrite lookup_insert_eq.
Qed.

Lemma token_bucket_invariant_witness :
  let l' := (_allow_ip RoundTrip.sample_listener 5 "10.0.0.1").1 in
  buckets_ok l' /\
  (forall ip', ip' <> "10.0.0.1"%string ->
     _buckets l' !! ip' = _buckets RoundTrip.sample_listener !! ip') /\
  (exists t, _buckets l' !! "10.0.0.1"%string = Some (t, 5%Q)).
Proof.
  apply (token_bucket_invariant RoundTrip.sample_listener 5 "10.0.0.1").
  - by vm_compute.
  - by vm_compute.
  - intros ip t last H. exfalso. revert H.
    change (_buckets RoundTrip.sample_listener) with (∅ : gmap string (Q * Q)).
    by rewrite lookup_empty.
Defined.

(** A run of calls for the same source at the same instant. *)
Fixpoint allow_burst (l : FastPathListener) (now : Q) (ip : string) (n : nat)
  : FastPathListener * list bool :=
  match n with
  | O => (l, [])
  | S n' =>
      let '(l1, ok) := _allow_ip l now ip in
      let '(l2, oks) := allow_burst l1 now ip n' in
      (l2, ok :: oks)
  end.

Definition bucket_view (l : FastPathListener) (now : Q) (ip : string) : Q * Q :=
  default (rate_capacity l, now) (_buckets l !! ip).

Lemma allow_ip_same_instant l now ip (C k : Z) :
  (rate_capacity l == inject_Z C)%Q -> 0 <= k <= C ->
  ((bucket_view l now ip).1 == inject_Z (C - k))%Q ->
  ((bucket_view l now ip).2 == now)%Q ->
  let r := _allow_ip l now ip in
  (rate_capacity r.1 == inject_Z C)%Q /\
  ((bucket_view r.1 now ip).2 == now)%Q /\
  if decide (k < C)
  then r.2 = true /\ ((bucket_view r.1 now ip).1 == inject_Z (C - (k + 1)))%Q
  else r.2 = false /\ ((bucket_view r.1 now ip).1 == inject_Z (C - k))%Q.
Proof.
  intros Hcap Hk Ht Hlast. unfold bucket_view in *. unfold _allow_ip.
  destruct (default (rate_capacity l, now) (_buckets l !! ip)) as [t last].
  cbn [fst snd] in Ht, Hlast.
  set (delta := Listener.Qmax 0 (now - last)).
  assert (Hdelta : (delta == 0)%Q).
  { unfold delta, Listener.Qmax. destruct (Qle_bool 0 (now - last)); lra. }
  set (tokens := Listener.Qmin (rate_capacity l) (t + delta * rate_fill_per_sec l)).
  assert (Hsum : (t + delta * rate_fill_per_sec l == t)%Q)
    by (rewrite Hdelta; ring).
  assert (HCk : (inject_Z (C - k) == inject_Z C - inject_Z k)%Q)
    by (unfold Z.sub; rewrite inject_Z_plus, inject_Z_opp; ring).
  assert (Hk0 : (0 <= inject_Z k)%Q)
    by (change (inject_Z 0 <= inject_Z k)%Q; rewrite <- Zle_Qle; lia).
  assert (Htok : (tokens == inject_Z (C - k))%Q).
  { destruct (Qmin_spec (rate_capacity l) (t + delta * rate_fill_per_sec l))
      as [[H1 H2]|[H1 H2]]; fold tokens in H2; rewrite H2; lra. }
  case_decide as Hlt.
  - assert (H1 : (1 <= tokens)%Q).
    { rewrite Htok. change (inject_Z 1 <= inject_Z (C - k))%Q.
      rewrite <- Zle_Qle. lia. }
    apply GossipFacts.Qlt_bool_false in H1. rewrite H1. cbn.
    rewrite lookup_insert_eq. cbn. split; [done|]. split; [reflexivity|].
    split; [done|]. rewrite Htok.
    replace (C - (k + 1)) with (C - k - 1) by lia.
    unfold Z.sub at 2. rewrite inject_Z_plus, inject_Z_opp. reflexivity.
  - assert (H1 : (tokens < 1)%Q).
    { rewrite Htok. change (inject_Z (C - k) < inject_Z 1)%Q.
      rewrite <- Zlt_Qlt. lia. }
    apply GossipFacts.Qlt_bool_iff in H1. rewrite H1. cbn.
    rewrite lookup_insert_eq. cbn. split; [done|]. split; [reflexivity|].
    split; done.
Qed.

Lemma allow_burst_from l now ip (C : Z) (n : nat) : forall k,
  (rate_capacity l == inject_Z C)%Q -> 0 <= k <= C ->
  ((bucket_view l now ip).1 == inject_Z (C - k))%Q ->
  ((bucket_view l now ip).2 == now)%Q ->
  (allow_burst l now ip n).2 =
  replicate (Nat.min n (Z.to_nat (C - k))) true ++
  replicate (n - Z.to_nat (C - k)) false.
Proof.
  revert l. induction n as [|n IH]; intros l k Hcap Hk Ht Hlast; [done|].
  cbn [allow_burst].
  pose proof (allow_ip_same_instant l now ip C k Hcap Hk Ht Hlast) as H.
  destruct (_allow_ip l now ip) as [l1 ok]. cbn [fst snd] in H.
  destruct H as (Hcap1 & Hlast1 & H).
  case_decide as Hlt.
  - destruct H as [-> Ht1].
    specialize (IH l1 (k + 1) Hcap1 ltac:(lia) Ht1 Hlast1).
    destruct (allow_burst l1 now ip n) as [l2 oks]. cbn [snd] in *.
    rewrite IH.
    replace (Z.to_nat (C - k)) with (S (Z.to_nat (C - (k + 1)))) by lia.
    done.
  - destruct H as [-> Ht1].
    specialize (IH l1 k Hcap1 ltac:(lia) Ht1 Hlast1).
    destruct (allow_burst l1 now ip n) as [l2 oks]. cbn [snd] in *.
    rewrite IH. replace (Z.to_nat (C - k)) with 0%nat by lia.
    by rewrite !Nat.sub_0_r, !Nat.min_0_r.
Qed.

(** X3 — From a source the listener has not seen yet, a burst that arrives
    within one reading of the clock passes up to the whole capacity
    of the bucket, and every later datagram of the burst is refused. *)
Theorem token_bucket_burst (l : FastPathListener) (now : Q) (ip : string)
  (C : Z) (n : nat) :
  (rate_capacity l == inject_Z C)%Q -> 0 <= C -> _buckets l !! ip = None ->
  (allow_burst l now ip n).2 =
  replicate (Nat.min n (Z.to_nat C)) true ++ replicate (n - Z.to_nat C) false.
Proof.
  intros Hcap HC Hnone.
  pose proof (allow_burst_from l now ip C n 0 Hcap ltac:(lia)) as H.
  rewrite Z.sub_0_r in H. apply H; unfold bucket_view; rewrite Hnone; cbn.
  - done.
  - reflexivity.
Qed.

Lemma token_bucket_burst_witness :
  (allow_burst RoundTrip.sample_listener 5 "10.0.0.1" 3).2 =
  [true; true; true].
Proof.
  apply (token_bucket_burst RoundTrip.sample_listener 5 "10.0.0.1" 100 3).
  - reflexivity.
  - lia.
  - reflexivity.
Defined.

(** ** The replay window over a stream of packets *)

(** The sequence check of one authenticated packet: the table is updated
    when the packet passes and left alone when it is a replay. *)
Definition observe (seqs : gmap Z (Z * gset Z)) (p : Z * Z)
  : gmap Z (Z * gset Z) :=
  default seqs (seq_check seqs p.1 p.2).

Definition observe_all (seqs : gmap Z (Z * gset Z)) (ps : list (Z * Z))
  : gmap Z (Z * gset Z) :=
  fold_left observe ps seqs.

Definition rejects (seqs : gmap Z (Z * gset Z)) (src seq : Z) : Prop :=
  let '(highest, seen) := default (0, ∅) (seqs !! src) in
  seq <= highest - 256 \/ seq ∈ seen.

Lemma seq_check_accept seqs src seq seqs' :
  seq_check seqs src seq = Some seqs' ->
  let '(highest, seen) := default (0, ∅) (seqs !! src) in
  let highest' := Z.max highest seq in
  highest - 256 < seq /\ (seq ∉ seen) /\
  exists seen',
    seqs' = <[src := (highest', seen')]> seqs /\
    (forall x, x ∈ seen' <->
       (x = seq \/ x ∈ seen) /\
       ((256 < size ({[seq]} ∪ seen))%nat -> highest' - 255 <= x)).
Proof.
  unfold seq_check.
  destruct (default (0, ∅) (seqs !! src)) as [highest seen].
  destruct (seq <=? highest - 256) eqn:Hold; [done|]. apply Z.leb_gt in Hold.
  case_bool_decide as Hseen; [done|]. intros [= <-].
  split; [lia|]. split; [done|].
  assert (Hmax : (if highest <? seq then seq else highest) = Z.max highest seq).
  { destruct (highest <? seq) eqn:E;
      [apply Z.ltb_lt in E|apply Z.ltb_ge in E]; lia. }
  rewrite Hmax. eexists. split; [done|]. intros x.
  destruct (256 <? size ({[seq]} ∪ seen))%nat eqn:Hsz.
  - apply Nat.ltb_lt in Hsz. rewrite elem_of_filter, elem_of_union, elem_of_singleton.
    split; [intros [? ?]; done|]. intros [? H]. split; [by apply H|done].
  - apply Nat.ltb_ge in Hsz. rewrite elem_of_union, elem_of_singleton.
    split; [intros ?; split; [done|lia]|]. by intros [? _].
Qed.

Lemma observe_keeps_rejecting seqs p src seq :
  rejects seqs src seq -> rejects (observe seqs p) src seq.
Proof.
  destruct p as [src' q]. unfold observe. cbn [fst snd].
  destruct (seq_check seqs src' q) as [seqs'|] eqn:Hc; [|done].
  apply seq_check_accept in Hc. unfold rejects.
  destruct (decide (src' = src)) as [->|Hne].
  - destruct (default (0, ∅) (seqs !! src)) as [highest seen].
    destruct Hc as (Hq & Hnew & seen' & -> & Hseen').
    cbn [from_option id]. rewrite lookup_insert_eq. cbn [from_option id].
    intros [Hold|Hin]; [left; lia|].
    destruct (decide (Z.max highest q - 255 <= seq)) as [Hk|Hk].
    + right. apply Hseen'. split; [by right|done].
    + left. lia.
  - destruct (default (0, ∅) (seqs !! src')) as [highest' seen'].
    destruct Hc as (_ & _ & seen'' & -> & _).
    cbn [from_option id]. by rewrite lookup_insert_ne.
Qed.

(** Once a sequence number of a source has been accepted, it is never
    accepted again from that source, whatever other packets (of this or
    of other sources, accepted or not) are checked in between. *)
Lemma replay_never_accepted_twice (seqs seqs1 : gmap Z (Z * gset Z))
  (src seq : Z) (ps : list (Z * Z)) :
  seq_check seqs src seq = Some seqs1 ->
  seq_check (observe_all seqs1 ps) src seq = None.
Proof.
  intros Hacc. apply seq_check_reject.
  change (rejects (observe_all seqs1 ps) src seq).
  assert (H1 : rejects seqs1 src seq).
  { apply seq_check_once in Hacc. by apply seq_check_reject in Hacc. }
  clear Hacc. revert seqs1 H1. induction ps as [|p ps IH]; intros seqs1 H1; [done|].
  cbn [observe_all fold_left]. apply IH. by apply observe_keeps_rejecting.
Qed.

(** The table of a source: at most 256 sequence numbers, none above the
    highest one recorded. *)
Definition window_ok (seqs : gmap Z (Z * gset Z)) : Prop :=
  forall src highest seen,
    seqs !! src = Some (highest, seen) ->
    (size seen <= 256)%nat /\ forall x, x ∈ seen -> x <= highest.

Lemma size_interval (X : gset Z) (lo : Z) (n : nat) :
  (forall x, x ∈ X -> lo <= x < lo + Z.of_nat n) -> (size X <= n)%nat.
Proof.
  intros H.
  assert (Hsub : X ⊆ list_to_set (seqZ lo (Z.of_nat n))).
  { intros x Hx. apply elem_of_list_to_set, elem_of_seqZ. by apply H. }
  apply subseteq_size in Hsub.
  rewrite size_list_to_set in Hsub by apply NoDup_seqZ.
  rewrite length_seqZ in Hsub. lia.
Qed.

Lemma seq_check_window seqs src seq seqs' :
  window_ok seqs -> seq_check seqs src seq = Some seqs' -> window_ok seqs'.
Proof.
  intros Hok Hc. apply seq_check_accept in Hc.
  destruct (seqs !! src) as [[highest seen]|] eqn:Hl; cbn [from_option id] in Hc.
  - destruct Hc as (Hq & Hnew & seen' & -> & Hseen').
    destruct (Hok _ _ _ Hl) as [Hsz Hle].
    intros src' h' s'. destruct (decide (src' = src)) as [->|Hne].
    + rewrite lookup_insert_eq. intros [= <- <-].
      assert (Hub : forall x, x ∈ seen' -> x <= Z.max highest seq).
      { intros x [[->|Hx] _]%Hseen'; [lia|]. apply Hle in Hx. lia. }
      split; [|done].
      destruct (decide (256 < size ({[seq]} ∪ seen))%nat) as [Hbig|Hsmall].
      * apply (size_interval _ (Z.max highest seq - 255)).
        intros x Hx. pose proof (Hub x Hx). apply Hseen' in Hx as [_ Hx].
        specialize (Hx Hbig). lia.
      * etrans; [apply subseteq_size|apply Nat.nlt_ge, Hsmall].
        intros x [Hx _]%Hseen'. set_solver.
    + rewrite lookup_insert_ne by done. apply Hok.
  - destruct Hc as (Hq & Hnew & seen' & -> & Hseen').
    intros src' h' s'. destruct (decide (src' = src)) as [->|Hne].
    + rewrite lookup_insert_eq. intros [= <- <-].
      assert (Hone : seen' ⊆ {[seq]}).
      { intros x [[->|Hx] _]%Hseen'; set_solver. }
      split.
      * apply subseteq_size in Hone. rewrite size_singleton in Hone. lia.
      * intros x Hx. apply Hone in Hx. apply elem_of_singleton in Hx. lia.
    + rewrite lookup_insert_ne by done. apply Hok.
Qed.

(** However many packets a listener checks, the table of every source
    holds at most 256 sequence numbers, none of them above the highest
    sequence recorded for the source. *)
Lemma replay_window_bounded (ps : list (Z * Z)) :
  window_ok (observe_all ∅ ps).
Proof.
  assert (H : forall seqs, window_ok seqs -> window_ok (observe_all seqs ps)).
  { induction ps as [|p ps IH]; intros seqs Hok; [done|].
    cbn [observe_all fold_left]. apply IH. unfold observe.
    destruct (seq_check seqs p.1 p.2) as [seqs'|] eqn:Hc; [|done].
    by eapply seq_check_window. }
  apply H. intros src h s. by rewrite lookup_empty.
Qed.

(** ** Runs of the listener *)

(** What the three loops of a listener do, one step at a time: the
    receiver takes a datagram off the socket, a worker takes an entry off
    the ring buffer, the maintenance thread makes a round. *)
Inductive event : Type :=
| Recv (now_bucket now_entry : Q) (datagram : list byte) (source : string * Z)
| Work (env : ProcEnv)
| Maint (now : Q).

Section Runs.
Context (L : Lib).

Definition step (l : FastPathListener) (ev : event) : FastPathListener :=
  match ev with
  | Recv t1 t2 datagram source => (_receive_loop_step L l t1 t2 datagram source).1
  | Work env => (_process_loop_step L l env).1
  | Maint now => _maintenance_step l now
  end.

Definition run (l : FastPathListener) (evs : list event) : FastPathListener :=
  fold_left step evs l.

(** Whether a step ends the life of a datagram without a counter. *)
Definition uncounted (l : FastPathListener) (ev : event) : Z :=
  match ev with
  | Recv t1 t2 datagram source =>
      match (_receive_loop_step L l t1 t2 datagram source).2 with
      | Filtered => 1
      | RateLimited | Queued _ => 0
      end
  | Work env =>
      match (_process_loop_step L l env).2 with
      | Sampled | WorkerError | Processed Dropped | Processed (Failed _) => 1
      | Idle | Processed (Counted _) | Processed (Delivered _ _) => 0
      end
  | Maint _ => 0
  end.

Fixpoint uncounted_all (l : FastPathListener) (evs : list event) : Z :=
  match evs with
  | [] => 0
  | ev :: evs' => uncounted l ev + uncounted_all (step l ev) evs'
  end.

Definition received_total (l : FastPathListener) : Z :=
  counters (stats l) !!! "received"%string.

(** Datagrams the ring buffer still answers for: the queued ones and the
    evicted ones that maintenance has not credited yet. *)
Definition in_ring (l : FastPathListener) : Z :=
  Z.of_nat (length (buffer (ring_buffer l))) + dropped_count (ring_buffer l).

Definition ring_ok (l : FastPathListener) : Prop :=
  0 <= dropped_count (ring_buffer l) /\
  Z.of_nat (length (buffer (ring_buffer l))) <= Z.max 0 (capacity (ring_buffer l)).

(** What [_process_packet] leaves alone. *)
Lemma process_packet_frame l env data source :
  let l' := (_process_packet L l env data source).1 in
  ring_buffer l' = ring_buffer l /\ system_mode l' = system_mode l /\
  _buckets l' = _buckets l /\ hmac_keys l' = hmac_keys l /\
  stale_window_sec l' = stale_window_sec l.
Proof.
  unfold _process_packet.
  repeat (case_match; cbn [fst]; try done).
Qed.

Lemma received_increment s c n :
  counters (increment s c n) !!! "received"%string =
  counters s !!! "received"%string +
  (if decide (c = "received"%string) then n else 0).
Proof.
  rewrite counters_increment. case_decide as Hc.
  - subst. by rewrite lookup_total_insert_eq.
  - rewrite lookup_total_insert_ne by done. lia.
Qed.

Lemma terminal_not_received c :
  c ∈ terminal_counters -> c <> "received"%string.
Proof.
  intros Hin ->. revert Hin. by_compute.
Qed.

Lemma received_of_received s n :
  counters (increment s "received" n) !!! "received"%string =
  counters s !!! "received"%string + n /\
  terminal_total (increment s "received" n) = terminal_total s.
Proof.
  rewrite received_increment, terminal_total_increment.
  rewrite (decide_True (P := "received"%string = "received"%string)) by done.
  rewrite (decide_False (P := "received"%string ∈ terminal_counters))
    by by_compute.
  lia.
Qed.

Lemma received_of_terminal s c n :
  c ∈ terminal_counters ->
  counters (increment s c n) !!! "received"%string =
  counters s !!! "received"%string /\
  terminal_total (increment s c n) = terminal_total s + n.
Proof.
  intros Hc. rewrite received_increment, terminal_total_increment.
  rewrite (decide_False (P := c = "received"%string))
    by (by apply terminal_not_received).
  rewrite (decide_True (P := c ∈ terminal_counters)) by done.
  lia.
Qed.

(** The balance of one step. *)
Definition balance (l : FastPathListener) : Z :=
  received_total l - terminal_total (stats l) - in_ring l.

Lemma push_ring rb e :
  0 <= dropped_count rb ->
  Z.of_nat (length (buffer rb)) <= Z.max 0 (capacity rb) ->
  let rb' := (push rb e).1 in
  0 <= dropped_count rb' /\
  Z.of_nat (length (buffer rb')) <= Z.max 0 (capacity rb') /\
  Z.of_nat (length (buffer rb')) + dropped_count rb' =
  Z.of_nat (length (buffer rb)) + dropped_count rb + 1.
Proof.
  intros Hd Hl. unfold push, deque_append.
  cbn [fst buffer dropped_count capacity].
  rewrite length_drop, length_app. cbn [length].
  destruct (capacity rb <=? Z.of_nat (length (buffer rb))) eqn:E;
    [apply Z.leb_le in E|apply Z.leb_gt in E]; lia.
Qed.

Lemma allow_ip_ring l now ip :
  ring_buffer (_allow_ip l now ip).1 = ring_buffer l.
Proof. unfold _allow_ip. by repeat (case_match; cbn [fst]). Qed.

Lemma maintenance_step_ring l now :
  ring_buffer (_maintenance_step l now) =
  {| capacity := capacity (ring_buffer l);
     buffer := buffer (ring_buffer l); dropped_count := 0 |}.
Proof.
  unfold _maintenance_step.
  destruct (expire_replay _ _ _) as [exp cache].
  destruct (evict_replay _ _ _) as [exp' cache']. cbn.
  by case_match.
Qed.

(** The ring buffer after a step of the receiver. *)
Lemma receive_loop_step_ring l t1 t2 datagram source :
  let r := _receive_loop_step L l t1 t2 datagram source in
  ring_buffer r.1 =
  match r.2 with
  | Queued _ =>
      (push (ring_buffer l)
         {| data := datagram; addr := source; recv_time := t2 |}).1
  | Filtered | RateLimited => ring_buffer l
  end.
Proof.
  unfold _receive_loop_step. destruct (negb _); [done|].
  pose proof (allow_ip_ring (count l "received") t1 source.1) as Hrb.
  destruct (_allow_ip _ _ _) as [l1 ok]. cbn [fst] in Hrb.
  destruct ok; cbn [negb]; [|done].
  rewrite Hrb. change (ring_buffer (count l "received")) with (ring_buffer l).
  by destruct (push _ _).
Qed.

(** The ring buffer after a step of a worker. *)
Lemma process_loop_step_ring l env :
  let r := _process_loop_step L l env in
  ring_buffer r.1 =
  match r.2 with
  | Idle => ring_buffer l
  | _ => (pop (ring_buffer l)).1
  end.
Proof.
  unfold _process_loop_step.
  destruct (pop (ring_buffer l)) as [rb [entry|]]; [|done].
  pose proof (process_packet_frame (with_ring_buffer l rb) env (data entry)
                (addr entry)) as (Hrb & _).
  destruct (_process_packet L (with_ring_buffer l rb) env (data entry)
              (addr entry)) as [l1 o].
  cbn [fst] in Hrb.
  destruct o; destruct (system_mode (with_ring_buffer l rb));
    try destruct (capacity rb =? 0); try destruct (_ && _);
    cbn [fst snd]; done.
Qed.

Lemma process_loop_step_idle l env :
  (_process_loop_step L l env).2 = Idle <-> buffer (ring_buffer l) = [].
Proof.
  unfold _process_loop_step, pop.
  destruct (buffer (ring_buffer l)) as [|entry b]; [done|].
  split; [|done].
  destruct (_process_packet L _ env (data entry) (addr entry)) as [l1 o].
  destruct o; destruct (system_mode _);
    try destruct (capacity _ =? 0); try destruct (_ && _);
    cbn [snd]; done.
Qed.

Lemma step_balance l ev :
  ring_ok l ->
  ring_ok (step l ev) /\ balance (step l ev) = balance l + uncounted l ev.
Proof.
  intros [Hd Hl]. unfold ring_ok, balance, received_total, in_ring.
  destruct ev as [t1 t2 datagram source|env|now]; cbn [step uncounted].
  - rewrite receive_loop_step_ring, receive_loop_step_stats.
    pose proof (push_ring (ring_buffer l)
                  {| data := datagram; addr := source; recv_time := t2 |}
                  Hd Hl) as (Hd' & Hl' & Hsum).
    destruct (received_of_received (stats l) 1) as [Hr Ht].
    destruct (received_of_terminal (increment (stats l) "received" 1)
                "rate_limited" 1 ltac:(by_compute)) as [Hr' Ht'].
    destruct (_receive_loop_step L l t1 t2 datagram source).2;
      cbn zeta; rewrite ?Hr', ?Ht', ?Hr, ?Ht; lia.
  - rewrite process_loop_step_ring, process_loop_step_stats.
    pose proof (process_loop_step_credit L l env) as Hc.
    pose proof (process_loop_step_idle l env) as Hidle.
    unfold pop.
    destruct (_process_loop_step L l env).2 as [| |o|] eqn:Ho.
    + split; [done|lia].
    + destruct (buffer (ring_buffer l)) as [|entry b] eqn:Hb;
        [discriminate (proj2 Hidle eq_refl)|].
      cbn [fst buffer dropped_count capacity length] in *. lia.
    + destruct (buffer (ring_buffer l)) as [|entry b] eqn:Hb;
        [discriminate (proj2 Hidle eq_refl)|].
      cbn [fst buffer dropped_count capacity length] in *.
      specialize (Hc o eq_refl).
      destruct o as [|c|pd src|e]; cbn [credited] in *; try lia.
      * destruct (received_of_terminal (stats l) c 1 (Hc c eq_refl)) as [-> ->].
        lia.
      * destruct (received_of_terminal (stats l) "valid" 1 (Hc _ eq_refl))
          as [-> ->].
        lia.
    + destruct (buffer (ring_buffer l)) as [|entry b] eqn:Hb;
        [discriminate (proj2 Hidle eq_refl)|].
      cbn [fst buffer dropped_count capacity length] in *. lia.
  - rewrite maintenance_step_ring, maintenance_step_stats.
    cbn [buffer dropped_count capacity].
    destruct (0 <? dropped_count (ring_buffer l)) eqn:E;
      [apply Z.ltb_lt in E|apply Z.ltb_ge in E]; [|lia].
    destruct (received_of_terminal (stats l) "dropped_oldest"
                (dropped_count (ring_buffer l)) ltac:(by_compute)) as [-> ->].
    lia.
Qed.

Lemma run_balance evs : forall l,
  ring_ok l ->
  ring_ok (run l evs) /\ balance (run l evs) = balance l + uncounted_all l evs /\
  0 <= uncounted_all l evs.
Proof.
  induction evs as [|ev evs IH]; intros l Hok; cbn [run fold_left uncounted_all].
  - split; [done|]. split; lia.
  - destruct (step_balance l ev Hok) as [Hok' Hb].
    destruct (IH _ Hok') as (Hok'' & Hb' & Hpos).
    split; [done|]. unfold run in *. rewrite Hb', Hb.
    split; [lia|].
    assert (0 <= uncounted l ev); [|lia].
    unfold uncounted. repeat case_match; lia.
Qed.

End Runs.

(** X4 — Every datagram a listener has received is accounted for: it was
    credited to exactly one terminal counter, or it waits in the ring
    buffer, or it was pushed out of the buffer and awaits the next
    maintenance round, or it left without a counter (allow-list, size
    check, sampling, exception). *)
Theorem received_accounting (L : Lib) (keys : gmap Z (list byte))
  (ring_buffer_size stale_window : Z) (allow_cidrs : list string)
  (evs : list event) :
  0 <= ring_buffer_size ->
  let l0 := init keys ring_buffer_size stale_window allow_cidrs in
  let l := run L l0 evs in
  received_total l =
    terminal_total (stats l) + Z.of_nat (length (buffer (ring_buffer l)))
    + dropped_count (ring_buffer l) + uncounted_all L l0 evs /\
  0 <= uncounted_all L l0 evs /\
  Z.of_nat (length (buffer (ring_buffer l))) <= ring_buffer_size.
Proof.
  intros Hsize l0 l.
  assert (Hok : ring_ok l0) by (unfold ring_ok, l0; cbn; lia).
  destruct (run_balance L evs l0 Hok) as ([Hd Hl] & Hb & Hpos).
  fold l in Hd, Hl, Hb.
  assert (Hcap : capacity (ring_buffer l) = ring_buffer_size).
  { unfold l. clear.
    generalize l0 (eq_refl : capacity (ring_buffer l0) = ring_buffer_size).
    induction evs as [|ev evs IH]; intros l Hl; [done|].
    cbn [run fold_left]. apply IH. rewrite <- Hl.
    destruct ev as [t1 t2 d s|env|now]; cbn [step].
    - rewrite receive_loop_step_ring. by case_match.
    - rewrite process_loop_step_ring. unfold pop.
      destruct (buffer (ring_buffer l)); by case_match.
    - by rewrite maintenance_step_ring. }
  assert (H0 : balance l0 = 0).
  { unfold balance, received_total, in_ring, l0, init.
    cbn [stats ring_buffer buffer dropped_count length]. by vm_compute. }
  rewrite H0 in Hb. unfold balance, in_ring in Hb.
  rewrite Hcap in Hl. split; [lia|]. split; [done|lia].
Qed.

(** A datagram is received, then processed, then maintenance runs. *)
Definition sample_run : list event :=
  [Recv 5 5 RoundTrip.packet_empty_object RoundTrip.sample_source;
   Work RoundTrip.sample_proc_env; Maint 1700000002].

Lemma received_accounting_witness :
  let l := run Examples.lib RoundTrip.sample_listener sample_run in
  received_total l =
    terminal_total (stats l) + Z.of_nat (length (buffer (ring_buffer l)))
    + dropped_count (ring_buffer l)
    + uncounted_all Examples.lib RoundTrip.sample_listener sample_run /\
  0 <= uncounted_all Examples.lib RoundTrip.sample_listener sample_run /\
  Z.of_nat (length (buffer (ring_buffer l))) <= 10000.
Proof.
  apply (received_accounting Examples.lib {[1 := RoundTrip.sample_key]}
           10000 60 [] sample_run).
  lia.
Defined.

(** ** Authentication comes first *)

Section Authentic.
Context (L : Lib).

(** A datagram whose header names a configured key and whose last 32
    bytes are the HMAC of everything before them under that key. *)
Definition authentic (l : FastPathListener) (data : list byte) (h : Header)
  (key : list byte) : Prop :=
  struct_unpack (slice_to (Z.to_nat HEADER_SIZE) data) = Some h /\
  hmac_keys l !! key_id h = Some key /\
  slice_from (Z.to_nat (HEADER_SIZE + payload_len h)) data =
    hmac_sha256 L key (slice_to (Z.to_nat (HEADER_SIZE + payload_len h)) data).

Lemma process_packet_cases l env data source :
  let r := _process_packet L l env data source in
  (src_sequences r.1 = src_sequences l /\ replay_cache r.1 = replay_cache l /\
   replay_expire r.1 = replay_expire l /\ is_delivered r.2 = false) \/
  (exists h key,
     authentic l data h key /\
     seq_check (src_sequences l) (src_id h) (seq16 h) = Some (src_sequences r.1)).
Proof.
  unfold _process_packet.
  destruct (Z.of_nat (length data) <? HEADER_SIZE + HMAC_SIZE); [by left|].
  destruct (struct_unpack _) as [h|] eqn:Hu; [|by left].
  destruct (negb (bool_decide (magic h = MAGIC))); [by left|].
  destruct (negb (version h =? VERSION)); [by left|].
  destruct (negb (pkt_type h =? TYPE_ELEVATION)); [by left|].
  destruct (MAX_PAYLOAD <? payload_len h); [by left|].
  destruct (negb (Z.of_nat (length data) =? _)); [by left|].
  destruct (hmac_keys l !! key_id h) as [key|] eqn:Hk; [|by left].
  destruct (5000 <? _); [by left|].
  case_bool_decide as Hm; cbn [negb]; [|by left].
  destruct (seq_check _ _ _) as [seqs|] eqn:Hs; [|by left].
  right. exists h, key. split; [done|].
  repeat (case_match; cbn [fst src_sequences count with_stats with_replay
                             with_src_sequences]; try done).
Qed.

End Authentic.

(** X5 — A datagram changes what the listener remembers about replays (the
    sequence table, the packet-hash cache), or reaches the callback, only
    if it carries a valid HMAC under a configured key: the HMAC is
    verified before any replay state is touched. *)
Theorem replay_state_needs_hmac (L : Lib) (l : FastPathListener)
  (env : ProcEnv) (data : list byte) (source : string * Z) :
  let r := _process_packet L l env data source in
  src_sequences r.1 <> src_sequences l \/
  replay_cache r.1 <> replay_cache l \/
  replay_expire r.1 <> replay_expire l \/
  is_delivered r.2 = true ->
  exists h key, authentic L l data h key.
Proof.
  intros r H.
  destruct (process_packet_cases L l env data source)
    as [(H1 & H2 & H3 & H4)|(h & key & Ha & _)].
  - fold r in H1, H2, H3, H4. destruct H as [H|[H|[H|H]]]; try done.
    congruence.
  - by exists h, key.
Qed.

Lemma replay_state_needs_hmac_witness :
  exists h key,
    authentic Examples.lib RoundTrip.sample_listener
      RoundTrip.packet_empty_object h key.
Proof.
  apply (replay_state_needs_hmac Examples.lib RoundTrip.sample_listener
           RoundTrip.sample_proc_env RoundTrip.packet_empty_object
           RoundTrip.sample_source).
  do 3 right. by vm_compute.
Defined.

(** ** The sequence table along a run *)

Section Sequences.
Context (L : Lib).

Lemma step_sequences l ev :
  src_sequences (step L l ev) = src_sequences l \/
  exists p, src_sequences (step L l ev) = observe (src_sequences l) p.
Proof.
  destruct ev as [t1 t2 datagram source|env|now]; cbn [step].
  - left. unfold _receive_loop_step. destruct (negb _); [done|].
    assert (H : src_sequences (_allow_ip (count l "received") t1 source.1).1 =
                src_sequences l).
    { unfold _allow_ip. by repeat (case_match; cbn [fst]). }
    destruct (_allow_ip _ _ _) as [l1 ok]. cbn [fst] in H.
    destruct ok; cbn [negb]; [|done]. by destruct (push _ _).
  - unfold _process_loop_step.
    destruct (pop (ring_buffer l)) as [rb [entry|]]; [|by left].
    pose proof (process_packet_cases L (with_ring_buffer l rb) env (data entry)
                  (addr entry)) as H.
    destruct (_process_packet L (with_ring_buffer l rb) env (data entry)
                (addr entry)) as [l1 o].
    cbn [fst snd] in H.
    assert (Hgoal : src_sequences l1 = src_sequences l \/
                    exists p, src_sequences l1 = observe (src_sequences l) p).
    { destruct H as [(H & _)|(h & key & _ & H)]; [by left|].
      right. exists (src_id h, seq16 h). unfold observe. cbn [fst snd].
      change (src_sequences (with_ring_buffer l rb)) with (src_sequences l) in H.
      by rewrite H. }
    destruct (system_mode (with_ring_buffer l rb));
      try destruct (capacity rb =? 0); try destruct (_ && _);
      cbn [fst]; (by left) || exact Hgoal.
  - left. unfold _maintenance_step.
    destruct (expire_replay _ _ _) as [exp cache].
    destruct (evict_replay _ _ _) as [exp' cache']. cbn.
    by case_match.
Qed.

Lemma run_sequences evs : forall l,
  exists ps, src_sequences (run L l evs) = observe_all (src_sequences l) ps.
Proof.
  induction evs as [|ev evs IH]; intros l; [by exists []|].
  cbn [run fold_left]. destruct (IH (step L l ev)) as [ps Hps].
  unfold run in *. rewrite Hps.
  destruct (step_sequences l ev) as [->|[p ->]].
  - by exists ps.
  - by exists (p :: ps).
Qed.

End Sequences.

(** X6 — A delivered packet uses up its sequence number for good: whatever the
    listener receives, processes and cleans up afterwards, no later packet
    with the same source id and sequence number is delivered. *)
Theorem sequence_delivered_once (L : Lib) (l : FastPathListener)
  (env env' : ProcEnv) (data data' : list byte) (source source' : string * Z)
  (h h' : Header) (evs : list event) :
  struct_unpack (slice_to (Z.to_nat HEADER_SIZE) data) = Some h ->
  is_delivered (_process_packet L l env data source).2 = true ->
  struct_unpack (slice_to (Z.to_nat HEADER_SIZE) data') = Some h' ->
  src_id h' = src_id h -> seq16 h' = seq16 h ->
  let later := run L (_process_packet L l env data source).1 evs in
  is_delivered (_process_packet L later env' data' source').2 = false.
Proof.
  intros Hu Hd Hu' Hsrc Hseq later.
  apply (process_packet_replayed L later env' data' source' h' Hu').
  rewrite Hsrc, Hseq.
  destruct (process_packet_cases L l env data source)
    as [(_ & _ & _ & Hn)|(h0 & key & (Hu0 & _) & Hs)]; [congruence|].
  assert (h0 = h) as -> by congruence.
  destruct (run_sequences L evs (_process_packet L l env data source).1)
    as [ps Hps].
  unfold later. rewrite Hps. by eapply replay_never_accepted_twice.
Qed.

Definition sample_header : Header :=
  Eval vm_compute in
    default {| magic := []; version := 0; pkt_type := 0; ts_unix_ms := 0;
               src_id := 0; seq16 := 0; nonce32 := 0; payload_len := 0;
               key_id := 0 |}
      (struct_unpack (slice_to (Z.to_nat HEADER_SIZE)
                        RoundTrip.packet_empty_object)).

Lemma sequence_delivered_once_witness :
  is_delivered
    (_process_packet Examples.lib
       (run Examples.lib
          (_process_packet Examples.lib RoundTrip.sample_listener
             RoundTrip.sample_proc_env RoundTrip.packet_empty_object
             RoundTrip.sample_source).1 [Maint 1700000002])
       RoundTrip.sample_proc_env RoundTrip.packet_empty_object
       RoundTrip.sample_source).2 = false.
Proof.
  apply (sequence_delivered_once Examples.lib RoundTrip.sample_listener
           RoundTrip.sample_proc_env RoundTrip.sample_proc_env
           RoundTrip.packet_empty_object RoundTrip.packet_empty_object
           RoundTrip.sample_source RoundTrip.sample_source
           sample_header sample_header [Maint 1700000002]).
  - by vm_compute.
  - by vm_compute.
  - by vm_compute.
  - reflexivity.
  - reflexivity.
Defined.

(** X7 — The sequence table of a listener stays small however long it runs:
    at most 256 sequence numbers per source, none above the highest one
    recorded for the source. *)
Theorem sequence_table_bounded (L : Lib) (keys : gmap Z (list byte))
  (ring_buffer_size stale_window : Z) (allow_cidrs : list string)
  (evs : list event) :
  window_ok
    (src_sequences (run L (init keys ring_buffer_size stale_window allow_cidrs)
                      evs)).
Proof.
  destruct (run_sequences L evs
              (init keys ring_buffer_size stale_window allow_cidrs)) as [ps ->].
  apply replay_window_bounded.
Qed.

(** ** The packet-hash cache *)

(** The cache holds exactly the hashes that wait in the expiry queue,
    each of them once. *)
Definition cache_ok (l : FastPathListener) : Prop :=
  NoDup (map fst (replay_expire l)) /\
  replay_cache l = list_to_set (map fst (replay_expire l)).

Lemma cache_pop_head (h : list byte) (hs : list (list byte)) :
  NoDup (h :: hs) ->
  (list_to_set (h :: hs) : gset (list byte)) ∖ {[h]} = list_to_set hs.
Proof.
  intros [Hh _]%NoDup_cons. apply set_eq. intros x.
  rewrite elem_of_difference, elem_of_list_to_set, elem_of_cons,
    elem_of_singleton, elem_of_list_to_set.
  split; [intros [[?|?] ?]; done|]. intros Hx. split; [by right|].
  intros ->. done.
Qed.

Lemma expire_replay_spec now exp :
  NoDup (map fst exp) ->
  exists k,
    expire_replay now exp (list_to_set (map fst exp)) =
    (drop k exp, list_to_set (map fst (drop k exp))).
Proof.
  induction exp as [|[h t] exp IH]; intros Hnd; [by exists 0%nat|].
  cbn [expire_replay map fst]. destruct (Qlt_bool t now).
  - cbn [map fst] in Hnd. rewrite cache_pop_head by done.
    destruct IH as [k Hk]; [by apply NoDup_cons in Hnd as [_ ?]|].
    exists (S k). by rewrite Hk.
  - by exists 0%nat.
Qed.

Lemma evict_replay_spec n : forall exp,
  NoDup (map fst exp) ->
  evict_replay n exp (list_to_set (map fst exp)) =
  (drop n exp, list_to_set (map fst (drop n exp))).
Proof.
  induction n as [|n IH]; intros [|[h t] exp] Hnd; try done.
  cbn [evict_replay map fst drop]. cbn [map fst] in Hnd.
  rewrite cache_pop_head by done.
  apply IH. by apply NoDup_cons in Hnd as [_ ?].
Qed.

Lemma NoDup_drop {A} (k : nat) (xs : list A) : NoDup xs -> NoDup (drop k xs).
Proof.
  intros H. rewrite <- (take_drop k xs) in H. by apply NoDup_app in H as (_ & _ & ?).
Qed.

Lemma maintenance_step_cache l now :
  cache_ok l ->
  cache_ok (_maintenance_step l now) /\
  Z.of_nat (size (replay_cache (_maintenance_step l now))) <=
    Z.max REPLAY_CACHE_SIZE 0.
Proof.
  intros [Hnd Hc]. unfold _maintenance_step. rewrite Hc.
  destruct (expire_replay_spec now (replay_expire l) Hnd) as [k ->].
  assert (Hnd1 : NoDup (map fst (drop k (replay_expire l))))
    by (rewrite <- skipn_map; by apply NoDup_drop).
  rewrite evict_replay_spec by done.
  set (n := Z.to_nat _).
  assert (Hnd2 : NoDup (map fst (drop n (drop k (replay_expire l)))))
    by (rewrite <- skipn_map; by apply NoDup_drop).
  assert (Hstate :
    forall l', replay_expire l' = drop n (drop k (replay_expire l)) ->
               replay_cache l' =
                 list_to_set (map fst (drop n (drop k (replay_expire l)))) ->
    cache_ok l' /\ Z.of_nat (size (replay_cache l')) <= Z.max REPLAY_CACHE_SIZE 0).
  { intros l' He Hc'. split; [split; by rewrite ?He, ?Hc'|].
    rewrite Hc', size_list_to_set by done.
    rewrite length_map, length_drop. unfold n.
    rewrite size_list_to_set by done. rewrite length_map. lia. }
  cbn. case_match; by apply Hstate.
Qed.

Section Cache.
Context (L : Lib).

Lemma process_packet_cache l env data source :
  cache_ok l -> cache_ok (_process_packet L l env data source).1.
Proof.
  intros [Hnd Hc].
  assert (Hadd : forall hash t,
    hash ∉ replay_cache l ->
    NoDup (map fst (replay_expire l ++ [(hash, t)])) /\
    {[hash]} ∪ replay_cache l =
      (list_to_set (map fst (replay_expire l ++ [(hash, t)])) : gset (list byte))).
  { intros hash t Hnew. rewrite map_app. cbn [map fst]. split.
    - apply NoDup_app. split; [done|]. split; [|apply NoDup_singleton].
      intros x Hx [->|[]%elem_of_nil]%elem_of_cons. apply Hnew.
      rewrite Hc. by apply elem_of_list_to_set.
    - rewrite list_to_set_app_L, Hc, (comm_L (∪)). f_equal.
      cbn [list_to_set]. by rewrite (right_id_L ∅ (∪)). }
  unfold _process_packet.
  repeat (case_match; cbn [fst]; try (split; done));
    match goal with
    | H : bool_decide _ = false |- _ => apply bool_decide_eq_false in H
    end;
    cbn [replay_cache replay_expire with_src_sequences with_replay count
           with_stats stale_window_sec] in *;
    by apply Hadd.
Qed.

Lemma step_cache l ev : cache_ok l -> cache_ok (step L l ev).
Proof.
  intros Hok. destruct ev as [t1 t2 datagram source|env|now]; cbn [step].
  - unfold _receive_loop_step. destruct (negb _); [done|].
    assert (H : cache_ok (_allow_ip (count l "received") t1 source.1).1).
    { unfold _allow_ip. by repeat (case_match; cbn [fst]). }
    destruct (_allow_ip _ _ _) as [l1 ok]. cbn [fst] in H.
    destruct ok; cbn [negb]; [|done]. by destruct (push _ _).
  - unfold _process_loop_step.
    destruct (pop (ring_buffer l)) as [rb [entry|]]; [|done].
    pose proof (process_packet_cache (with_ring_buffer l rb) env (data entry)
                  (addr entry) Hok) as H.
    destruct (_process_packet L (with_ring_buffer l rb) env (data entry)
                (addr entry)) as [l1 o].
    cbn [fst] in H.
    destruct (system_mode (with_ring_buffer l rb));
      try destruct (capacity rb =? 0); try destruct (_ && _);
      cbn [fst]; done.
  - by apply maintenance_step_cache.
Qed.

Lemma run_cache evs : forall l, cache_ok l -> cache_ok (run L l evs).
Proof.
  induction evs as [|ev evs IH]; intros l Hok; [done|].
  cbn [run fold_left]. apply IH. by apply step_cache.
Qed.

End Cache.

(** X8 — In every state a listener reaches, the packet-hash cache holds
    exactly the hashes that wait in the expiry queue; so a maintenance
    round, which evicts from the front of the queue, always leaves at most
    [REPLAY_CACHE_SIZE] hashes behind. *)
Theorem replay_cache_bounded (L : Lib) (keys : gmap Z (list byte))
  (ring_buffer_size stale_window : Z) (allow_cidrs : list string)
  (evs : list event) (now : Q) :
  let l := run L (init keys ring_buffer_size stale_window allow_cidrs) evs in
  replay_cache l = list_to_set (map fst (replay_expire l)) /\
  NoDup (map fst (replay_expire l)) /\
  Z.of_nat (size (replay_cache (_maintenance_step l now))) <= REPLAY_CACHE_SIZE.
Proof.
  intros l.
  assert (Hok : cache_ok l).
  { apply run_cache. split; cbn; [apply NoDup_nil_2|done]. }
  destruct (maintenance_step_cache l now Hok) as [_ Hb].
  destruct Hok. split; [done|]. split; [done|].
  change REPLAY_CACHE_SIZE with 10000 in *. lia.
Qed.

End ListenerRuns.

(* ===================================================================== *)
(** * The sender over whole runs                                           *)
(* ===================================================================== *)

Module SenderProps.
Import Wire WireFacts Sender SenderFacts.

Section WithLib.
Context (L : Lib).

Lemma struct_pack_length fmt magic vs hb :
  struct_pack fmt magic vs = Some hb -> Z.of_nat (length hb) = calcsize fmt.
Proof.
  unfold struct_pack, calcsize.
  destruct (pack_uints fmt vs) as [r|] eqn:Hr; [|done]. intros [= <-].
  rewrite length_app, length_take, length_app.
  rewrite (pack_uints_length _ _ _ Hr). cbn [length replicate]. lia.
Qed.

Lemma build_packet_length s now rand sq payload pkt :
  (forall key msg, length (hmac_sha256 L key msg) = 32%nat) ->
  _build_packet L s now rand sq payload = Ret pkt ->
  Z.of_nat (length pkt) = header_size s + Z.of_nat (length payload) + HMAC_SIZE.
Proof.
  intros Hmac. unfold _build_packet, header_size.
  set (hdr := if protocol_version s =? V3 then _ else _).
  destruct hdr as [hb|] eqn:Hh; [|done]. intros [= <-].
  assert (Hlen : Z.of_nat (length hb) = calcsize (header_fmt s)).
  { unfold hdr in Hh. destruct (protocol_version s =? V3);
      by apply struct_pack_length in Hh. }
  rewrite !length_app, Hmac. unfold HMAC_SIZE. lia.
Qed.

End WithLib.

(** X9 — Whatever the anomaly data, a packet that [send_elevation] hands to the
    socket never exceeds [MAX_PACKET_SIZE] bytes: it is the header, a
    payload within the budget and the 32 bytes of the HMAC. *)
Theorem send_elevation_packet_size (L : Lib) (s : FastPathSender)
  (env : SendEnv) (anomaly_data : list (string * json))
  (run_id : option string) (pkt : list byte) :
  (forall key msg, length (hmac_sha256 L key msg) = 32%nat) ->
  (send_elevation L s env anomaly_data run_id).1 = Ret pkt ->
  header_size s + HMAC_SIZE <= Z.of_nat (length pkt) <= MAX_PACKET_SIZE.
Proof.
  intros Hmac Hret.
  destruct (send_elevation_inv L s env anomaly_data run_id)
    as [H|(payload & Hb & H)]; rewrite H in Hret; cbn [fst] in Hret; [done|].
  apply build_packet_length in Hret; [|done].
  change (header_size (set_sequence s (sequence s + 1))) with (header_size s)
    in Hret.
  unfold payload_budget in Hb. lia.
Qed.

Lemma send_elevation_packet_size_witness :
  exists pkt,
    (send_elevation Examples.lib SenderFacts.young_sender
       SenderFacts.sample_env [] None).1 = Ret pkt /\
    header_size SenderFacts.young_sender + HMAC_SIZE
      <= Z.of_nat (length pkt) <= MAX_PACKET_SIZE.
Proof.
  destruct (send_elevation Examples.lib SenderFacts.young_sender
              SenderFacts.sample_env [] None).1 as [pkt|e] eqn:E.
  - exists pkt. split; [reflexivity|].
    apply (send_elevation_packet_size Examples.lib SenderFacts.young_sender
             SenderFacts.sample_env [] None pkt); [|exact E].
    intros key msg. apply RoundTrip.pad32_length.
  - vm_compute in E. discriminate E.
Defined.

End SenderProps.

(* ===================================================================== *)
(** * Sender and listener of different protocol versions                   *)
(* ===================================================================== *)

Module Interop.
Import Wire WireFacts.

Section WithLib.
Context (L : Lib).

(** The first five bytes of a version-2 packet. *)
Lemma build_packet_v2_prefix s now rand sq payload pkt :
  Sender.protocol_version s <> Sender.V3 ->
  Sender._build_packet L s now rand sq payload = Ret pkt ->
  exists rest, pkt = Sender.MAGIC ++ x02 :: rest.
Proof.
  intros Hv. unfold Sender._build_packet, Sender.header_fmt.
  assert (Hb : (Sender.protocol_version s =? Sender.V3) = false)
    by (by apply Z.eqb_neq).
  rewrite Hb. unfold Sender.struct_pack, Sender.V2_HEADER_FMT.
  cbn [Sender.pack_uints].
  change (pack_uint 1 Sender.V2) with (Some [x02]).
  destruct (pack_uint 1 Sender.TYPE_ELEVATION) as [b1|]; [|done].
  destruct (pack_uint 8 _) as [b2|]; [|done].
  destruct (pack_uint 2 sq) as [b3|]; [|done].
  destruct (pack_uint 2 _) as [b4|]; [|done].
  destruct (pack_uint 1 _) as [b5|]; [|done].
  intros [= <-]. eexists. cbn. reflexivity.
Qed.

End WithLib.

(** X10 — A sender that speaks protocol version 2 is never heard by this
    listener: each of its packets is counted under [invalid_version], or
    dropped without a counter when it is shorter than a version-3 header
    and an HMAC, and the listener's replay state stays as it was. *)
Theorem v2_packet_never_delivered (L : Lib) (s : Sender.FastPathSender)
  (now : Q) (rand sq : Z) (payload pkt : list byte)
  (l : Listener.FastPathListener) (env : Listener.ProcEnv)
  (source : string * Z) :
  Sender.protocol_version s <> Sender.V3 ->
  Sender._build_packet L s now rand sq payload = Ret pkt ->
  Listener._process_packet L l env pkt source =
    (if Z.of_nat (length pkt) <? Listener.HEADER_SIZE + Listener.HMAC_SIZE
     then (l, Listener.Dropped)
     else (Listener.count l "invalid_version",
           Listener.Counted "invalid_version")).
Proof.
  intros Hv Hb.
  destruct (build_packet_v2_prefix L s now rand sq payload pkt Hv Hb)
    as [rest ->].
  unfold Listener._process_packet.
  destruct (_ <? _) eqn:Hlen; [done|]. apply Z.ltb_ge in Hlen.
  change (Listener.HEADER_SIZE + Listener.HMAC_SIZE) with 59 in Hlen.
  change (Z.to_nat Listener.HEADER_SIZE) with 27%nat.
  unfold Listener.struct_unpack, slice_to.
  rewrite length_take.
  replace (Z.of_nat (27 `min` length (Sender.MAGIC ++ x02 :: rest)))
    with Listener.HEADER_SIZE by (change Listener.HEADER_SIZE with 27; lia).
  rewrite Z.eqb_refl.
  cbn [Sender.MAGIC app take drop Listener.HEADER_FMT Listener.unpack_uints].
  reflexivity.
Qed.

Definition v2_sender : Sender.FastPathSender :=
  {| Sender.key_id := 1; Sender.dupes := 3; Sender.gap_ms := 6;
     Sender.protocol_version := Sender.V2; Sender.sequence := 5;
     Sender.src_id := 305419896; Sender.hmac_key := RoundTrip.sample_key |}.

Lemma v2_packet_never_delivered_witness :
  exists pkt,
    Sender._build_packet Examples.lib v2_sender 1700000000 2863311530 4
      Examples.doc_empty_object = Ret pkt /\
    Listener._process_packet Examples.lib RoundTrip.sample_listener
      RoundTrip.sample_proc_env pkt RoundTrip.sample_source =
    (if Z.of_nat (length pkt) <? Listener.HEADER_SIZE + Listener.HMAC_SIZE
     then (RoundTrip.sample_listener, Listener.Dropped)
     else (Listener.count RoundTrip.sample_listener "invalid_version",
           Listener.Counted "invalid_version")).
Proof.
  destruct (Sender._build_packet Examples.lib v2_sender 1700000000 2863311530
              4 Examples.doc_empty_object) as [pkt|e] eqn:E.
  - exists pkt. split; [reflexivity|].
    apply (v2_packet_never_delivered Examples.lib v2_sender 1700000000
             2863311530 4 Examples.doc_empty_object pkt); [|exact E].
    by vm_compute.
  - vm_compute in E. discriminate E.
Defined.

Section Numbering.
Context (L : Lib).

Lemma send_elevation_header s env ad rid pkt :
  Sender.protocol_version s = Sender.V3 ->
  (Sender.send_elevation L s env ad rid).1 = Ret pkt ->
  exists h,
    Listener.struct_unpack (slice_to (Z.to_nat Listener.HEADER_SIZE) pkt)
      = Some h /\
    Listener.seq16 h = Z.land (Sender.sequence s) 65535 /\
    Listener.src_id h = Sender.src_id s /\
    Listener.key_id h = Sender.key_id s.
Proof.
  intros Hv Hret.
  destruct (SenderFacts.send_elevation_inv L s env ad rid)
    as [H|(payload & _ & H)]; rewrite H in Hret; cbn [fst] in Hret; [done|].
  apply RoundTrip.build_packet_inv in Hret as (hb & Hpack & ->); [|done].
  apply RoundTrip.struct_unpack_pack in Hpack as (Hlen & _ & _ & Hun).
  eexists. split.
  - change (Z.to_nat Listener.HEADER_SIZE) with 27%nat. unfold slice_to.
    rewrite <- app_assoc. rewrite take_app_length' by done. exact Hun.
  - done.
Qed.

Lemma send_elevation_sequence s env ad rid :
  (Sender.send_elevation L s env ad rid).2 =
  Sender.set_sequence s (Sender.sequence s + 1).
Proof.
  by destruct (SenderFacts.send_elevation_inv L s env ad rid)
    as [->|(payload & _ & ->)].
Qed.

End Numbering.

(** X11 — The packets of a version-3 sender are numbered in the order of the
    calls: the packet of the [k]-th call of a run carries the sender's
    source id and key id and the sequence number [(sequence + k) & 0xFFFF].
    A call that raises still uses up its number, so the counter has
    advanced by the number of calls when the run ends. *)
Theorem wire_sequence_numbers (L : Lib) (s : Sender.FastPathSender)
  (reqs : list (Sender.SendEnv * list (string * json) * option string)) :
  Sender.protocol_version s = Sender.V3 ->
  Sender.sequence (Sender.send_all L s reqs).2 =
    Sender.sequence s + Z.of_nat (length reqs) /\
  forall (k : nat) (pkt : list byte),
    (Sender.send_all L s reqs).1 !! k = Some (Ret pkt) ->
    exists h,
      Listener.struct_unpack (slice_to (Z.to_nat Listener.HEADER_SIZE) pkt)
        = Some h /\
      Listener.seq16 h = Z.land (Sender.sequence s + Z.of_nat k) 65535 /\
      Listener.src_id h = Sender.src_id s /\
      Listener.key_id h = Sender.key_id s.
Proof.
  revert s. induction reqs as [|[[env ad] rid] reqs IH]; intros s Hv.
  - cbn. split; [lia|]. intros k pkt Hk. by rewrite lookup_nil in Hk.
  - cbn [Sender.send_all length].
    pose proof (send_elevation_header L s env ad rid) as Hh.
    pose proof (send_elevation_sequence L s env ad rid) as Hs.
    destruct (Sender.send_elevation L s env ad rid) as [r s1].
    cbn [fst snd] in Hh, Hs. subst s1.
    destruct (IH (Sender.set_sequence s (Sender.sequence s + 1)) Hv)
      as [Hseq Hpk].
    destruct (Sender.send_all L _ reqs) as [rs s2]. cbn [fst snd] in *.
    cbn [Sender.sequence Sender.set_sequence Sender.src_id Sender.key_id]
      in Hseq, Hpk.
    split; [lia|]. intros [|k] pkt Hk; cbn in Hk.
    + injection Hk as ->. rewrite Z.add_0_r. by apply Hh.
    + destruct (Hpk k pkt Hk) as (h & Hu & Hsq & Hsrc & Hkid).
      exists h. split; [done|]. split; [|done].
      rewrite Hsq. f_equal. lia.
Qed.

Lemma wire_sequence_numbers_witness :
  Sender.sequence
    (Sender.send_all Examples.lib SenderFacts.young_sender
       [(SenderFacts.sample_env, [], None)]).2 = 6.
Proof.
  apply (wire_sequence_numbers Examples.lib SenderFacts.young_sender
           [(SenderFacts.sample_env, [], None)]).
  reflexivity.
Defined.

End Interop.

(* ===================================================================== *)
(** * The watcher over whole runs                                          *)
(* ===================================================================== *)

Module GossipRuns.
Import Gossip GossipFacts.

(** ** Confidence *)



(** ** Bounds on the quorum metrics *)









(** ** Runs of the watcher *)

(** What reaches a watcher: a lease event that parsed into a signal, or a
    payload delivered by the fast-path listener. *)
Inductive event : Type :=
| Lease (env : WatchEnv) (run : option string) (signal : LeaseSignal)
| FastPath (decision_now perf_counter : Q)
    (elevation_data : list (string * json)).

Section Runs.
Context (L : Lib).

Definition step (w : DualPathWatcher) (ev : event) : DualPathWatcher :=
  match ev with
  | Lease env run signal => (on_lease_signal L w env run signal).1
  | FastPath t1 t2 data => (handle_fastpath_signal L w t1 t2 data).1
  end.

(** The artifact a step asks a background thread to write on the lease
    path, if any. *)
Definition lease_elevation (w : DualPathWatcher) (ev : event)
  : option bg_args :=
  match ev with
  | Lease env run signal => (on_lease_signal L w env run signal).2
  | FastPath _ _ _ => None
  end.

Fixpoint lease_elevations (w : DualPathWatcher) (evs : list event)
  : list bg_args :=
  match evs with
  | [] => []
  | ev :: evs' =>
      match lease_elevation w ev with
      | Some a => a :: lease_elevations (step w ev) evs'
      | None => lease_elevations (step w ev) evs'
      end
  end.

Definition run (w : DualPathWatcher) (evs : list event) : DualPathWatcher :=
  fold_left step evs w.

Lemma should_elevate_elevated w now m :
  let r := should_elevate w now m in
  (r.1.1 = true -> elevated w = false /\ elevated r.2 = true) /\
  (elevated w = true -> elevated r.2 = true) /\
  signals r.2 = signals w.
Proof.
  unfold should_elevate. destruct m as [m|]; [|done].
  repeat (case_match; cbn [fst snd elevated with_decision signals]; try done).
Qed.

Lemma step_elevated w ev :
  (is_Some (lease_elevation w ev) ->
   elevated w = false /\ elevated (step w ev) = true) /\
  (elevated w = true -> elevated (step w ev) = true).
Proof.
  destruct ev as [env run sig|t1 t2 data]; cbn [step lease_elevation].
  - unfold on_lease_signal.
    change (elevated w) with (elevated (append_signal w sig)).
    destruct (compute_sliding_window_quorum _ _ _) as [m|];
      [|split; [by intros [? ?]|done]].
    pose proof (should_elevate_elevated (append_signal w sig) (perf_decide env)
                  (Some m)) as (H1 & H2 & _).
    destruct (should_elevate _ _ _) as [[go r] w2]. cbn [fst snd] in *.
    destruct go; cbn [fst snd elevated with_decision].
    + split; [intros _; by apply H1|done].
    + split; [by intros [? ?]|done].
  - split; [by intros [? ?]|].
    unfold handle_fastpath_signal.
    repeat (case_match; cbn [fst elevated with_decision]; try done).
Qed.

Lemma lease_elevations_elevated evs : forall w,
  elevated w = true -> lease_elevations w evs = [].
Proof.
  induction evs as [|ev evs IH]; intros w Hw; [done|].
  cbn [lease_elevations]. destruct (step_elevated w ev) as [H1 H2].
  destruct (lease_elevation w ev) as [a|] eqn:Ha.
  - destruct H1 as [H1 _]; [done|]. congruence.
  - apply IH. by apply H2.
Qed.

Lemma append_signal_length w sig :
  (length (signals w) <= 1000)%nat ->
  (length (signals (append_signal w sig)) <= 1000)%nat /\
  last (signals (append_signal w sig)) = Some sig.
Proof.
  intros Hl. unfold append_signal. cbn [signals with_signals].
  destruct (1000 <? length (signals w ++ [sig]))%nat eqn:E.
  - rewrite length_drop, length_app. cbn [length]. split; [lia|].
    rewrite length_app in *. cbn [length] in *.
    apply Nat.ltb_lt in E.
    replace (length (signals w) + 1 - 500)%nat
      with (length (signals w) - 499 + 0)%nat by lia.
    rewrite drop_app_le by lia. by rewrite last_snoc.
  - apply Nat.ltb_ge in E. split; [done|]. by rewrite last_snoc.
Qed.

Lemma step_signals w ev :
  (length (signals w) <= 1000)%nat ->
  (length (signals (step w ev)) <= 1000)%nat.
Proof.
  intros Hl. destruct ev as [env run sig|t1 t2 data]; cbn [step].
  - unfold on_lease_signal.
    destruct (append_signal_length w sig Hl) as [H _].
    destruct (compute_sliding_window_quorum _ _ _) as [m|]; [|done].
    pose proof (should_elevate_elevated (append_signal w sig) (perf_decide env)
                  (Some m)) as (_ & _ & Hs).
    destruct (should_elevate _ _ _) as [[go r] w2]. cbn [fst snd] in *.
    destruct go; cbn [fst signals with_decision]; by rewrite Hs.
  - unfold handle_fastpath_signal.
    repeat (case_match; cbn [fst signals with_decision]; try done).
Qed.

End Runs.

(** X14 — A watcher elevates on the lease path at most once in its life: the
    first elevation, on either path, sets [elevated], nothing ever clears
    it, and an elevated watcher starts no further lease-path artifact. *)
Theorem lease_elevation_at_most_once (L : Lib) (w : DualPathWatcher)
  (evs : list event) :
  (length (lease_elevations L w evs) <= 1)%nat /\
  (elevated w = true ->
   lease_elevations L w evs = [] /\ elevated (run L w evs) = true).
Proof.
  split.
  - revert w. induction evs as [|ev evs IH]; intros w; [cbn; lia|].
    cbn [lease_elevations]. destruct (step_elevated L w ev) as [H1 _].
    destruct (lease_elevation L w ev) as [a|].
    + destruct H1 as [_ H1]; [done|].
      rewrite (lease_elevations_elevated L evs _ H1). cbn. lia.
    + apply IH.
  - intros Hw. split; [by apply lease_elevations_elevated|].
    revert w Hw. induction evs as [|ev evs IH]; intros w Hw; [done|].
    cbn [run fold_left]. apply IH. by apply (step_elevated L w ev).
Qed.

(** X15 — The list of signals a watcher holds never grows beyond 1000 entries,
    and a new signal is always kept, as the last entry. *)
Theorem signals_bounded (L : Lib) (ns : string) (window_ms quorum : Z)
  (node_thr fast_thr : Q) (evs : list event) (signal : LeaseSignal) :
  let w := run L (init ns window_ms quorum node_thr fast_thr) evs in
  (length (signals w) <= 1000)%nat /\
  (length (signals (append_signal w signal)) <= 1000)%nat /\
  last (signals (append_signal w signal)) = Some signal.
Proof.
  intros w.
  assert (Hl : (length (signals w) <= 1000)%nat).
  { unfold w. generalize (init ns window_ms quorum node_thr fast_thr)
      (Nat.le_0_l 1000 : (length (signals (init ns window_ms quorum node_thr
                                             fast_thr)) <= 1000)%nat).
    induction evs as [|ev evs IH]; intros w0 H0; [done|].
    cbn [run fold_left]. apply IH. by apply step_signals. }
  split; [done|]. by apply append_signal_length.
Qed.

End GossipRuns.

(* ===================================================================== *)
(** * The sentinel over whole runs                                         *)
(* ===================================================================== *)

Module TelemetryRuns.
Import Telemetry TelemetryFacts.

(** ** One tick, in full *)

Definition is_high (score : Q) : bool := Qlt_bool (7 # 10) score.

(** The three readings [score_signal] takes from the sketch and the graph
    of a tick.  The sketch is generated first and counts the anomaly
    simulation down, so the graph of the same tick already sees the
    counter of the next one. *)
Definition tick_ports (t : DualPathTelemetry) (r : Rand) : Z :=
  if 0 <? anomaly_signals t then randint r 11 8 25 else 0.

Definition tick_new_procs (t : DualPathTelemetry) (r : Rand) : Z :=
  if 0 <? anomaly_signals (generate_packet_sketch t r).2
  then randint r 16 3 8 else randint r 14 0 3.

Definition tick_network_procs (t : DualPathTelemetry) (r : Rand) : Z :=
  if 0 <? anomaly_signals (generate_packet_sketch t r).2
  then randint r 17 2 5 else 0.

Definition tick_raw (t : DualPathTelemetry) (r : Rand) : Q :=
  raw_score (inject_Z (tick_ports t r))
    (inject_Z (tick_new_procs t r) + inject_Z (tick_network_procs t r)).

Lemma Qmin_le_1 x : (Telemetry.Qmin x 1 <= 1)%Q.
Proof.
  unfold Telemetry.Qmin. destruct (Qle_bool x 1) eqn:E.
  - by apply Qle_bool_iff.
  - apply Qle_refl.
Qed.

Lemma raw_score_le_1 ports churn : (raw_score ports churn <= 1)%Q.
Proof.
  unfold raw_score.
  pose proof (Qmin_le_1 (ports / 10)). pose proof (Qmin_le_1 (churn / 8)).
  lra.
Qed.

(** What a tick publishes and leaves behind, for any random source. *)
Lemma tick_full t r :
  exists p t',
    tick t r = Ret (p, t') /\
    pub_score p =
      ((4 # 10) * tick_raw t r + (1 - (4 # 10)) * default 0 (_ewma t))%Q /\
    pub_seq p = sequence t + 1 /\
    pub_elevate p = is_high (pub_score p) && default false (_prev_high t) /\
    pub_fastpath p = Qle_bool (90 # 100) (pub_score p) /\
    sequence t' = sequence t + 1 /\ _ewma t' = Some (pub_score p) /\
    _prev_high t' = Some (is_high (pub_score p)) /\
    anomaly_signals t' =
      (if 0 <? anomaly_signals t then anomaly_signals t - 1
       else anomaly_signals t).
Proof.
  unfold tick, tick_raw, tick_ports, tick_new_procs, tick_network_procs,
    generate_packet_sketch.
  destruct (0 <? anomaly_signals t) eqn:E1; cbn [fst snd anomaly_signals];
    unfold generate_process_graph; cbn [anomaly_signals].
  - destruct (0 <? anomaly_signals t - 1) eqn:E2; cbn; eexists _, _;
      (split; [reflexivity|]);
      cbn [pub_score pub_seq pub_elevate pub_fastpath sequence _ewma
             _prev_high anomaly_signals];
      repeat split.
  - rewrite E1. cbn. eexists _, _. split; [reflexivity|].
    cbn [pub_score pub_seq pub_elevate pub_fastpath sequence _ewma
           _prev_high anomaly_signals].
    repeat split.
Qed.

(** ** How fast a score can rise *)

(** [(1 - alpha)^k] for the smoothing factor [alpha = 0.4]. *)
Fixpoint decay (k : nat) : Q :=
  match k with
  | O => 1
  | S k' => (1 - (4 # 10)) * decay k'
  end.

Lemma decay_pos k : (0 < decay k)%Q.
Proof. induction k as [|k IH]; cbn [decay]; lra. Qed.

Lemma run_floor rs : forall t (k0 : nat),
  (default 0 (_ewma t) <= 1 - decay k0)%Q ->
  ((k0 <= 2)%nat -> default false (_prev_high t) = false) ->
  exists ps,
    run t rs = Ret ps /\ length ps = length rs /\
    forall (k : nat) p, ps !! k = Some p ->
      pub_seq p = sequence t + Z.of_nat k + 1 /\
      (pub_score p <= 1 - decay (S (k0 + k)))%Q /\
      ((k0 + k < 3)%nat -> pub_elevate p = false) /\
      ((k0 + k < 4)%nat -> pub_fastpath p = false).
Proof.
  induction rs as [|[r trig] rs IH]; intros t k0 He Hp.
  - exists []. split; [done|]. split; [done|]. intros k p Hk.
    by rewrite lookup_nil in Hk.
  - cbn [run].
    set (t0 := match trig with
               | Some n => trigger_anomaly_simulation t n
               | None => t
               end).
    assert (H0 : _ewma t0 = _ewma t /\ _prev_high t0 = _prev_high t /\
                 sequence t0 = sequence t) by (subst t0; by destruct trig).
    destruct H0 as (He0 & Hp0 & Hs0).
    destruct (tick_full t0 r)
      as (p & t' & Ht & Hscore & Hseq & Hel & Hfp & Hseq' & Hew & Hph & _).
    rewrite Ht. cbn [bind]. rewrite He0, Hp0, Hs0 in *.
    pose proof (raw_score_le_1 (inject_Z (tick_ports t0 r))
                  (inject_Z (tick_new_procs t0 r) +
                   inject_Z (tick_network_procs t0 r))) as Hraw.
    fold (tick_raw t0 r) in Hraw.
    pose proof (decay_pos k0) as Hd.
    assert (Hle : (pub_score p <= 1 - decay (S k0))%Q).
    { rewrite Hscore. cbn [decay]. lra. }
    assert (Hhigh : (k0 <= 1)%nat -> is_high (pub_score p) = false).
    { intros Hk. unfold is_high. apply GossipFacts.Qlt_bool_false.
      destruct k0 as [|[|k0]]; [| |lia]; cbn [decay] in Hle; lra. }
    destruct (IH t' (S k0)) as (ps & Hps & Hlen & Hall).
    { by rewrite Hew. }
    { intros Hk. rewrite Hph. cbn. apply Hhigh. lia. }
    rewrite Hps. cbn [bind]. exists (p :: ps).
    split; [done|]. split; [cbn; by rewrite Hlen|].
    intros [|k] q Hq; cbn in Hq.
    + injection Hq as <-. rewrite Nat.add_0_r.
      split; [lia|]. split; [done|]. split.
      * intros Hk. rewrite Hel, Hp by lia. apply andb_false_r.
      * intros Hk. rewrite Hfp. apply GossipFacts.Qle_bool_false.
        destruct k0 as [|[|[|[|k0]]]]; [| | | |lia]; cbn [decay] in Hle; lra.
    + destruct (Hall k q Hq) as (H1 & H2 & H3 & H4).
      replace (S k0 + k)%nat with (k0 + S k)%nat in * by lia.
      split; [lia|]. done.
Qed.

(** X16 — A fresh sentinel cannot raise an alarm at once, however alarming the
    readings: the smoothed score after [k] ticks is at most [1 - 0.6^k],
    so the elevate flag, which needs two consecutive scores above 0.7,
    stays down on the first three ticks, and the fast-path threshold of
    0.90 is out of reach on the first four.  The ticks carry the sequence
    numbers 1, 2, 3, .... *)
Theorem detection_latency_floor (rs : list (Rand * option Z)) :
  exists ps,
    run init rs = Ret ps /\ length ps = length rs /\
    forall (k : nat) p, ps !! k = Some p ->
      pub_seq p = Z.of_nat k + 1 /\
      (pub_score p <= 1 - decay (S k))%Q /\
      ((k < 3)%nat -> pub_elevate p = false) /\
      ((k < 4)%nat -> pub_fastpath p = false).
Proof.
  destruct (run_floor rs init 0) as (ps & Hps & Hlen & Hall).
  - cbn. lra.
  - done.
  - exists ps. split; [done|]. split; [done|]. intros k p Hk.
    destruct (Hall k p Hk) as (H1 & H2 & H3 & H4). cbn in H1.
    split; [lia|]. done.
Qed.

(** ** How fast a score must rise *)

(** The least score after [k] ticks of a simulated anomaly: each raw score
    is at least [0.7 * 0.8 + 0.3 * 5/8 = 0.7475]. *)
Fixpoint rise (k : nat) : Q :=
  match k with
  | O => 0
  | S k' => (4 # 10) * (299 # 400) + (1 - (4 # 10)) * rise k'
  end.

Lemma rise_high k : (6 <= k)%nat -> (7 # 10 < rise k)%Q.
Proof.
  induction 1 as [|k _ IH]; [vm_compute; reflexivity|].
  cbn [rise]. lra.
Qed.

Lemma Qmin_1_ge x c : (c <= x)%Q -> (c <= 1)%Q -> (c <= Telemetry.Qmin x 1)%Q.
Proof.
  intros Hx Hc. unfold Telemetry.Qmin. by destruct (Qle_bool x 1).
Qed.

Lemma tick_raw_anomalous t r :
  Rand_ok r -> 2 <= anomaly_signals t -> (299 # 400 <= tick_raw t r)%Q.
Proof.
  intros [Hr _] Ha. unfold tick_raw, tick_ports, tick_new_procs,
    tick_network_procs, generate_packet_sketch.
  assert (E1 : (0 <? anomaly_signals t) = true) by (apply Z.ltb_lt; lia).
  rewrite E1. cbn [snd anomaly_signals].
  assert (E2 : (0 <? anomaly_signals t - 1) = true) by (apply Z.ltb_lt; lia).
  rewrite E2.
  pose proof (Hr 11%nat 8 25 ltac:(lia)) as Hp.
  pose proof (Hr 16%nat 3 8 ltac:(lia)) as Hn.
  pose proof (Hr 17%nat 2 5 ltac:(lia)) as Hw.
  set (ports := randint r 11 8 25) in *.
  set (np := randint r 16 3 8) in *. set (nw := randint r 17 2 5) in *.
  assert (Hp' : (8 <= inject_Z ports)%Q)
    by (change (inject_Z 8 <= inject_Z ports)%Q; rewrite <- Zle_Qle; lia).
  assert (Hc' : (5 <= inject_Z np + inject_Z nw)%Q).
  { rewrite <- inject_Z_plus. change (inject_Z 5 <= inject_Z (np + nw))%Q.
    rewrite <- Zle_Qle. lia. }
  unfold raw_score.
  assert (H1 : (8 # 10 <= Telemetry.Qmin (inject_Z ports / 10) 1)%Q).
  { apply Qmin_1_ge; [|lra]. apply Qle_shift_div_l; lra. }
  assert (H2 : (5 # 8 <= Telemetry.Qmin ((inject_Z np + inject_Z nw) / 8) 1)%Q).
  { apply Qmin_1_ge; [|lra]. apply Qle_shift_div_l; lra. }
  lra.
Qed.

Lemma run_rise rs : forall t (k0 : nat),
  Forall (fun x => Rand_ok x.1 /\ x.2 = None) rs ->
  Z.of_nat (length rs) + 1 <= anomaly_signals t ->
  (rise k0 <= default 0 (_ewma t))%Q ->
  ((6 <= k0)%nat -> default false (_prev_high t) = true) ->
  exists ps,
    run t rs = Ret ps /\ length ps = length rs /\
    forall (k : nat) p, ps !! k = Some p ->
      (rise (S (k0 + k)) <= pub_score p)%Q /\
      ((6 <= k0 + k)%nat -> pub_elevate p = true).
Proof.
  induction rs as [|[r trig] rs IH]; intros t k0 Hall Ha He Hp.
  - exists []. split; [done|]. split; [done|]. intros k p Hk.
    by rewrite lookup_nil in Hk.
  - apply Forall_cons in Hall as [[Hr Htrig] Hall]. cbn [fst snd] in Hr, Htrig.
    subst trig. cbn [run length] in *.
    destruct (tick_full t r)
      as (p & t' & Ht & Hscore & _ & Hel & _ & _ & Hew & Hph & Han).
    rewrite Ht. cbn [bind].
    pose proof (tick_raw_anomalous t r Hr ltac:(lia)) as Hraw.
    assert (Hge : (rise (S k0) <= pub_score p)%Q).
    { rewrite Hscore. cbn [rise]. lra. }
    assert (Hhigh : (5 <= k0)%nat -> is_high (pub_score p) = true).
    { intros Hk. unfold is_high. apply GossipFacts.Qlt_bool_iff.
      pose proof (rise_high (S k0) ltac:(lia)). lra. }
    assert (E1 : (0 <? anomaly_signals t) = true) by (apply Z.ltb_lt; lia).
    rewrite E1 in Han.
    destruct (IH t' (S k0) Hall) as (ps & Hps & Hlen & Hrest).
    { lia. }
    { by rewrite Hew. }
    { intros Hk. rewrite Hph. cbn. apply Hhigh. lia. }
    rewrite Hps. cbn [bind]. exists (p :: ps).
    split; [done|]. split; [cbn; by rewrite Hlen|].
    intros [|k] q Hq; cbn in Hq.
    + injection Hq as <-. rewrite Nat.add_0_r. split; [done|].
      intros Hk. rewrite Hel, Hp by done. rewrite Hhigh by lia. done.
    + destruct (Hrest k q Hq) as (H1 & H2).
      replace (S k0 + k)%nat with (k0 + S k)%nat in * by lia. done.
Qed.

(** X17 — A simulated anomaly that lasts is reported: when the simulation is
    triggered for [n] signals and the loop then makes fewer than [n] ticks,
    every tick from the seventh on publishes the elevate flag, whatever the
    random source draws within its ranges and whatever the score was
    before. *)
Theorem sustained_anomaly_elevates (t : DualPathTelemetry) (n : Z) (r : Rand)
  (rs : list (Rand * option Z)) :
  ewma_ok t -> Rand_ok r ->
  Forall (fun x => Rand_ok x.1 /\ x.2 = None) rs ->
  Z.of_nat (length rs) + 2 <= n ->
  exists ps,
    run t ((r, Some n) :: rs) = Ret ps /\ length ps = S (length rs) /\
    forall (k : nat) p,
      ps !! k = Some p -> (6 <= k)%nat -> pub_elevate p = true.
Proof.
  intros Hok Hr Hrs Hn.
  change (run t ((r, Some n) :: rs))
    with (run (trigger_anomaly_simulation t n) ((r, None) :: rs)).
  destruct (run_rise ((r, None) :: rs) (trigger_anomaly_simulation t n) 0)
    as (ps & Hps & Hlen & Hall).
  - by apply Forall_cons.
  - cbn [length anomaly_signals trigger_anomaly_simulation]. lia.
  - cbn [rise _ewma trigger_anomaly_simulation]. unfold ewma_ok in Hok.
    destruct (_ewma t) as [q|]; cbn; [apply Hok|lra].
  - lia.
  - exists ps. split; [done|]. split; [done|]. intros k p Hk H6.
    by apply (Hall k p Hk).
Qed.

Lemma sustained_anomaly_elevates_witness :
  exists ps,
    run init ((TelemetryFacts.lowest, Some 10)
              :: replicate 7 (TelemetryFacts.lowest, None)) = Ret ps /\
    length ps = 8%nat /\
    forall (k : nat) p,
      ps !! k = Some p -> (6 <= k)%nat -> pub_elevate p = true.
Proof.
  apply (sustained_anomaly_elevates init 10 TelemetryFacts.lowest
           (replicate 7 (TelemetryFacts.lowest, None))).
  - exact I.
  - apply TelemetryFacts.lowest_ok.
  - apply Forall_replicate. split; [apply TelemetryFacts.lowest_ok|reflexivity].
  - cbn. lia.
Defined.

(** ** Hysteresis and the anomaly simulation *)

(** X18 — [trigger_anomaly_simulation(n)] makes the next [n] sketches anomalous,
    but only the next [n - 1] process graphs: the sketch of a tick is
    generated first and counts the simulation down, so the graph of the
    last simulated tick is an ordinary one. *)
Theorem anomaly_simulation_countdown (t : DualPathTelemetry) (r : Rand) :
  let sketch := (generate_packet_sketch t r).1 in
  let t1 := (generate_packet_sketch t r).2 in
  let graph := generate_process_graph t1 r in
  anomaly_signals t1 =
    (if 0 <? anomaly_signals t then anomaly_signals t - 1
     else anomaly_signals t) /\
  dict_mem "scan_ports" sketch = (0 <? anomaly_signals t) /\
  dict_mem "network_procs" graph = (1 <? anomaly_signals t) /\
  dict_mem "anomaly_score" graph = (1 <? anomaly_signals t).
Proof.
  cbv zeta. unfold generate_packet_sketch, generate_process_graph.
  destruct (0 <? anomaly_signals t) eqn:E1; cbn [fst snd anomaly_signals].
  - assert (E : (0 <? anomaly_signals t - 1) = (1 <? anomaly_signals t)).
    { apply Z.ltb_lt in E1.
      destruct (1 <? anomaly_signals t) eqn:E2;
        [apply Z.ltb_lt in E2; apply Z.ltb_lt
        |apply Z.ltb_ge in E2; apply Z.ltb_ge]; lia. }
    rewrite E. by destruct (1 <? anomaly_signals t).
  - rewrite E1. apply Z.ltb_ge in E1.
    assert (E2 : (1 <? anomaly_signals t) = false) by (apply Z.ltb_ge; lia).
    by rewrite E2.
Qed.

End TelemetryRuns.

(* ===================================================================== *)
(** * The catalog: gates, dry run, and the monitor thread                  *)
(* ===================================================================== *)

Module MicroActGates.
Import MicroAct MicroActFacts.

(** ** What a success implies *)

Section WithLib.
Context (L : Lib) (cfg : Config).

Lemma applied_success c w act h ttl proof resource msg probe res :
  (applied L c w act h ttl proof resource msg probe).1 = Ret res ->
  revert_handle res = Some h.
Proof.
  unfold applied. repeat (case_match; cbn [fst]; try done).
  by intros [= <-].
Qed.

End WithLib.

(** X19 — [execute] reports a success only when every gate was passed: the
    action is registered, its ring is within [MAX_RING], every required
    parameter is present and the parameter values passed validation.  In
    particular no action above [MAX_RING] is ever applied. *)
Theorem success_passed_every_gate (L : Lib) (cfg : Config)
  (c : MicroActCatalog) (w : World) (act : string)
  (params : list (string * json)) (res : ActuationResult) :
  (execute L cfg c w act params).1 = Ret res -> success res = true ->
  exists action,
    actions c !! act = Some action /\
    ring_value (ring action) <= MAX_RING cfg /\
    (forall req, In req (default [] (requires_params action)) ->
       dict_mem req params = true) /\
    validate_values L params = Ret None.
Proof.
  unfold execute.
  destruct (actions c !! act) as [action|]; [|by intros [= <-]].
  destruct (MAX_RING cfg <? ring_value (ring action)) eqn:Hring;
    [by intros [= <-]|]. apply Z.ltb_ge in Hring.
  destruct (List.filter _ _) as [|m ms] eqn:Hmiss; [|by intros [= <-]].
  destruct (validate_values L params) as [[msg|]|e]; [by intros [= <-]| |done].
  intros _ _. exists action. split; [done|]. split; [done|]. split; [|done].
  intros req Hreq. destruct (dict_mem req params) eqn:Hm; [done|].
  assert (Hin : In req (List.filter (fun req => negb (dict_mem req params))
                          (default [] (requires_params action)))).
  { apply filter_In. split; [done|]. by rewrite Hm. }
  by rewrite Hmiss in Hin.
Qed.

Lemma success_passed_every_gate_witness :
  exists action,
    actions new_catalog !! "egress_rate_limit"%string = Some action /\
    ring_value (ring action) <= MAX_RING default_config.
Proof.
  destruct (execute Examples.lib default_config new_catalog
              MicroActFacts.sample_world "egress_rate_limit"
              MicroActFacts.limit_params).1 as [res|e] eqn:E.
  - destruct (success_passed_every_gate Examples.lib default_config
                new_catalog MicroActFacts.sample_world "egress_rate_limit"
                MicroActFacts.limit_params res E) as (action & H1 & H2 & _).
    + vm_compute in E. injection E as <-. reflexivity.
    + by exists action.
  - vm_compute in E. discriminate E.
Defined.

Section Live.
Context (L : Lib) (cfg : Config) (Hlive : DRY_RUN cfg = false).

(** An executor that ends in a value without success. *)
Definition fails (rc : result ActuationResult * MicroActCatalog) : Prop :=
  forall res, rc.1 = Ret res -> success res = false.

Ltac live_fail :=
  unfold fails, raising, item; rewrite ?Hlive;
  repeat (case_match; cbn [fst]; try done);
  by intros ? [= <-].

Lemma egress_limit_live c w params ttl proof :
  fails (_execute_egress_limit L cfg c w params ttl proof).
Proof. unfold _execute_egress_limit. live_fail. Qed.

Lemma token_revoke_live c w params ttl proof :
  fails (_execute_token_revoke L cfg c w params ttl proof).
Proof. unfold _execute_token_revoke. live_fail. Qed.

Lemma dns_sinkhole_live c w params ttl proof :
  fails (_execute_dns_sinkhole L cfg c w params ttl proof).
Proof. unfold _execute_dns_sinkhole. live_fail. Qed.

Lemma process_freeze_live c w params ttl proof :
  fails (_execute_process_freeze L cfg c w params ttl proof).
Proof. unfold _execute_process_freeze. live_fail. Qed.

Lemma container_pause_live c w params ttl proof :
  fails (_execute_container_pause L cfg c w params ttl proof).
Proof. unfold _execute_container_pause. live_fail. Qed.

Lemma pod_isolate_live c w params ttl proof res :
  (_execute_pod_isolate L cfg c w params ttl proof).1 = Ret res ->
  success res = true ->
  exists file, policy_file w = Ret file /\
    (subprocess_run w ["kubectl"; "apply"; "-f"; file]%string).1 = true.
Proof.
  unfold _execute_pod_isolate, raising, item, _run. rewrite Hlive.
  destruct (dict_get "namespace" params); [|done].
  destruct (dict_get "selector" params); [|done].
  destruct (policy_file w) as [file|]; [|done].
  destruct (subprocess_run w _) as [ok output] eqn:Hrun.
  destruct ok; [|by intros [= <-]].
  intros _ _. exists file. split; [done|]. by rewrite Hrun.
Qed.

End Live.

(** X20 — Outside dry-run mode only two actions can succeed: the anomaly log and
    the network isolation, and the isolation only when [kubectl apply]
    reported success.  The other five end in a failure. *)
Theorem live_mode_actions (L : Lib) (cfg : Config) (c : MicroActCatalog)
  (w : World) (act : string) (params : list (string * json))
  (res : ActuationResult) :
  DRY_RUN cfg = false ->
  (execute L cfg c w act params).1 = Ret res -> success res = true ->
  act = "log_anomaly"%string \/
  act = "networkpolicy_isolate"%string /\
  exists file, policy_file w = Ret file /\
    (subprocess_run w ["kubectl"; "apply"; "-f"; file]%string).1 = true.
Proof.
  intros Hlive. unfold execute.
  destruct (actions c !! act) as [action|]; [|by intros [= <-]].
  destruct (MAX_RING cfg <? ring_value (ring action)); [by intros [= <-]|].
  destruct (List.filter _ _) as [|m ms]; [|by intros [= <-]].
  destruct (validate_values L params) as [[msg|]|e]; [by intros [= <-]| |done].
  set (ttl := dict_get_default _ _ _). set (proof := _compute_proof _ _ _ _ _).
  assert (Hfail : forall rc, fails rc ->
            (let '(r, c') := rc in
             match r with
             | Ret res => (Ret res, c')
             | Raise e =>
                 (Ret (failure ("Execution failed: " ++ exn_text e)%string), c')
             end).1 = Ret res -> success res = true -> False).
  { intros [[r|e] c'] Hf; cbn [fst].
    - intros [= ->] Hs. specialize (Hf res eq_refl). congruence.
    - by intros [= <-]. }
  destruct (String.eqb act "networkpolicy_isolate") eqn:E1.
  { apply String.eqb_eq in E1 as ->.
    pose proof (fun r => pod_isolate_live L cfg Hlive c w params ttl proof r)
      as Hp.
    destruct (_execute_pod_isolate L cfg c w params ttl proof) as [[r|e] c'];
      cbn [fst] in *.
    - intros [= ->] Hs. right. split; [done|]. eapply Hp; [reflexivity|done].
    - by intros [= <-]. }
  destruct (String.eqb act "egress_rate_limit").
  { intros H1 H2. exfalso. eapply Hfail; [|exact H1|exact H2].
    by apply egress_limit_live. }
  destruct (String.eqb act "token_revoke").
  { intros H1 H2. exfalso. eapply Hfail; [|exact H1|exact H2].
    by apply token_revoke_live. }
  destruct (String.eqb act "log_anomaly") eqn:E4;
    [apply String.eqb_eq in E4 as ->; by left|].
  destruct (String.eqb act "dns_sinkhole").
  { intros H1 H2. exfalso. eapply Hfail; [|exact H1|exact H2].
    by apply dns_sinkhole_live. }
  destruct (String.eqb act "process_freeze").
  { intros H1 H2. exfalso. eapply Hfail; [|exact H1|exact H2].
    by apply process_freeze_live. }
  destruct (String.eqb act "container_pause").
  { intros H1 H2. exfalso. eapply Hfail; [|exact H1|exact H2].
    by apply container_pause_live. }
  by intros [= <-].
Qed.

Definition live_config : Config := {| DRY_RUN := false; MAX_RING := 3 |}.

Definition isolate_params : list (string * json) :=
  [("namespace", JStr "default"); ("selector", JStr "app=web")]%string.

Lemma live_mode_actions_witness :
  "networkpolicy_isolate"%string = "log_anomaly"%string \/
  "networkpolicy_isolate"%string = "networkpolicy_isolate"%string /\
  exists file, policy_file MicroActFacts.sample_world = Ret file /\
    (subprocess_run MicroActFacts.sample_world
       ["kubectl"; "apply"; "-f"; file]%string).1 = true.
Proof.
  destruct (execute Examples.lib live_config new_catalog
              MicroActFacts.sample_world "networkpolicy_isolate"
              isolate_params).1 as [res|e] eqn:E.
  - apply (live_mode_actions Examples.lib live_config new_catalog
             MicroActFacts.sample_world "networkpolicy_isolate"
             isolate_params res); [reflexivity|exact E|].
    vm_compute in E. injection E as <-. reflexivity.
  - vm_compute in E. discriminate E.
Defined.

(** ** Dry run *)

(** The same world with another answer to every subprocess. *)
Definition with_subprocess (w : World) (f : list string -> bool * string)
  : World :=
  {| time_now := time_now w; mono_now := mono_now w; utc_now := utc_now w;
     subprocess_run := f; policy_file := policy_file w |}.

Section Dry.
Context (L : Lib) (cfg : Config) (Hdry : DRY_RUN cfg = true).

Lemma revert_action_dry w f act handle :
  _revert_action cfg (with_subprocess w f) act handle =
  _revert_action cfg w act handle.
Proof. unfold _revert_action, _run. by rewrite Hdry. Qed.

Lemma run_reverts_dry w f expired :
  run_reverts cfg (with_subprocess w f) expired = run_reverts cfg w expired.
Proof.
  induction expired as [|[h info] expired IH]; [done|].
  cbn [run_reverts]. by rewrite revert_action_dry, IH.
Qed.

End Dry.

(** X21 — In dry-run mode nothing the catalog does depends on a subprocess: an
    actuation and a round of the TTL monitor come out the same whatever a
    command would have answered, because no command is started. *)
Theorem dry_run_starts_no_process (L : Lib) (cfg : Config)
  (c : MicroActCatalog) (w : World) (f : list string -> bool * string)
  (act : string) (params : list (string * json)) :
  DRY_RUN cfg = true ->
  execute L cfg c (with_subprocess w f) act params = execute L cfg c w act params /\
  monitor_tick cfg c (with_subprocess w f) = monitor_tick cfg c w.
Proof.
  intros Hdry. split.
  - unfold execute, _execute_pod_isolate, _run. by rewrite Hdry.
  - unfold monitor_tick. by rewrite run_reverts_dry.
Qed.

Lemma dry_run_starts_no_process_witness :
  execute Examples.lib default_config new_catalog
    (with_subprocess MicroActFacts.sample_world
       (fun _ => (false, "refused"%string)))
    "egress_rate_limit" MicroActFacts.limit_params =
  execute Examples.lib default_config new_catalog MicroActFacts.sample_world
    "egress_rate_limit" MicroActFacts.limit_params /\
  monitor_tick default_config new_catalog
    (with_subprocess MicroActFacts.sample_world
       (fun _ => (false, "refused"%string))) =
  monitor_tick default_config new_catalog MicroActFacts.sample_world.
Proof.
  apply (dry_run_starts_no_process Examples.lib default_config new_catalog
           MicroActFacts.sample_world (fun _ => (false, "refused"%string))
           "egress_rate_limit" MicroActFacts.limit_params).
  reflexivity.
Defined.

(** ** The monitor thread and handles with a slash too many *)

Lemma split_on_nonempty sep s : split_on sep s <> [].
Proof.
  destruct s as [|c s]; cbn [split_on]; [done|].
  destruct (Ascii.eqb c sep); [done|]. by destruct (split_on sep s).
Qed.

Lemma split_on_length_app sep a b :
  length (split_on sep (a ++ String sep b)) =
  (length (split_on sep a) + length (split_on sep b))%nat.
Proof.
  induction a as [|c a IH]; simpl.
  - by rewrite Ascii.eqb_refl.
  - destruct (Ascii.eqb c sep); cbn [length]; [by rewrite IH|].
    pose proof (split_on_nonempty sep (a ++ String sep b)) as H1.
    pose proof (split_on_nonempty sep a) as H2.
    destruct (split_on sep (a ++ String sep b)), (split_on sep a);
      try done.
Qed.

Lemma split_on_length_pos sep s : (1 <= length (split_on sep s))%nat.
Proof.
  pose proof (split_on_nonempty sep s). destruct (split_on sep s); [done|].
  cbn. lia.
Qed.

Section Monitor.
Context (L : Lib) (cfg : Config).

Lemma run_reverts_raised w expired h info e :
  In (h, info) expired ->
  _revert_action cfg w (action_id info) h = RevertRaised e ->
  (run_reverts cfg w expired).2 = false.
Proof.
  induction expired as [|[h' info'] expired IH]; intros Hin Hr; [done|].
  cbn [run_reverts]. destruct Hin as [[= -> ->]|Hin].
  - by rewrite Hr.
  - specialize (IH Hin Hr).
    destruct (_revert_action cfg w (action_id info') h'); try done;
      destruct (run_reverts cfg w expired) as [os alive]; cbn [snd] in *;
      done.
Qed.

End Monitor.

#[local] Arguments float_add : simpl never.
#[local] Arguments fromtimestamp : simpl never.

(** X22 — A process freeze on a host whose name contains a slash is applied and
    scheduled for revert like any other (the call reports the success
    whenever the expiry date, two minutes after the wall clock, is an
    instant of [datetime]), but its handle [host/pid] then has more than
    two parts: the first round of the monitor after the TTL takes the
    entry off the table and fails to take the handle apart, which ends
    the monitor thread. *)
Theorem slash_in_host_stops_monitor (L : Lib) (cfg : Config)
  (c : MicroActCatalog) (w w' : World) (a b : string) (pid : Z) :
  DRY_RUN cfg = true -> 3 <= MAX_RING cfg ->
  actions c = actions new_catalog ->
  NoDup (dict_keys (active_ttls c)) ->
  (mono_now w + 120 <= mono_now w')%Q ->
  let host := (a ++ "/" ++ b)%string in
  let handle := (host ++ "/" ++ Gossip.decimal pid)%string in
  let r := execute L cfg c w "process_freeze"
             [("host", JStr host); ("pid", JInt pid)] in
  (exists res, r.1 = Ret res /\
     (in_datetime_range (time_now w + 120) = true ->
      success res = true /\ revert_handle res = Some handle)) /\
  (exists e, dict_get handle (active_ttls r.2) = Some e /\
             action_id e = "process_freeze"%string /\
             (expire_mono e == mono_now w + 120)%Q) /\
  (monitor_tick cfg r.2 w').2 = false /\
  dict_get handle (active_ttls (monitor_tick cfg r.2 w').1.1) = None.
Proof.
  intros Hdry Hring Hacts Hnd Hlate host handle r.
  assert (Hact : actions c !! "process_freeze"%string =
                 Some {| id := "process_freeze"; ring := RING_3;
                         name := "Process Freeze";
                         description :=
                           "Freeze process execution via cgroups freezer";
                         ttl_seconds := 120; supports_probe := true;
                         requires_params := Some ["host"; "pid"]%string;
                         optional_params := Some ["ttl_seconds"]%string |}).
  { rewrite Hacts. vm_compute. reflexivity. }
  set (entry := {| action_id := "process_freeze";
                   expire_mono := (mono_now w + 120)%Q;
                   applied_mono := mono_now w;
                   ttl_applied_at := isoformat L (utc_now w) |}).
  assert (Hfa : forall x, float_add x (JInt 120) = Ret (x + 120)%Q).
  { intros x. unfold float_add.
    assert (float_overflows 120 = false) as -> by (by vm_compute). done. }
  assert (Hr : exists res,
    r = (Ret res, {| actions := actions c;
                     active_ttls := dict_set handle entry (active_ttls c) |}) /\
    (in_datetime_range (time_now w + 120) = true ->
     success res = true /\ revert_handle res = Some handle)).
  { unfold r, execute. rewrite Hact. cbn [ring ring_value].
    assert (Hm : (MAX_RING cfg <? 3) = false) by (apply Z.ltb_ge; lia).
    rewrite Hm. cbn. rewrite Hdry. cbn.
    unfold applied, _schedule_ttl_revert, py_le. cbn [json_num bind].
    change (Qle_bool (inject_Z 120) 0) with false. cbn iota.
    rewrite !Hfa. cbn [bind]. unfold fromtimestamp.
    destruct (in_datetime_range (time_now w + 120)); cbn [fst snd].
    - eexists. split; [reflexivity|]. done.
    - eexists. split; [reflexivity|]. done. }
  destruct Hr as (res & Hr & Hok). rewrite Hr. cbn [fst snd active_ttls].
  split; [by exists res|]. split.
  { exists entry. split; [apply dict_get_set_eq|]. split; [done|reflexivity]. }
  assert (Hparts : length (split_on "/" handle) <> 2%nat).
  { unfold handle, host.
    change ((a ++ "/" ++ b) ++ "/" ++ Gossip.decimal pid)%string
      with ((a ++ String "/" b) ++ String "/" (Gossip.decimal pid))%string.
    rewrite !split_on_length_app.
    pose proof (split_on_length_pos "/" a).
    pose proof (split_on_length_pos "/" b).
    pose proof (split_on_length_pos "/" (Gossip.decimal pid)). lia. }
  assert (Hnd' : NoDup (dict_keys (dict_set handle entry (active_ttls c))))
    by (by apply dict_set_NoDup).
  split.
  - unfold monitor_tick. cbn [active_ttls].
    pose proof (run_reverts_raised cfg w'
                  (expired_at (mono_now w')
                     (dict_set handle entry (active_ttls c)))
                  handle entry ValueError) as Hrr.
    destruct (run_reverts cfg w' _) as [os alive]. cbn [snd] in *.
    apply Hrr.
    + apply filter_In. split.
      * apply dict_get_In, dict_get_set_eq.
      * by apply Qle_bool_iff.
    + cbn [action_id entry]. unfold _revert_action. cbn.
      unfold revert_stub. apply Nat.eqb_neq in Hparts. by rewrite Hparts.
  - apply (tick_removes cfg
             {| actions := actions c;
                active_ttls := dict_set handle entry (active_ttls c) |}
             w' handle entry); [done|apply dict_get_set_eq|done].
Qed.

Definition later_world : World :=
  {| time_now := 1700000120; mono_now := 1120; utc_now := 1700000120;
     subprocess_run := fun _ => (true, "ok"%string);
     policy_file := Ret "/tmp/policy.yaml"%string |}.

Lemma slash_in_host_stops_monitor_witness :
  let r := execute Examples.lib default_config new_catalog
             MicroActFacts.sample_world "process_freeze"
             [("host", JStr "rack/n1"); ("pid", JInt 42)]%string in
  (exists res, r.1 = Ret res /\ success res = true /\
               revert_handle res = Some "rack/n1/42"%string) /\
  (monitor_tick default_config r.2 later_world).2 = false.
Proof.
  pose proof (slash_in_host_stops_monitor Examples.lib default_config
                new_catalog MicroActFacts.sample_world later_world
                "rack" "n1" 42) as H.
  cbn zeta in H.
  destruct H as ((res & Hr & Hok) & _ & Hdead & _).
  - reflexivity.
  - by vm_compute.
  - reflexivity.
  - apply NoDup_nil_2.
  - by vm_compute.
  - cbn zeta. split; [|exact Hdead].
    exists res. split; [exact Hr|]. apply Hok. by vm_compute.
Defined.

End MicroActGates.

(* ===================================================================== *)
(** * Facts about the sender's burst of copies                             *)
(* ===================================================================== *)

Module DispatchFacts.
Import Sender Dispatch.

Definition Qsum (l : list Q) : Q := fold_right Qplus 0%Q l.

Definition Zsum (l : list Z) : Z := fold_right Z.add 0 l.

(** The longest nap before a copy, in milliseconds: none for a gap of
    zero, and the gap and its jitter otherwise. *)
Definition nap_budget (gs : list Z) : Z :=
  Zsum (map (fun d => if d =? 0 then 0 else d + 1) gs).

(** The count of copies a sender configured with [d] duplicates attempts. *)
Definition attempts (d : Z) : Z :=
  if d <? 0 then Z.max 0 (3 + d) else Z.min d 3.

Lemma Qsum_app (l1 l2 : list Q) : (Qsum (l1 ++ l2) == Qsum l1 + Qsum l2)%Q.
Proof.
  induction l1 as [|x l1 IH].
  - change (Qsum l2 == 0 + Qsum l2)%Q. lra.
  - change (x + Qsum (l1 ++ l2) == x + Qsum l1 + Qsum l2)%Q. rewrite IH. lra.
Qed.

Lemma py_prefix_length {A} (n : Z) (l : list A) :
  Z.of_nat (length (py_prefix n l)) =
  if n <? 0 then Z.max 0 (Z.of_nat (length l) + n)
  else Z.min n (Z.of_nat (length l)).
Proof.
  unfold py_prefix. destruct (n <? 0) eqn:E; rewrite length_take.
  - apply Z.ltb_lt in E. lia.
  - apply Z.ltb_ge in E. lia.
Qed.

Lemma py_prefix_incl {A} (n : Z) (l : list A) (P : A -> Prop) :
  Forall P l -> Forall P (py_prefix n l).
Proof.
  intros H. unfold py_prefix. destruct (n <? 0); by apply Forall_take.
Qed.

Lemma nap_budget_take (n : nat) (l : list Z) :
  Forall (fun d => 0 <= d) l ->
  0 <= nap_budget (take n l) <= nap_budget l.
Proof.
  intros H. revert n. induction H as [|d l Hd _ IH]; intros [|n].
  - by vm_compute.
  - by vm_compute.
  - change (nap_budget (take 0 (d :: l))) with 0.
    change (nap_budget (d :: l))
      with ((if d =? 0 then 0 else d + 1) + nap_budget l).
    specialize (IH 0%nat). rewrite take_0 in IH.
    change (nap_budget []) with 0 in IH. destruct (d =? 0); lia.
  - change (nap_budget (take (S n) (d :: l)))
      with ((if d =? 0 then 0 else d + 1) + nap_budget (take n l)).
    change (nap_budget (d :: l))
      with ((if d =? 0 then 0 else d + 1) + nap_budget l).
    specialize (IH n). destruct (d =? 0); lia.
Qed.

(** The loop sends or counts as dropped one copy for each gap, every copy
    is the packet, and each nap lasts at most one millisecond more than
    its gap. *)
Lemma send_copies_spec (k : Link) (packet : list byte) (gs : list Z) :
  (forall i, 0 <= randbelow2 k i <= 1) ->
  Forall (fun d => 0 <= d) gs ->
  forall i b,
  exists b',
    send_copies k packet i gs b = (b', None) /\
    Z.of_nat (length (sent b')) + dropped b' =
      Z.of_nat (length (sent b)) + dropped b + Z.of_nat (length gs) /\
    dropped b <= dropped b' /\
    (Forall (eq packet) (sent b) -> Forall (eq packet) (sent b')) /\
    (Qsum (slept b') <= Qsum (slept b) + inject_Z (nap_budget gs) / 1000)%Q /\
    (Forall (fun q => 0 <= q)%Q (slept b) ->
     Forall (fun q => 0 <= q)%Q (slept b')).
Proof.
  intros Hr Hgs. induction Hgs as [|d gs Hd _ IH]; intros i b.
  - exists b. cbn [send_copies length].
    repeat split; try done; try lia.
    assert (E : (inject_Z (nap_budget []) / 1000 == 0)%Q) by reflexivity.
    rewrite E. lra.
  - cbn [send_copies].
    assert (Hnap : (0 <= inject_Z (d + randbelow2 k i) / 1000)%Q).
    { apply Qle_shift_div_l; [reflexivity|]. rewrite Qmult_0_l.
      change 0%Q with (inject_Z 0). rewrite <- Zle_Qle.
      specialize (Hr i). lia. }
    assert (Hno : negb (d =? 0) && Qlt_bool (inject_Z (d + randbelow2 k i) / 1000) 0
                  = false).
    { apply andb_false_iff. right. unfold Qlt_bool.
      apply negb_false_iff. by apply Qle_bool_iff. }
    rewrite Hno.
    match goal with
    | |- context [send_copies k packet (S i) gs ?b2] =>
        destruct (IH (S i) b2) as (b' & Hrun & Hcount & Hdrop & Hall & Hsum & Hpos);
        set (B2 := b2) in *
    end.
    exists b'. split; [exact Hrun|].
    assert (Hc2 : Z.of_nat (length (sent B2)) + dropped B2 =
                  Z.of_nat (length (sent b)) + dropped b + 1).
    { subst B2. destruct (d =? 0), (send_raises k i);
        cbn [sent dropped]; rewrite ?length_app; cbn [length]; lia. }
    assert (Hd2 : dropped b <= dropped B2).
    { subst B2. destruct (d =? 0), (send_raises k i); cbn [dropped]; lia. }
    assert (Ha2 : Forall (eq packet) (sent b) -> Forall (eq packet) (sent B2)).
    { intros H. subst B2. destruct (d =? 0), (send_raises k i);
        cbn [sent]; try done; apply Forall_app; split; try done;
        by constructor. }
    assert (Hs2 : (Qsum (slept B2) <=
                   Qsum (slept b) +
                   inject_Z (if d =? 0 then 0 else d + 1) / 1000)%Q).
    { assert (H1 : (inject_Z (d + randbelow2 k i) / 1000 <=
                    inject_Z (d + 1) / 1000)%Q).
      { apply Qmult_le_compat_r; [|by vm_compute].
        rewrite <- Zle_Qle. specialize (Hr i). lia. }
      assert (E : (inject_Z 0 / 1000 == 0)%Q) by reflexivity.
      subst B2. destruct (d =? 0), (send_raises k i); cbn [slept];
        rewrite ?Qsum_app, ?E; cbn [Qsum fold_right]; lra. }
    assert (Hp2 : Forall (fun q => 0 <= q)%Q (slept b) ->
                  Forall (fun q => 0 <= q)%Q (slept B2)).
    { intros H. subst B2. destruct (d =? 0), (send_raises k i);
        cbn [slept]; try done; apply Forall_app; split; try done;
        by constructor. }
    repeat split.
    + cbn [length]. lia.
    + lia.
    + intros H. apply Hall, Ha2, H.
    + assert (He : (inject_Z (nap_budget (d :: gs)) / 1000 ==
                    inject_Z (if d =? 0 then 0 else d + 1) / 1000 +
                    inject_Z (nap_budget gs) / 1000)%Q).
      { change (nap_budget (d :: gs))
          with ((if d =? 0 then 0 else d + 1) + nap_budget gs).
        rewrite inject_Z_plus. unfold Qdiv. ring. }
      rewrite He. lra.
    + intros H. apply Hpos, Hp2, H.
Qed.

(** X23 — With a gap that is not negative, [_send_with_dupes] returns its
    statistics whatever the socket does; it attempts at most three copies
    (the configured count when that lies between 0 and 3, and [3 + dupes]
    of them for a negative count), every copy that leaves is the packet,
    each refused copy is counted, the statistics report the configured
    count of duplicates and not the count of attempts, and the naps add up
    to at most [max(1, gap_ms // 3) + gap_ms + 2] milliseconds. *)
Theorem send_with_dupes_attempts (s : FastPathSender) (k : Link)
  (packet : list byte) :
  0 <= gap_ms s ->
  (forall i, 0 <= randbelow2 k i <= 1) ->
  exists b st,
    _send_with_dupes s k packet = (b, Ret st) /\
    Z.of_nat (length (sent b)) + dropped b = attempts (Sender.dupes s) /\
    0 <= dropped b /\
    Forall (eq packet) (sent b) /\
    bytes st = Z.of_nat (length packet) /\
    Dispatch.dupes st = Sender.dupes s /\
    dropped_exceptions st = dropped b /\
    (0 <= Qsum (slept b) <=
       inject_Z (Z.max 1 (gap_ms s / 3) + gap_ms s + 2) / 1000)%Q.
Proof.
  intros Hgap Hr.
  assert (Hgs : Forall (fun d => 0 <= d) (gaps s)).
  { unfold gaps. repeat constructor; try lia. }
  pose proof (py_prefix_incl (Sender.dupes s) _ _ Hgs) as Hpre.
  destruct (send_copies_spec k packet _ Hr Hpre 0%nat
              {| sent := []; slept := []; dropped := 0 |})
    as (b & Hrun & Hcount & Hdrop & Hall & Hsum & Hpos).
  unfold _send_with_dupes. rewrite Hrun.
  eexists b, _. split; [reflexivity|]. cbn [sent dropped slept] in *.
  repeat split; try done.
  - rewrite Hcount, py_prefix_length. unfold attempts, gaps. cbn [length].
    destruct (Sender.dupes s <? 0); lia.
  - by apply Hall.
  - assert (H0 : Forall (fun q => 0 <= q)%Q (slept b)) by by apply Hpos.
    clear -H0. induction H0 as [|q l Hq _ IH]; cbn [Qsum fold_right]; [lra|].
    fold (Qsum l). lra.
  - cbn [Qsum fold_right] in Hsum.
    eapply Qle_trans; [exact Hsum|]. rewrite Qplus_0_l.
    apply Qmult_le_compat_r; [|by vm_compute]. rewrite <- Zle_Qle.
    assert (Hz : nap_budget (py_prefix (Sender.dupes s) (gaps s))
                 <= nap_budget (gaps s)).
    { unfold py_prefix. destruct (Sender.dupes s <? 0);
        apply nap_budget_take, Hgs. }
    assert (Hb : nap_budget (gaps s)
                 <= Z.max 1 (gap_ms s / 3) + gap_ms s + 2).
    { unfold gaps, nap_budget. cbn [map Zsum fold_right].
      change (0 =? 0) with true. cbv iota.
      destruct (Z.max 1 (gap_ms s / 3) =? 0), (gap_ms s =? 0); lia. }
    lia.
Qed.

Definition quiet_link : Link :=
  {| randbelow2 := fun _ => 1; send_raises := fun i => (i =? 1)%nat;
     mono_start := 0; mono_end := 0 |}.

Lemma send_with_dupes_attempts_witness :
  exists b st,
    _send_with_dupes SenderFacts.young_sender quiet_link [x41] = (b, Ret st) /\
    Z.of_nat (length (sent b)) + dropped b =
      attempts (Sender.dupes SenderFacts.young_sender) /\
    0 <= dropped b /\
    Forall (eq [x41]) (sent b) /\
    bytes st = 1 /\
    Dispatch.dupes st = Sender.dupes SenderFacts.young_sender /\
    dropped_exceptions st = dropped b /\
    (0 <= Qsum (slept b) <=
       inject_Z (Z.max 1 (gap_ms SenderFacts.young_sender / 3) +
                 gap_ms SenderFacts.young_sender + 2) / 1000)%Q.
Proof.
  apply (send_with_dupes_attempts SenderFacts.young_sender quiet_link [x41]).
  - vm_compute. discriminate.
  - intros i. cbn. lia.
Defined.

End DispatchFacts.

(* ===================================================================== *)
(** * Facts about the HMAC keys of sender and listener                     *)
(* ===================================================================== *)

Module KeysFacts.
Import Keys.

Section WithLib.
Context (L : Lib) (C : Codec).

Lemma given_Some (o : option string) (s : string) :
  o = Some s -> s <> EmptyString -> given o = Some s.
Proof.
  intros -> Hs. unfold given.
  destruct (String.eqb_spec s EmptyString) as [E|E]; [done|reflexivity].
Qed.

Lemma empty_keys_true (keys : gmap Z (list byte)) :
  empty_keys keys = true <-> keys = ∅.
Proof. unfold empty_keys. by rewrite bool_decide_eq_true. Qed.

Lemma empty_keys_insert (keys : gmap Z (list byte)) (i : Z) (k : list byte) :
  empty_keys (<[i := k]> keys) = false.
Proof.
  unfold empty_keys. apply bool_decide_eq_false. apply insert_non_empty.
Qed.

(** X24 — Sender and listener read the same environment in opposite
    orders.  With both variables set, the sender signs with the entry of
    [ASWARM_FASTPATH_KEYS] under its key id, while the listener holds the
    key of [ASWARM_FASTPATH_KEY] alone, under [ASWARM_FASTPATH_KEY_ID]
    (1 when unset), and never reads [ASWARM_FASTPATH_KEYS]. *)
Theorem key_precedence_differs (env : Environ) (keys_json key_source v : string)
  (key_map : list (string * json)) (key_id n : Z) (kb ks : list byte) :
  ASWARM_FASTPATH_KEYS env = Some keys_json -> keys_json <> EmptyString ->
  json_loads L (list_byte_of_string keys_json) = Some (JDict key_map) ->
  dict_get (Gossip.decimal key_id) key_map = Some (JStr v) ->
  v <> EmptyString ->
  _parse_keyval C v = Ret kb ->
  ASWARM_FASTPATH_KEY env = Some key_source -> key_source <> EmptyString ->
  _parse_keyval C key_source = Ret ks ->
  int_of_str L (default "1"%string (ASWARM_FASTPATH_KEY_ID env)) = Some n ->
  _load_key L C env None key_id = Ret kb /\
  init_keys L C env None = Ret {[ n := ks ]} /\
  forall other,
    init_keys L C
      {| ASWARM_FASTPATH_KEY := ASWARM_FASTPATH_KEY env;
         ASWARM_FASTPATH_KEYS := other;
         ASWARM_FASTPATH_KEY_ID := ASWARM_FASTPATH_KEY_ID env |} None =
    Ret {[ n := ks ]}.
Proof.
  intros Hkeys Hkj Hload Hget Hv Hkb Hkey Hks Hparse Hid.
  assert (Hinit : forall other,
    init_keys L C
      {| ASWARM_FASTPATH_KEY := ASWARM_FASTPATH_KEY env;
         ASWARM_FASTPATH_KEYS := other;
         ASWARM_FASTPATH_KEY_ID := ASWARM_FASTPATH_KEY_ID env |} None =
    Ret {[ n := ks ]}).
  { intros other. unfold init_keys, _load_keys.
    cbn [bind ASWARM_FASTPATH_KEY ASWARM_FASTPATH_KEYS ASWARM_FASTPATH_KEY_ID].
    assert (E0 : empty_keys (∅ : gmap Z (list byte)) = true)
      by by apply empty_keys_true.
    rewrite E0, (given_Some _ _ Hkey Hks), Hid, Hparse. cbn [bind].
    rewrite !empty_keys_insert. cbn [bind]. rewrite empty_keys_insert.
    by rewrite insert_empty. }
  split; [|split; [|exact Hinit]].
  - unfold _load_key. cbn [given].
    rewrite (given_Some _ _ Hkeys Hkj). unfold key_of_map.
    rewrite Hload, Hget. cbn [truthy].
    destruct (String.eqb_spec v EmptyString) as [E|E]; [done|].
    cbn [negb]. by rewrite Hkb.
  - specialize (Hinit (ASWARM_FASTPATH_KEYS env)). by destruct env.
Qed.

End WithLib.

(** ** A concrete environment *)

Definition dq : string := String (ascii_of_nat 34) EmptyString.

(** The document [{"1":"blue"}]. *)
Definition keys_document : string :=
  ("{" ++ dq ++ "1" ++ dq ++ ":" ++ dq ++ "blue" ++ dq ++ "}")%string.

(** A stand-in library that reads [keys_document] and the numeral 1, and
    a stand-in decoder that knows no encoded key. *)
Definition keys_lib : Lib :=
  {| hmac_sha256 := hmac_sha256 Examples.lib;
     sha256 := sha256 Examples.lib;
     json_dumps := json_dumps Examples.lib;
     json_loads := fun bs =>
       if bool_decide (bs = list_byte_of_string keys_document)
       then Some (JDict [("1"%string, JStr "blue"%string)]) else None;
     json_too_deep := json_too_deep Examples.lib;
     isoformat := isoformat Examples.lib;
     fromisoformat_timestamp := fromisoformat_timestamp Examples.lib;
     ip_in_network := ip_in_network Examples.lib;
     format_3f := format_3f Examples.lib;
     py_format := py_format Examples.lib;
     int_of_str := fun s => if String.eqb s "1" then Some 1 else None |}.

Definition no_codec : Codec :=
  {| b64decode := fun _ => None; fromhex := fun _ => None |}.

Definition both_set : Environ :=
  {| ASWARM_FASTPATH_KEY := Some "red"%string;
     ASWARM_FASTPATH_KEYS := Some keys_document;
     ASWARM_FASTPATH_KEY_ID := None |}.

Lemma key_precedence_differs_witness :
  _load_key keys_lib no_codec both_set None 1 =
    Ret (list_byte_of_string "blue") /\
  init_keys keys_lib no_codec both_set None =
    Ret {[ 1 := list_byte_of_string "red" ]} /\
  forall other,
    init_keys keys_lib no_codec
      {| ASWARM_FASTPATH_KEY := ASWARM_FASTPATH_KEY both_set;
         ASWARM_FASTPATH_KEYS := other;
         ASWARM_FASTPATH_KEY_ID := ASWARM_FASTPATH_KEY_ID both_set |} None =
    Ret {[ 1 := list_byte_of_string "red" ]}.
Proof.
  apply (key_precedence_differs keys_lib no_codec both_set keys_document
           "red" "blue" [("1"%string, JStr "blue"%string)] 1 1
           (list_byte_of_string "blue") (list_byte_of_string "red"));
    by vm_compute.
Defined.

End KeysFacts.

(* ===================================================================== *)
(** * Facts about the listener's statistics lock and back-pressure         *)
(* ===================================================================== *)

Module HealthFacts.
Import Listener Health.

(** X25 — [get_stats] never returns.  [Stats.get_snapshot] calls
    [get_drop_rate] while it holds the lock of the [Stats] object, and
    that lock is not re-entrant, so the call waits for a lock its own
    thread holds.  The lock stays held, and from then on every
    [increment], [record_latency] and [get_drop_rate] of any thread waits
    as well.  Called with the lock free, [get_drop_rate] by itself
    returns. *)
Theorem get_stats_never_returns (round : Q -> Z -> Q) (l : FastPathListener)
  (g : Gauge) (inflight : Z) (now : Q) :
  get_stats round Free l g inflight now = Blocked Held /\
  get_snapshot round Free (stats l) g now = Blocked Held /\
  (forall st counter n, increment_locked Held st counter n = Blocked Held) /\
  (forall g' ms, record_latency_locked Held g' ms = Blocked Held) /\
  (forall st g' t, get_drop_rate Held st g' t = Blocked Held) /\
  (forall st g' t,
     get_drop_rate Free st g' t = Returned (drop_rate_body st g' t)).
Proof.
  assert (H : get_snapshot round Free (stats l) g now = Blocked Held).
  { unfold get_snapshot, with_lock.
    destruct (latencies g); reflexivity. }
  unfold get_stats. rewrite H. repeat split.
Qed.

(** ** Runs of the listener with its monitor *)

Inductive event : Type :=
| Listen (ev : ListenerRuns.event)
| Watch (t_rate now : Q).

Section Runs.
Context (L : Lib).

Definition step (s : FastPathListener * Monitor) (ev : event)
  : FastPathListener * Monitor :=
  match ev with
  | Listen e => (ListenerRuns.step L s.1 e, s.2)
  | Watch t_rate now => (_monitor_step s.1 s.2 t_rate now).1
  end.

Definition run (s : FastPathListener * Monitor) (evs : list event)
  : FastPathListener * Monitor :=
  fold_left step evs s.

Lemma allow_ip_mode l now ip :
  system_mode (_allow_ip l now ip).1 = system_mode l.
Proof. unfold _allow_ip. repeat (case_match; cbn [fst]; try done). Qed.

Lemma listen_mode (l : FastPathListener) (e : ListenerRuns.event) :
  system_mode (ListenerRuns.step L l e) = system_mode l.
Proof.
  destruct e as [t1 t2 datagram source|env|now]; cbn [ListenerRuns.step].
  - unfold _receive_loop_step.
    destruct (negb _); cbn [fst]; [done|].
    pose proof (allow_ip_mode (count l "received") t1 source.1) as Ha.
    destruct (_allow_ip _ _ _) as [l1 ok]. cbn [fst] in Ha.
    destruct (negb ok); cbn [fst]; [done|].
    destruct (push _ _) as [rb clean]. cbn [fst]. exact Ha.
  - unfold _process_loop_step.
    destruct (pop (ring_buffer l)) as [rb [entry|]]; cbn [fst]; [|done].
    pose proof (ListenerRuns.process_packet_frame L (with_ring_buffer l rb)
                  env (data entry) (addr entry)) as (_ & Hm & _).
    cbn zeta in Hm.
    destruct (_process_packet L (with_ring_buffer l rb) env (data entry)
                (addr entry)) as [l1 o]. cbn [fst] in Hm.
    cbn [system_mode with_ring_buffer] in *.
    destruct (system_mode l) eqn:El; cbn [fst]; try done.
    destruct (capacity rb =? 0); cbn [fst system_mode with_ring_buffer];
      [done|].
    destruct (_ && _); cbn [fst system_mode with_ring_buffer]; done.
  - unfold _maintenance_step.
    destruct (expire_replay _ _ _) as [exp cache].
    destruct (evict_replay _ _ _) as [exp' cache'].
    cbn [get_dropped_count ring_buffer with_replay].
    destruct (0 <? _); reflexivity.
Qed.

(** What a round of the monitor does to the mode, by its verdict. *)
Lemma monitor_step_mode (l : FastPathListener) (m : Monitor) (t_rate now : Q) :
  let r := _monitor_step l m t_rate now in
  match r.2 with
  | Degrade _ =>
      system_mode l = NORMAL /\ system_mode r.1.1 = DEGRADED /\
      (3 < now - last_degrade_check m)%Q /\
      last_degrade_check r.1.2 = last_degrade_check m
  | Recover =>
      system_mode l = DEGRADED /\ system_mode r.1.1 = NORMAL /\
      last_degrade_check r.1.2 = now
  | _ =>
      system_mode r.1.1 = system_mode l /\
      last_degrade_check r.1.2 = last_degrade_check m
  end.
Proof.
  unfold _monitor_step.
  destruct (drop_rate_body (stats l) (gauge m) t_rate) as [[st g] [rate window]].
  cbn [system_mode with_stats ring_buffer].
  set (q := (inject_Z _ / inject_Z _)%Q). clearbody q.
  unfold decide_mode.
  destruct (window <? 10); [done|].
  destruct (Qlt_bool (9 # 10) q).
  { destruct (Qlt_bool 3 (now - last_degrade_check m)) eqn:E3;
      cbn [andb]; [|done].
    case_bool_decide as Hm; cbn [snd fst system_mode with_system_mode
                                   last_degrade_check]; [|done].
    repeat split; try done.
    unfold Qlt_bool in E3. apply negb_true_iff in E3.
    apply Qnot_le_lt. intros Hle. apply Qle_bool_iff in Hle. congruence. }
  destruct (Qlt_bool DROP_RATE_DEGRADE_THRESHOLD rate).
  { case_bool_decide as Hm; cbn [andb]; [|done].
    destruct (Qlt_bool DEGRADE_CHECK_WINDOW (now - last_degrade_check m)) eqn:E3;
      cbn [snd fst system_mode with_system_mode last_degrade_check]; [|done].
    repeat split; try done.
    unfold Qlt_bool in E3. apply negb_true_iff in E3.
    apply Qnot_le_lt. intros Hle.
    assert (Hle' : (now - last_degrade_check m <= DEGRADE_CHECK_WINDOW)%Q).
    { eapply Qle_trans; [exact Hle|]. by vm_compute. }
    apply Qle_bool_iff in Hle'. congruence. }
  destruct (Qlt_bool DROP_RATE_WARN_THRESHOLD rate).
  { case_bool_decide; done. }
  destruct (_ && _); [|done].
  case_bool_decide as Hm; cbn [snd fst system_mode with_system_mode
                                 last_degrade_check]; done.
Qed.

Lemma step_mode (s : FastPathListener * Monitor) (ev : event) :
  system_mode s.1 <> OVERLOAD -> system_mode (step s ev).1 <> OVERLOAD.
Proof.
  intros H. destruct ev as [e|t_rate now]; cbn [step fst].
  - by rewrite listen_mode.
  - pose proof (monitor_step_mode s.1 s.2 t_rate now) as Hm. cbn zeta in Hm.
    destruct (_monitor_step s.1 s.2 t_rate now) as [[l' m'] v].
    cbn [fst snd] in *.
    destruct v; try (destruct Hm as [-> _]; exact H).
    + destruct Hm as (_ & -> & _). done.
    + destruct Hm as (_ & -> & _). done.
Qed.

(** X26 — A listener is never in OVERLOAD mode.  It starts in NORMAL mode;
    receiving, working and maintenance leave the mode alone; and the
    monitor only moves it from NORMAL to DEGRADED and from DEGRADED to
    NORMAL. *)
Theorem overload_mode_never_entered (keys : gmap Z (list byte))
  (ring_buffer_size stale_window : Z) (allow_cidrs : list string)
  (m : Monitor) (evs : list event) :
  let l := (run (init keys ring_buffer_size stale_window allow_cidrs, m) evs).1 in
  system_mode l = NORMAL \/ system_mode l = DEGRADED.
Proof.
  cbn zeta.
  assert (H : forall s, system_mode s.1 <> OVERLOAD ->
                        system_mode (run s evs).1 <> OVERLOAD).
  { induction evs as [|ev evs IH]; intros s Hs; cbn [run fold_left]; [done|].
    apply IH, step_mode, Hs. }
  specialize (H (init keys ring_buffer_size stale_window allow_cidrs, m)).
  destruct (system_mode (run _ evs).1); auto.
  exfalso. by apply H.
Qed.

(** Every round of the monitor among the events reads its clock no later
    than [limit]; what the listener receives and works off in between is
    not restricted. *)
Definition watched_by (limit : Q) (evs : list event) : Prop :=
  Forall (fun ev => match ev with
                    | Listen _ => True
                    | Watch _ now => (now <= limit)%Q
                    end) evs.

(** The share of the ring buffer in use, as the monitor computes it. *)
Definition queue_ratio (l : FastPathListener) : Q :=
  (inject_Z (Z.of_nat (length (buffer (ring_buffer l))))
   / inject_Z (Z.max 1 (capacity (ring_buffer l))))%Q.

Lemma int_of_Q_lower (n : Z) (q : Q) :
  0 <= n -> (inject_Z n <= q)%Q -> n <= int_of_Q q.
Proof.
  intros Hn Hq. unfold int_of_Q. destruct q as [a b].
  unfold Qle in Hq. cbn in *.
  apply Z.quot_le_lower_bound; lia.
Qed.

(** A round that finds the rate window between ten and sixty seconds old
    and the queue more than 90% full, in NORMAL mode: it degrades the
    listener when more than three seconds have passed since
    [last_degrade_check], and does nothing otherwise. *)
Lemma monitor_step_queue_pressure (l : FastPathListener) (m : Monitor)
  (t now : Q) :
  system_mode l = NORMAL ->
  (10 <= t - rate_window_start (gauge m))%Q ->
  (t - rate_window_start (gauge m) <= 60)%Q ->
  (9 # 10 < queue_ratio l)%Q ->
  (_monitor_step l m t now).2 =
  if Qlt_bool 3 (now - last_degrade_check m)
  then Degrade "queue_pressure" else Steady.
Proof.
  intros Hmode Hlo Hhi Hq. unfold _monitor_step, drop_rate_body.
  assert (E1 : Qlt_bool DROP_RATE_CHECK_WINDOW
                 (t - rate_window_start (gauge m)) = false).
  { unfold Qlt_bool. apply negb_false_iff. by apply Qle_bool_iff. }
  rewrite E1.
  assert (Hw : 10 <= int_of_Q (t - rate_window_start (gauge m)))
    by (by apply int_of_Q_lower).
  assert (E2 : (int_of_Q (t - rate_window_start (gauge m)) <? 10) = false)
    by (apply Z.ltb_ge; lia).
  assert (E3 : Qlt_bool (9 # 10) (queue_ratio l) = true).
  { unfold Qlt_bool. apply negb_true_iff.
    destruct (Qle_bool (queue_ratio l) (9 # 10)) eqn:E; [|done].
    apply Qle_bool_iff in E. exfalso. by apply (Qlt_not_le _ _ Hq). }
  assert (Hv : forall st rate,
    decide_mode (system_mode (with_stats l st)) (last_degrade_check m) rate
      (int_of_Q (t - rate_window_start (gauge m)))
      (inject_Z (Z.of_nat (length (buffer (ring_buffer (with_stats l st)))))
       / inject_Z (Z.max 1 (capacity (ring_buffer (with_stats l st))))) now =
    if Qlt_bool 3 (now - last_degrade_check m)
    then Degrade "queue_pressure" else Steady).
  { intros st rate. unfold decide_mode. rewrite E2.
    change (ring_buffer (with_stats l st)) with (ring_buffer l).
    fold (queue_ratio l). rewrite E3.
    change (system_mode (with_stats l st)) with (system_mode l).
    rewrite Hmode, bool_decide_eq_true_2 by done.
    by rewrite andb_true_r. }
  destruct (window_received (stats l) =? 0); cbv zeta; rewrite Hv;
    by destruct (Qlt_bool 3 (now - last_degrade_check m)).
Qed.

(** A step of the listener or of its monitor within three seconds of
    [last_degrade_check] leaves a listener in NORMAL mode as it is. *)
Lemma step_holds (s : FastPathListener * Monitor) (ev : event) (now : Q) :
  system_mode s.1 = NORMAL -> last_degrade_check s.2 = now ->
  match ev with
  | Listen _ => True
  | Watch _ now' => (now' <= now + 3)%Q
  end ->
  system_mode (step s ev).1 = NORMAL /\ last_degrade_check (step s ev).2 = now.
Proof.
  intros Hs Hl Hev. destruct ev as [e|t now1]; cbn [step fst snd].
  { by rewrite listen_mode. }
  pose proof (monitor_step_mode s.1 s.2 t now1) as Hm. cbn zeta in Hm.
  destruct (_monitor_step s.1 s.2 t now1) as [[l1 m1] v].
  cbn [fst snd] in *.
  destruct v; try (destruct Hm as [Hm1 Hm2]; split; congruence).
  destruct Hm as (_ & _ & Hlt & _). rewrite Hl in Hlt. exfalso.
  apply (Qlt_not_le _ _ Hlt). lra.
Qed.

(** X27 — A recovery holds for three seconds, whatever the load.  The round
    of the monitor that recovers a listener sets [last_degrade_check] to
    its clock reading [now]; through whatever the listener then receives
    and works off, the rounds of the monitor up to [now + 3] leave it in
    NORMAL mode and leave [last_degrade_check] at [now]; and a round that
    then finds the queue more than 90% full (the rate window between ten
    and sixty seconds old) degrades the listener exactly when it comes
    more than three seconds after [now]. *)
Theorem recovery_holds_three_seconds (l : FastPathListener) (m : Monitor)
  (t_rate now : Q) (l' : FastPathListener) (m' : Monitor) :
  _monitor_step l m t_rate now = (l', m', Recover) ->
  system_mode l = DEGRADED /\ system_mode l' = NORMAL /\
  last_degrade_check m' = now /\
  forall evs : list event,
    watched_by (now + 3) evs ->
    let s := run (l', m') evs in
    system_mode s.1 = NORMAL /\ last_degrade_check s.2 = now /\
    forall t now' : Q,
      (10 <= t - rate_window_start (gauge s.2))%Q ->
      (t - rate_window_start (gauge s.2) <= 60)%Q ->
      (9 # 10 < queue_ratio s.1)%Q ->
      (_monitor_step s.1 s.2 t now').2 =
      if Qlt_bool 3 (now' - now) then Degrade "queue_pressure" else Steady.
Proof.
  intros Hstep.
  pose proof (monitor_step_mode l m t_rate now) as Hm. cbn zeta in Hm.
  rewrite Hstep in Hm. cbn [fst snd] in Hm. destruct Hm as (Hd & Hn & Hlast).
  split; [done|]. split; [done|]. split; [done|].
  intros evs Hw.
  assert (H : forall s, system_mode s.1 = NORMAL ->
                        last_degrade_check s.2 = now ->
    system_mode (run s evs).1 = NORMAL /\
    last_degrade_check (run s evs).2 = now).
  { induction Hw as [|ev evs Hev _ IH]; intros s Hs Hl;
      cbn [run fold_left]; [done|].
    destruct (step_holds s ev now Hs Hl Hev) as [Hs' Hl']. by apply IH. }
  destruct (H (l', m') Hn Hlast) as [Hmode Hcheck].
  cbn zeta. split; [done|]. split; [done|].
  intros t now' Hlo Hhi Hq.
  rewrite (monitor_step_queue_pressure _ _ t now' Hmode Hlo Hhi Hq).
  by rewrite Hcheck.
Qed.

End Runs.

(** A degraded listener with an empty queue of eight places, whose rate
    window is ten seconds old. *)
Definition calm_listener : FastPathListener :=
  with_system_mode (init ∅ 8 120 []) DEGRADED.

Definition calm_monitor : Monitor :=
  {| gauge := {| latencies := []; rate_window_start := 0 |};
     last_degrade_check := 0 |}.

(** Eight datagrams arrive within a second of the recovery at 10 and
    fill the queue; the monitor looks at 12. *)
Definition rush : list event :=
  replicate 8 (Listen (ListenerRuns.Recv (21 # 2) (21 # 2) []
                         ("10.0.0.1"%string, 4000)))
  ++ [Watch 12 12].

Lemma recovery_holds_three_seconds_witness :
  let r := _monitor_step calm_listener calm_monitor 10 10 in
  let s := run Examples.lib (r.1.1, r.1.2) rush in
  r.2 = Recover /\ (queue_ratio s.1 == 1)%Q /\ system_mode s.1 = NORMAL /\
  (_monitor_step s.1 s.2 13 13).2 = Steady /\
  (_monitor_step s.1 s.2 14 14).2 = Degrade "queue_pressure".
Proof.
  cbn zeta. split; [reflexivity|].
  destruct (recovery_holds_three_seconds Examples.lib calm_listener
              calm_monitor 10 10
              (_monitor_step calm_listener calm_monitor 10 10).1.1
              (_monitor_step calm_listener calm_monitor 10 10).1.2 eq_refl)
    as (_ & _ & _ & H).
  destruct (H rush) as (Hmode & _ & Hround).
  { unfold watched_by, rush. cbn [replicate app]. repeat constructor.
    by vm_compute. }
  split; [by vm_compute|]. split; [exact Hmode|]. split.
  - rewrite (Hround 13%Q 13%Q); by vm_compute.
  - rewrite (Hround 14%Q 14%Q); by vm_compute.
Defined.

End HealthFacts.

(* ===================================================================== *)
(** * Facts about the lease write of the sentinel                          *)
(* ===================================================================== *)

Module LeaseFacts.
Import Telemetry Lease.

Definition is_patch (c : call) : bool :=
  match c with PatchLease _ _ => true | CreateLease _ _ => false end.

Definition is_create (c : call) : bool := negb (is_patch c).

Definition answer_of (c : call) : api_response :=
  match c with PatchLease _ a => a | CreateLease _ a => a end.

Definition accepted_patch (c : call) : Prop :=
  exists body, c = PatchLease body Accepted.

(** The cluster never makes the client raise anything but
    [ApiException]. *)
Definition only_api_exceptions (k : Cluster) : Prop :=
  (forall i b, patch_namespaced_lease k i b <> OtherException) /\
  (forall i b, create_namespaced_lease k i b <> OtherException).

Section WithLib.
Context (L : Lib).

Ltac lease_case :=
  match goal with
  | |- context [match ?a with Accepted => _ | _ => _ end] =>
      let E := fresh "E" in destruct a eqn:E
  | |- context [if ?b then _ else _] =>
      let E := fresh "E" in destruct b eqn:E
  end.

Lemma not_accepted_create b a : ~ accepted_patch (CreateLease b a).
Proof. by intros [body H]. Qed.

Lemma not_accepted_api b s : ~ accepted_patch (PatchLease b (ApiException s)).
Proof. by intros [body H]. Qed.

(** X28 — [update_lease] calls the API server at most six times, three
    patches and three creations, and sleeps at most 0.06 seconds; it
    stops at the first patch the server accepts; every patch carries the
    same body, with the new sequence number.  Whatever the server
    answers, the sequence number goes up by one, and unless a call raises
    something else than [ApiException] the method returns the timestamp
    and the [elevate] flag it was given, also when no patch was
    accepted. *)
Theorem update_lease_bounded_retries (t : DualPathTelemetry) (k : Cluster)
  (node_name : string) (utc_now score : Q) (elevate : bool)
  (run_id : option string) :
  let r := update_lease L t k node_name utc_now score elevate run_id in
  let tr := r.1.2 in
  sequence r.1.1 = sequence t + 1 /\
  (r.2 = Some (isoformat L utc_now, elevate) \/
   r.2 = None /\
   exists c, last (calls tr) = Some c /\ answer_of c = OtherException) /\
  (only_api_exceptions k -> r.2 = Some (isoformat L utc_now, elevate)) /\
  (1 <= length (List.filter is_patch (calls tr)) <= 3)%nat /\
  (length (List.filter is_create (calls tr)) <= 3)%nat /\
  Forall (fun c => ~ accepted_patch c) (removelast (calls tr)) /\
  Forall (fun c =>
            match c with
            | PatchLease b _ =>
                b = lease_patch L node_name (sequence t + 1)
                      (isoformat L utc_now) score elevate run_id
            | CreateLease b _ => b = lease_body node_name run_id
            end) (calls tr) /\
  (Gossip.Qsum (naps tr) <= 6 # 100)%Q.
Proof.
  cbn zeta. unfold update_lease.
  cbn [sequence with_sequence lease_attempts log nap calls naps app
       Z.of_nat Z.add].
  set (patch := lease_patch _ _ _ _ _ _ _).
  set (body := lease_body _ _).
  assert (Hp : forall i, patch_namespaced_lease k i patch = OtherException ->
                         only_api_exceptions k -> False).
  { intros i H [Hk _]. by destruct (Hk i patch). }
  assert (Hc : forall i, create_namespaced_lease k i body = OtherException ->
                         only_api_exceptions k -> False).
  { intros i H [_ Hk]. by destruct (Hk i body). }
  repeat lease_case;
    cbn [fst snd sequence calls naps log nap removelast List.filter is_patch is_create
         negb length last app];
    (split; [reflexivity|]);
    (split; [first [by left
                   | right; split; [reflexivity|];
                     eexists; split; [reflexivity|]; reflexivity]|]);
    (split; [intros Hk; first [reflexivity | exfalso; eauto]|]);
    (split; [lia|]);
    (split; [lia|]);
    (split; [repeat constructor;
             first [apply not_accepted_create | apply not_accepted_api]|]);
    (split; [repeat constructor|]);
    by vm_compute.
Qed.

End WithLib.

End LeaseFacts.

(* ===================================================================== *)
(** * Facts about label selectors                                          *)
(* ===================================================================== *)

Module SelectorFacts.
Import MicroAct Selector.

(** The characters of a string. *)
Definition chars (s : string) : list ascii := list_ascii_of_string s.

(** The usual way to write labels down: [k1=v1,k2=v2]. *)
Definition render (labels : list (string * string)) : string :=
  String.concat "," (map (fun kv => kv.1 ++ "=" ++ kv.2)%string labels).

(** A label that the selector syntax can carry as it is: nothing to
    strip, no comma, and no equals sign in the key. *)
Definition plain_label (kv : string * string) : Prop :=
  strip kv.1 = kv.1 /\ strip kv.2 = kv.2 /\
  ~ In ","%char (chars kv.1) /\ ~ In "="%char (chars kv.1) /\
  ~ In ","%char (chars kv.2).

Lemma chars_app (a b : string) : chars (a ++ b) = (chars a ++ chars b)%list.
Proof.
  induction a as [|c a IH]; [done|].
  change (chars (String c a ++ b)) with (c :: chars (a ++ b)).
  by rewrite IH.
Qed.

Lemma split_once_absent (c : ascii) (s : string) :
  ~ In c (chars s) -> split_once c s = None.
Proof.
  induction s as [|x s IH]; intros H; [done|]. cbn [split_once].
  destruct (Ascii.eqb_spec x c) as [->|Hx].
  - destruct H. by left.
  - rewrite IH; [done|]. intros Hin. apply H. by right.
Qed.

Lemma split_once_first (c : ascii) (k v : string) :
  ~ In c (chars k) -> split_once c (k ++ String c v) = Some (k, v).
Proof.
  induction k as [|x k IH]; intros H.
  - change (EmptyString ++ String c v)%string with (String c v).
    cbn [split_once]. by rewrite Ascii.eqb_refl.
  - change (String x k ++ String c v)%string with (String x (k ++ String c v)).
    cbn [split_once]. destruct (Ascii.eqb_spec x c) as [->|Hx].
    + destruct H. by left.
    + rewrite IH; [done|]. intros Hin. apply H. by right.
Qed.

Lemma split_on_absent (sep : ascii) (s : string) :
  ~ In sep (chars s) -> split_on sep s = [s].
Proof.
  induction s as [|x s IH]; intros H; [done|]. cbn [split_on].
  destruct (Ascii.eqb_spec x sep) as [->|Hx].
  - destruct H. by left.
  - rewrite IH; [done|]. intros Hin. apply H. by right.
Qed.

Lemma split_on_first (sep : ascii) (a b : string) :
  ~ In sep (chars a) ->
  split_on sep (a ++ String sep b) = a :: split_on sep b.
Proof.
  induction a as [|x a IH]; intros H.
  - change (EmptyString ++ String sep b)%string with (String sep b).
    cbn [split_on]. by rewrite Ascii.eqb_refl.
  - change (String x a ++ String sep b)%string
      with (String x (a ++ String sep b)).
    cbn [split_on]. destruct (Ascii.eqb_spec x sep) as [->|Hx].
    + destruct H. by left.
    + rewrite IH; [done|]. intros Hin. apply H. by right.
Qed.

(** The parts of [s.split(sep)] are made of characters of [s]. *)
Lemma split_on_chars (sep : ascii) (s part : string) (c : ascii) :
  In part (split_on sep s) -> In c (chars part) -> In c (chars s).
Proof.
  revert part. induction s as [|x s IH]; intros part Hp Hc.
  - destruct Hp as [<-|[]]. done.
  - cbn [split_on] in Hp. destruct (Ascii.eqb x sep).
    + destruct Hp as [<-|Hp]; [done|]. right. by eapply IH.
    + pose proof (MicroActGates.split_on_nonempty sep s) as Hne.
      destruct (split_on sep s) as [|p ps]; [done|].
      destruct Hp as [<-|Hp].
      * destruct Hc as [<-|Hc]; [by left|]. right. apply (IH p); by left + idtac.
      * right. apply (IH part); [by right|done].
Qed.

Lemma split_on_concat (sep : ascii) (parts : list string) :
  parts <> [] ->
  Forall (fun p => ~ In sep (chars p)) parts ->
  split_on sep (String.concat (String sep EmptyString) parts) = parts.
Proof.
  intros Hne H. induction H as [|p parts Hp Hps IH]; [done|].
  destruct parts as [|q parts].
  - cbn [String.concat]. by apply split_on_absent.
  - change (String.concat (String sep EmptyString) (p :: q :: parts))
      with (p ++ String sep (String.concat (String sep EmptyString) (q :: parts)))%string.
    rewrite split_on_first by done. by rewrite IH.
Qed.

Definition add_label (labels : list (string * string)) (part : string)
  : list (string * string) :=
  match split_once "=" part with
  | Some (k, v) => dict_set (strip k) (strip v) labels
  | None => labels
  end.

Lemma dict_set_fresh {A} (k : string) (v : A) (d : list (string * A)) :
  ~ In k (map fst d) -> dict_set k v d = (d ++ [(k, v)])%list.
Proof.
  induction d as [|[k' v'] d IH]; intros H; [done|].
  cbn [dict_set]. destruct (String.eqb_spec k k') as [->|Hk].
  - destruct H. by left.
  - cbn [app]. rewrite IH; [done|]. intros Hin. apply H. by right.
Qed.

Lemma add_labels_plain (labels : list (string * string)) :
  forall acc,
  NoDup (map fst (acc ++ labels)) ->
  Forall plain_label labels ->
  fold_left add_label (map (fun kv => kv.1 ++ "=" ++ kv.2)%string labels) acc
  = (acc ++ labels)%list.
Proof.
  induction labels as [|[k v] labels IH]; intros acc Hnd Hall.
  - by rewrite app_nil_r.
  - apply Forall_cons in Hall as [(Hk & Hv & _ & Heq & _) Hall].
    cbn [map fold_left fst snd] in *.
    unfold add_label at 2.
    change (k ++ "=" ++ v)%string with (k ++ String "=" v)%string.
    rewrite split_once_first by done. rewrite Hk, Hv.
    rewrite dict_set_fresh.
    + rewrite IH; [by rewrite <- app_assoc| |done].
      by rewrite <- app_assoc.
    + rewrite map_app in Hnd. cbn [map fst] in Hnd.
      apply NoDup_app in Hnd as (_ & Hd & _).
      intros Hin. apply list_elem_of_In in Hin. apply (Hd k Hin). by left.
Qed.

(** X29 — [_parse_selector] reads back what the selector syntax writes: for
    labels with distinct keys that need no stripping, have no comma and
    no equals sign in a key, the selector [k1=v1,k2=v2,...] parses to the
    same labels in the same order. *)
Theorem parse_selector_round_trip (labels : list (string * string)) :
  NoDup (map fst labels) ->
  Forall plain_label labels ->
  _parse_selector (render labels) = labels.
Proof.
  intros Hnd Hall. unfold _parse_selector, render.
  destruct labels as [|kv labels]; [done|].
  rewrite split_on_concat.
  - by apply (add_labels_plain (kv :: labels) []).
  - done.
  - apply Forall_map. eapply Forall_impl; [exact Hall|].
    intros [k v] (_ & _ & Hk & _ & Hv). cbn [fst snd].
    rewrite !chars_app. intros Hin.
    apply in_app_or in Hin as [Hin|Hin]; [done|].
    apply in_app_or in Hin as [Hin|Hin]; [|done].
    destruct Hin as [Hin|[]]. discriminate Hin.
Qed.

(** No character of a given string is the one looked for. *)
Ltac absent :=
  cbn; intros H; repeat (destruct H as [H|H]; [discriminate H|]); destruct H.

Lemma parse_selector_round_trip_witness :
  _parse_selector (render [("app", "web"); ("tier", "a=b")]%string) =
  [("app", "web"); ("tier", "a=b")]%string.
Proof.
  apply (parse_selector_round_trip [("app", "web"); ("tier", "a=b")]%string).
  - apply NoDup_cons. split; [|apply NoDup_singleton].
    intros H. apply list_elem_of_In in H. revert H. absent.
  - repeat (apply Forall_cons; split); [| |by apply Forall_nil];
      (unfold plain_label; cbn [fst snd];
       split; [reflexivity|split; [reflexivity|split; [absent|split; absent]]]).
Defined.

Section WithLib.
Context (L : Lib).

(** X30 — A selector without an equals sign gives no label at all, so the
    pod selector of the isolation policy is empty, and the check that
    [execute] makes on the selector lets it pass as long as it is not
    blank. *)
Theorem selector_without_equals_has_no_labels (selector namespace : string) :
  ~ In "="%char (chars selector) ->
  is_blank selector = false ->
  _parse_selector selector = [] /\
  validate_values L [("namespace", JStr namespace);
                     ("selector", JStr selector)]%string = Ret None.
Proof.
  intros Hno Hblank. split.
  - unfold _parse_selector.
    assert (H : forall parts acc,
              (forall p, In p parts -> split_once "=" p = None) ->
              fold_left
                (fun labels part =>
                   match split_once "=" part with
                   | Some (k, v) => dict_set (strip k) (strip v) labels
                   | None => labels
                   end) parts acc = acc).
    { induction parts as [|p parts IH]; intros acc Hp; [done|].
      cbn [fold_left]. rewrite (Hp p) by by left.
      apply IH. intros q Hq. apply Hp. by right. }
    apply H. intros p Hp. apply split_once_absent.
    intros Hin. apply Hno. by eapply split_on_chars.
  - unfold validate_values. cbn [dict_get String.eqb Ascii.eqb Bool.eqb bind].
    cbn. by rewrite Hblank.
Qed.

End WithLib.

Lemma selector_without_equals_has_no_labels_witness :
  _parse_selector "web" = [] /\
  validate_values Examples.lib
    [("namespace", JStr "default"); ("selector", JStr "web")]%string = Ret None.
Proof.
  apply (selector_without_equals_has_no_labels Examples.lib "web" "default").
  - absent.
  - reflexivity.
Defined.

End SelectorFacts.
